(** * Intrusion-detection pipeline: a shallow embedding of
      [models/preprocess.py], [models/db_preprocess.py],
      [cms/ids_manager.py] and the IDS routes of [enhanced_api.py].

    Python [str] values are Rocq [string]s whose characters are code points
    below 256; [int] values are [Z]; scores produced by a classifier artifact
    are rationals ([Q]).  A call that can raise returns an [outcome].  Mutable
    state (the manager object, the wall clock, the persisted snapshot) and
    the encoding of the standard output are threaded through a small
    state-and-exception monad. *)

From Stdlib Require Import ZArith QArith Qabs Qround List String Ascii Bool.
From Stdlib Require Import DecimalString Lia Lqa.
Import ListNotations.

Local Open Scope string_scope.
Local Open Scope Z_scope.

(* ------------------------------------------------------------------ *)
(** ** Python string operations used by the detection code *)

Module PyStr.

(** What a call does: it returns a value or raises an exception, of which
    the class is kept. *)
Inductive exn : Type :=
| AttributeError | TypeError | IndexError | ValueError | RuntimeError
| UnicodeEncodeError.

Inductive outcome (A : Type) : Type :=
| Ret (a : A)
| Raise (e : exn).
Arguments Ret {A} a.
Arguments Raise {A} e.

Definition code (c : ascii) : Z := Z.of_nat (nat_of_ascii c).

(** Whether every character of a string is in a class. *)
Fixpoint every (cls : ascii -> bool) (s : string) : bool :=
  match s with
  | EmptyString => true
  | String c s' => cls c && every cls s'
  end.

Definition is_ascii (c : ascii) : bool := code c <? 128.

(** [str.isspace] on one character, which is also what [\s] matches. *)
Definition is_space (c : ascii) : bool :=
  let n := code c in
  ((9 <=? n) && (n <=? 13)) || ((28 <=? n) && (n <=? 32))
  || (n =? 133) || (n =? 160).

(** Decimal digits, the characters [\d] matches. *)
Definition is_digit (c : ascii) : bool :=
  let n := code c in (48 <=? n) && (n <=? 57).

Definition chr (n : Z) : ascii := ascii_of_nat (Z.to_nat n).

(** [str.lower] on one character. *)
Definition lower_char (c : ascii) : ascii :=
  let n := code c in
  if ((65 <=? n) && (n <=? 90))
     || ((192 <=? n) && (n <=? 222) && negb (n =? 215))
  then chr (n + 32) else c.

Fixpoint lower (s : string) : string :=
  match s with
  | EmptyString => EmptyString
  | String c s' => String (lower_char c) (lower s')
  end.

(** [str.upper] on one character; the sharp s becomes two letters, and the
    two characters whose capital lies above code point 255 are kept. *)
Definition upper_char (c : ascii) : string :=
  let n := code c in
  if ((97 <=? n) && (n <=? 122))
     || ((224 <=? n) && (n <=? 254) && negb (n =? 247))
  then String (chr (n - 32)) EmptyString
  else if n =? 223 then "SS"
  else String c EmptyString.

Fixpoint upper (s : string) : string :=
  match s with
  | EmptyString => EmptyString
  | String c s' => upper_char c ++ upper s'
  end.

Definition len (s : string) : Z := Z.of_nat (String.length s).

Fixpoint startswith (p s : string) : bool :=
  match p, s with
  | EmptyString, _ => true
  | String a p', String b s' => Ascii.eqb a b && startswith p' s'
  | String _ _, EmptyString => false
  end.

(** [p in s] *)
Fixpoint str_in (p s : string) : bool :=
  startswith p s ||
  match s with
  | EmptyString => false
  | String _ s' => str_in p s'
  end.

(** [any(p in s for p in ps)] *)
Definition any_in (ps : list string) (s : string) : bool :=
  existsb (fun p => str_in p s) ps.

(** [s.count(sub)] for a non-empty [sub]: occurrences that do not overlap,
    scanned from the left; [skip] is what is left of the last occurrence. *)
Fixpoint count_from (sub s : string) (skip : nat) : Z :=
  match s with
  | EmptyString => 0
  | String _ s' =>
      match skip with
      | S k => count_from sub s' k
      | O => if startswith sub s
             then 1 + count_from sub s' (String.length sub - 1)
             else count_from sub s' 0
      end
  end.

Definition count (sub s : string) : Z := count_from sub s 0.

(** [sum(s.count(k) for k in ks)] *)
Definition sum_counts (ks : list string) (s : string) : Z :=
  fold_right (fun k acc => count k s + acc) 0 ks.

Fixpoint lstrip (s : string) : string :=
  match s with
  | EmptyString => EmptyString
  | String c s' => if is_space c then lstrip s' else s
  end.

Fixpoint rstrip (s : string) : string :=
  match s with
  | EmptyString => EmptyString
  | String c s' =>
      match rstrip s' with
      | EmptyString => if is_space c then EmptyString else String c EmptyString
      | r => String c r
      end
  end.

(** [s.strip()] *)
Definition strip (s : string) : string := rstrip (lstrip s).

(** Splitting at every character satisfying [sep], empty pieces kept. *)
Fixpoint split_by (sep : ascii -> bool) (s : string) : list string :=
  match s with
  | EmptyString => [EmptyString]
  | String c s' =>
      if sep c then EmptyString :: split_by sep s'
      else match split_by sep s' with
           | h :: t => String c h :: t
           | [] => [String c EmptyString]
           end
  end.

(** [s.split(c)] for a one-character separator. *)
Definition split_on (c : ascii) (s : string) : list string :=
  split_by (Ascii.eqb c) s.

(** [s.split()]: runs of whitespace separate, no empty piece is returned. *)
Definition split (s : string) : list string :=
  filter (fun w => negb (String.eqb w EmptyString)) (split_by is_space s).

(** [s[:n]] *)
Definition take (n : nat) (s : string) : string := substring 0 n s.

(** [str(n)] for a length. *)
Definition str_nat (n : nat) : string :=
  NilEmpty.string_of_uint (Nat.to_uint n).

(** The value of a string of decimal digits. *)
Fixpoint int_acc (acc : Z) (s : string) : Z :=
  match s with
  | EmptyString => acc
  | String c s' => int_acc (10 * acc + (code c - 48)) s'
  end.

(** The blanks [int] skips at both ends of its argument: the ASCII ones, and
    the two other blanks below code point 256. *)
Definition int_blank (c : ascii) : bool :=
  let n := code c in
  ((9 <=? n) && (n <=? 13)) || (n =? 32) || (n =? 133) || (n =? 160).

Fixpoint skip_blanks (s : string) : string :=
  match s with
  | EmptyString => EmptyString
  | String c s' => if int_blank c then skip_blanks s' else s
  end.

Fixpoint drop_last_blanks (s : string) : string :=
  match s with
  | EmptyString => EmptyString
  | String c s' =>
      match drop_last_blanks s' with
      | EmptyString =>
          if int_blank c then EmptyString else String c EmptyString
      | r => String c r
      end
  end.

(** The digits of an integer literal in base ten: decimal digits, with single
    underscores between them, which are dropped.  [after_digit] tells whether
    the character before was a digit. *)
Fixpoint literal_digits (s : string) (after_digit : bool) : option string :=
  match s with
  | EmptyString => if after_digit then Some EmptyString else None
  | String c s' =>
      if is_digit c then
        match literal_digits s' true with
        | Some ds => Some (String c ds)
        | None => None
        end
      else if Ascii.eqb c "_" && after_digit then literal_digits s' false
      else None
  end.

(** The most digits [int] converts ([sys.get_int_max_str_digits()]). *)
Definition max_str_digits : nat := 4300.

(** [int(s)]: blanks around, an optional sign, then the digits; anything
    else, and more than [max_str_digits] digits, is a [ValueError]. *)
Definition int (s : string) : outcome Z :=
  let s := drop_last_blanks (skip_blanks s) in
  let '(sign, digits) :=
    match s with
    | String "+" r => (1, r)
    | String "-" r => (-1, r)
    | _ => (1, s)
    end in
  match literal_digits digits false with
  | Some ds =>
      if (max_str_digits <? String.length ds)%nat then Raise ValueError
      else Ret (sign * int_acc 0 ds)
  | None => Raise ValueError
  end.

(** Truthiness of a string: [if s:] *)
Definition truthy (s : string) : bool := negb (String.eqb s EmptyString).

End PyStr.

(* ------------------------------------------------------------------ *)
(** ** The fragment of [re] the two parsers use

    Every repetition in the two patterns ranges over a character class, so a
    repetition node carries the class, its minimum and whether it is greedy.
    Matching is by backtracking, in the priority order of [re]: the first
    way of matching that lets the rest of the pattern succeed is taken. *)

Module Re.

Inductive regex : Type :=
| Lit (s : string)
| Rep (cls : ascii -> bool) (min : nat) (greedy : bool)
| Group (n : nat) (r : regex)
| Seq (r1 r2 : regex)
| Alt (r1 r2 : regex)
| Opt (r : regex).

(** Captured text, most recent first. *)
Definition captures := list (nat * string).

Fixpoint group (n : nat) (cs : captures) : option string :=
  match cs with
  | [] => None
  | (m, t) :: cs' => if Nat.eqb n m then Some t else group n cs'
  end.

Fixpoint drop_prefix (p s : string) : option string :=
  match p, s with
  | EmptyString, _ => Some s
  | String a p', String b s' => if Ascii.eqb a b then drop_prefix p' s' else None
  | String _ _, EmptyString => None
  end.

Section Matcher.
Context {R : Type}.

(** [cls*], longest first. *)
Fixpoint star_greedy (cls : ascii -> bool) (s : string)
         (k : string -> option R) : option R :=
  match s with
  | EmptyString => k s
  | String c s' =>
      if cls c then
        match star_greedy cls s' k with
        | Some r => Some r
        | None => k s
        end
      else k s
  end.

(** [cls*?], shortest first. *)
Fixpoint star_lazy (cls : ascii -> bool) (s : string)
         (k : string -> option R) : option R :=
  match k s with
  | Some r => Some r
  | None =>
      match s with
      | EmptyString => None
      | String c s' => if cls c then star_lazy cls s' k else None
      end
  end.

Fixpoint rep (cls : ascii -> bool) (min : nat) (greedy : bool) (s : string)
         (k : string -> option R) : option R :=
  match min with
  | S m =>
      match s with
      | EmptyString => None
      | String c s' => if cls c then rep cls m greedy s' k else None
      end
  | O => if greedy then star_greedy cls s k else star_lazy cls s k
  end.

(** The text consumed between [s] and its suffix [s']. *)
Definition consumed (s s' : string) : string :=
  substring 0 (String.length s - String.length s') s.

Fixpoint run (r : regex) (s : string) (cs : captures)
         (k : string -> captures -> option R) : option R :=
  match r with
  | Lit p =>
      match drop_prefix p s with
      | Some s' => k s' cs
      | None => None
      end
  | Rep cls min greedy => rep cls min greedy s (fun s' => k s' cs)
  | Group n r1 =>
      run r1 s cs (fun s' cs' => k s' ((n, consumed s s') :: cs'))
  | Seq r1 r2 => run r1 s cs (fun s' cs' => run r2 s' cs' k)
  | Alt r1 r2 =>
      match run r1 s cs k with
      | Some x => Some x
      | None => run r2 s cs k
      end
  | Opt r1 =>
      match run r1 s cs k with
      | Some x => Some x
      | None => k s cs
      end
  end.
End Matcher.

(** [pattern.match(s)]: anchored at the start, free at the end. *)
Definition rmatch (r : regex) (s : string) : option captures :=
  run r s [] (fun _ cs => Some cs).

(** [re.search(pattern, s)]: the leftmost start that matches. *)
Fixpoint search (r : regex) (s : string) : option captures :=
  match rmatch r s with
  | Some cs => Some cs
  | None =>
      match s with
      | EmptyString => None
      | String _ s' => search r s'
      end
  end.

Definition seq (rs : list regex) : regex :=
  fold_right Seq (Lit EmptyString) rs.

(** Character classes. *)
Definition space (c : ascii) : bool := PyStr.is_space c.
Definition nonspace (c : ascii) : bool := negb (PyStr.is_space c).
Definition digit (c : ascii) : bool := PyStr.is_digit c.
Definition dot (c : ascii) : bool := negb (Ascii.eqb c "010"%char).

End Re.

(* ------------------------------------------------------------------ *)
(** ** [models/preprocess.py] and [models/db_preprocess.py] *)

Module Preprocess.
Import PyStr Re.

(** The double-quote character, as a one-character string. *)
Definition dquote : string := String "034"%char EmptyString.

(** [LOG_PATTERN], the combined access-log shape: three fields without
    whitespace, the bracketed timestamp, the quoted request, two numbers, the
    quoted referer and user agent (the four of them lazy), and an optional
    greedy rest of the line. *)
Definition LOG_PATTERN : regex :=
  seq [ Group 1 (Rep nonspace 1 true); Lit " ";
        Group 2 (Rep nonspace 1 true); Lit " ";
        Group 3 (Rep nonspace 1 true); Lit " [";
        Group 4 (Rep dot 0 false); Lit ("] " ++ dquote);
        Group 5 (Rep dot 0 false); Lit (dquote ++ " ");
        Group 6 (Rep digit 1 true); Lit " ";
        Group 7 (Rep digit 1 true); Lit (" " ++ dquote);
        Group 8 (Rep dot 0 false); Lit (dquote ++ " " ++ dquote);
        Group 9 (Rep dot 0 false); Lit dquote;
        Opt (Group 10 (Rep dot 0 true)) ].

(** The dictionary [parse_log_line] returns. *)
Record Parsed : Type := {
  ip : string;
  timestamp : string;
  method : string;
  url : string;
  status : Z;
  bytes : Z;
  referer : string;
  user_agent : string
}.

Definition grp (n : nat) (cs : captures) : string :=
  match group n cs with
  | Some t => t
  | None => EmptyString
  end.

(** [parse_log_line]: the record of a line that matches, [None] for a line
    that does not; the two conversions of the dictionary can raise. *)
Definition parse_log_line (line : string) : outcome (option Parsed) :=
  match rmatch LOG_PATTERN line with
  | Some cs =>
      let request := grp 5 cs in
      let '(method, url) :=
        match split request with
        | m :: u :: _ => (m, u)
        | _ => ("UNKNOWN", request)
        end in
      match int (grp 6 cs) with
      | Raise e => Raise e
      | Ret status =>
          match int (grp 7 cs) with
          | Raise e => Raise e
          | Ret bytes =>
              Ret (Some {| ip := grp 1 cs;
                           timestamp := grp 4 cs;
                           method := method;
                           url := url;
                           status := status;
                           bytes := bytes;
                           referer := grp 8 cs;
                           user_agent := grp 9 cs |})
          end
      end
  | None => Ret None
  end.

(** The numeric row handed to a classifier. *)
Definition FeatureVector := list Z.

Definition count_specials (text : string) : Z :=
  sum_counts ["%"; "'"; dquote; "<"; ">"; "="; ";"; "("; ")"] text.

(** [extract_features] on the one-row frame built from a parsed record:
    [url_length, special_chars, is_error, is_post, ua_length, bytes]. *)
Definition extract_features (p : Parsed) : FeatureVector :=
  [ len (url p);
    count_specials (url p);
    (if status p >=? 400 then 1 else 0);
    (if String.eqb (upper (method p)) "POST" then 1 else 0);
    len (user_agent p);
    bytes p ].

(** The pattern of [parse_db_log]: whitespace, [Query] or [Execute],
    whitespace, then the rest of the line as group 2. *)
Definition DB_PATTERN : regex :=
  seq [ Rep space 1 true;
        Group 1 (Alt (Lit "Query") (Lit "Execute"));
        Rep space 1 true;
        Group 2 (Rep dot 0 true) ].

Definition parse_db_log (line : string) : string :=
  let line := strip line in
  match search DB_PATTERN line with
  | Some cs => strip (grp 2 cs)
  | None => line
  end.

(** [extract_sql_features] on the one-row frame [{'query': query}]:
    [length, keyword_count, special_chars, logic_count, has_comment]. *)
Definition extract_sql_features (query : string) : FeatureVector :=
  [ len query;
    sum_counts ["SELECT"; "UNION"; "INSERT"; "UPDATE"; "DELETE"; "DROP";
                "FROM"; "WHERE"] (upper query);
    sum_counts ["'"; dquote; "-"; "#"; ";"; "="; "("; ")"; "*"] query;
    sum_counts [" OR "; " AND "; "1=1"; "1=0"] (upper query);
    (if str_in "--" query || str_in "#" query then 1 else 0) ].

(** A log line in the combined access-log shape. *)
Definition access_line (ip ts request status bytes referer ua : string)
  : string :=
  ip ++ " - - [" ++ ts ++ "] " ++ dquote ++ request ++ dquote ++ " "
     ++ status ++ " " ++ bytes ++ " " ++ dquote ++ referer ++ dquote
     ++ " " ++ dquote ++ ua ++ dquote.

End Preprocess.


(* ------------------------------------------------------------------ *)
(** ** [cms/ids_manager.py] *)

Module IDS.
Import PyStr Preprocess.

(** *** The manager and the monad of its methods *)

(** One alert dictionary.  [timestamp] is the reading of the wall clock,
    kept as the index of the reading. *)
Record Alert : Type := {
  id : Z;
  timestamp : nat;
  alert_type : string;
  severity : string;
  source_ip : string;
  attack_type : string;
  payload : string;
  user_agent : string;
  confidence : Q;
  status : string
}.

(** A classifier artifact: the object [joblib.load] returned, a
    scikit-learn estimator.  [truth] is what [not model] evaluates: the
    length of the object where it has one (an ensemble has the length of the
    list of its fitted members, and raises [AttributeError] before it is
    fitted), true where it has none.  The three other fields are the calls
    the manager makes on a fitted estimator: a call either returns or raises,
    and an estimator without one of the methods raises [AttributeError]
    there. *)
Record Model : Type := {
  truth : outcome bool;
  fitted_predict : FeatureVector -> outcome (list Z);
  fitted_decision_function : FeatureVector -> outcome (list Q);
  fitted_predict_proba : FeatureVector -> outcome (option (list (list Q)))
}.

(** A method call on an artifact.  Only a fitted estimator answers; an
    estimator that is not fitted raises from its methods what it raises from
    its length, and an empty one has nothing to call. *)
Definition when_fitted {A} (m : Model) (r : outcome A) : outcome A :=
  match truth m with
  | Ret true => r
  | Ret false => Raise AttributeError
  | Raise e => Raise e
  end.

Definition predict (m : Model) (f : FeatureVector) : outcome (list Z) :=
  when_fitted m (fitted_predict m f).

Definition decision_function (m : Model) (f : FeatureVector)
  : outcome (list Q) :=
  when_fitted m (fitted_decision_function m f).

Definition predict_proba (m : Model) (f : FeatureVector)
  : outcome (option (list (list Q))) :=
  when_fitted m (fitted_predict_proba m f).

(** The attributes of an [IDSManager] object.  A model that failed to load
    is [None]. *)
Record IDSManager : Type := {
  web_model : option Model;
  db_model : option Model;
  email_model : option Model;
  alerts : list Alert;
  max_alerts : nat
}.

(** Stages of the pipeline a line can reach, recorded as they are entered. *)
Inductive Event : Type :=
| EvSignature | EvFeatures | EvPredict | EvDecision | EvProba.

(** The manager together with what its methods read and write around it:
    the wall clock, the snapshot [alerts/alerts.json], the record of the
    stages entered so far, and the characters beyond ASCII that the encoding
    of the standard output has. *)
Record World : Type := {
  self : IDSManager;
  clock : nat;
  alerts_file : option (list Alert);
  calls : list Event;
  console : ascii -> bool
}.

Definition M (A : Type) : Type := World -> outcome A * World.

Definition ret {A} (a : A) : M A := fun w => (Ret a, w).
Definition raise {A} (e : exn) : M A := fun w => (Raise e, w).

Definition bind {A B} (c : M A) (k : A -> M B) : M B :=
  fun w =>
    match c w with
    | (Ret a, w') => k a w'
    | (Raise e, w') => (Raise e, w')
    end.

(** [try: c except: h]; what [c] wrote before raising stays written. *)
Definition try_except {A} (c : M A) (h : exn -> M A) : M A :=
  fun w =>
    match c w with
    | (Ret a, w') => (Ret a, w')
    | (Raise e, w') => h e w'
    end.

Declare Scope ids_scope.
Delimit Scope ids_scope with ids.
Notation "x <- c ;; k" := (bind c (fun x => k))
  (at level 61, c at next level, right associativity) : ids_scope.
Notation "c ;;; k" := (bind c (fun _ => k))
  (at level 61, right associativity) : ids_scope.
Local Open Scope ids_scope.

Definition get_self : M IDSManager := fun w => (Ret (self w), w).

Definition set_alerts (l : list Alert) : M unit :=
  fun w =>
    (Ret tt,
     {| self := {| web_model := web_model (self w);
                   db_model := db_model (self w);
                   email_model := email_model (self w);
                   alerts := l;
                   max_alerts := max_alerts (self w) |};
        clock := clock w;
        alerts_file := alerts_file w;
        calls := calls w;
        console := console w |}).

(** [datetime.now()] *)
Definition datetime_now : M nat :=
  fun w =>
    (Ret (clock w),
     {| self := self w; clock := S (clock w);
        alerts_file := alerts_file w; calls := calls w;
        console := console w |}).

Definition tick (e : Event) : M unit :=
  fun w =>
    (Ret tt,
     {| self := self w; clock := clock w;
        alerts_file := alerts_file w; calls := (calls w ++ [e])%list;
        console := console w |}).

(** Taking what a call outside the manager returns or raises. *)
Definition lift {A} (r : outcome A) : M A := fun w => (r, w).

(** Entering a stage and taking what it returns or raises. *)
Definition call {A} (e : Event) (r : outcome A) : M A :=
  tick e ;;; lift r.

(** [str(e)]: the text of an exception stands for its class; the messages
    of the interpreter and of the library are in ASCII. *)
Definition str_exn (e : exn) : string :=
  match e with
  | AttributeError => "AttributeError"
  | TypeError => "TypeError"
  | IndexError => "IndexError"
  | ValueError => "ValueError"
  | RuntimeError => "RuntimeError"
  | UnicodeEncodeError => "UnicodeEncodeError"
  end.

(** [print(text)].  What is written is not kept.  The standard output
    encodes ASCII, and of the other characters those its encoding has; a
    character it has not raises [UnicodeEncodeError]. *)
Definition printable (w : World) (text : string) : bool :=
  every (fun c => is_ascii c || console w c) text.

Definition print (text : string) : M unit :=
  fun w =>
    if printable w text then (Ret tt, w) else (Raise UnicodeEncodeError, w).

(** [xs[0]] *)
Definition index0 {A} (xs : list A) : M A :=
  match xs with
  | x :: _ => ret x
  | [] => raise IndexError
  end.

(** [max(xs)] *)
Definition py_max (xs : list Q) : M Q :=
  match xs with
  | x :: rest => ret (fold_left (fun m y => if Qlt_le_dec m y then y else m) rest x)
  | [] => raise ValueError
  end.

(** [round(x)] to the nearest integer, ties to even. *)
Definition round_half_even (x : Q) : Z :=
  let f := Qfloor x in
  match (x - inject_Z f ?= 1 # 2)%Q with
  | Lt => f
  | Gt => f + 1
  | Eq => if Z.even f then f else f + 1
  end.

(** [round(x, 4)] *)
Definition round4 (x : Q) : Q :=
  (inject_Z (round_half_even (x * 10000)) / 10000)%Q.

(** [__init__], given what [_load_model] returned for the three artifacts. *)
Definition init (web db email : option Model) : IDSManager :=
  {| web_model := web; db_model := db; email_model := email;
     alerts := []; max_alerts := 100 |}.

(** *** The alert store *)

Definition _create_alert (alert_type severity attack_type payload
                          source_ip user_agent : string) (confidence : Q)
  : M Alert :=
  mgr <- get_self ;;
  now <- datetime_now ;;
  let alert :=
    {| id := Z.of_nat (List.length (alerts mgr)) + 1;
       timestamp := now;
       alert_type := alert_type;
       severity := severity;
       source_ip := source_ip;
       attack_type := attack_type;
       payload := payload;
       user_agent := user_agent;
       confidence := round4 confidence;
       status := "active" |} in
  let appended := (alerts mgr ++ [alert])%list in
  set_alerts (if (max_alerts mgr <? List.length appended)%nat
              then tl appended else appended) ;;;
  ret alert.

Definition save_alerts : M unit :=
  fun w =>
    (Ret tt,
     {| self := self w; clock := clock w;
        alerts_file := Some (alerts (self w)); calls := calls w;
        console := console w |}).

Definition clear_alerts : M unit :=
  set_alerts [] ;;; save_alerts.

(** [l[start:]] for any integer [start]. *)
Definition slice_from {A} (start : Z) (l : list A) : list A :=
  let n := Z.of_nat (List.length l) in
  let i := if start <? 0 then Z.max (n + start) 0 else Z.min start n in
  skipn (Z.to_nat i) l.

(** A filter argument is applied when it is given and not empty. *)
Definition filter_by (field : Alert -> string) (v : option string)
           (l : list Alert) : list Alert :=
  match v with
  | Some s => if truthy s then filter (fun a => String.eqb (field a) s) l else l
  | None => l
  end.

Definition get_alerts (alert_type severity : option string) (limit : Z)
  : M (list Alert) :=
  mgr <- get_self ;;
  let filtered := alerts mgr in
  let filtered := filter_by IDS.alert_type alert_type filtered in
  let filtered := filter_by IDS.severity severity filtered in
  ret (slice_from (- limit) filtered).

(** *** Signature rules

    Each function is the rule block of one analyzer, with the two (or three)
    variables it assigns threaded through. *)

Definition admin_command_tokens : list string :=
  [ "admin"; "cmd="; "whoami"; "shell"; "exec"; "system"; "config"; "test";
    "debug"; "api/admin" ].

Definition path_traversal (url : string) : bool :=
  str_in ".." url || str_in "%2e%2e" url || str_in "..%2f" url
  || str_in "%252e%252e" url.

Definition script_injection (url : string) : bool :=
  str_in "<script" url || str_in "javascript:" url || str_in "%3cscript" url
  || str_in "<iframe" url.

Definition url_sql_tokens : list string :=
  [ "' or '"; "or 1=1"; "or+1=1"; "%20or%20"; "union select"; "union+select";
    "exec("; "drop "; "drop+"; "insert "; "insert+"; "update "; "update+" ].

Definition attacker_tools : list string :=
  [ "sqlmap"; "curl"; "wget"; "nikto"; "nmap"; "burp"; "sqlmap"; "havij" ].

Definition web_signature (parsed : Parsed) : bool * string :=
  let manual_alert := false in
  let attack_reason := EmptyString in
  let url := lower (Preprocess.url parsed) in
  let '(manual_alert, attack_reason) :=
    if any_in admin_command_tokens url
    then (true, "Admin/command access detected")
    else if path_traversal url
    then (true, "Path traversal attempt")
    else if script_injection url
    then (true, "Script injection attempt")
    else if any_in url_sql_tokens url
    then (true, "SQL injection pattern detected")
    else (manual_alert, attack_reason) in
  let user_agent := lower (Preprocess.user_agent parsed) in
  let '(manual_alert, attack_reason) :=
    if any_in attacker_tools user_agent
    then (true, "Suspicious tool: " ++ Preprocess.user_agent parsed)
    else (manual_alert, attack_reason) in
  (manual_alert, attack_reason).

Definition sql_injection_patterns : list string :=
  [ "' or '1'='1"; "' or 1=1"; "' or 'a'='a"; "admin' --"; "' --";
    "'; drop"; "'; delete"; "'; exec"; "'; execute"; "union select";
    "union all"; "exec("; "execute("; "script>"; "<script" ].

Definition stacked_keywords : list string :=
  [ "delete"; "drop"; "truncate"; "insert"; "update"; "exec"; "execute" ].

Definition db_signature (query : string) : bool * string :=
  let query_lower := lower query in
  let manual_alert := false in
  let attack_reason := EmptyString in
  let '(manual_alert, attack_reason) :=
    if any_in sql_injection_patterns query_lower
    then (true, "SQL Injection detected")
    else (manual_alert, attack_reason) in
  let '(manual_alert, attack_reason) :=
    if str_in "; " query_lower
       && (1 <? List.length (split_on ";" query))%nat
    then match find (fun keyword => str_in keyword query_lower)
                    stacked_keywords with
         | Some keyword =>
             (true, "Stacked query with " ++ upper keyword ++ " detected")
         | None => (manual_alert, attack_reason)
         end
    else (manual_alert, attack_reason) in
  let '(manual_alert, attack_reason) :=
    if str_in "drop" query_lower || str_in "truncate" query_lower
    then (true, "Dangerous operation detected (DROP/TRUNCATE)")
    else (manual_alert, attack_reason) in
  (manual_alert, attack_reason).

Definition phishing_patterns : list string :=
  [ "verify"; "confirm"; "urgent"; "action+required"; "action%20required";
    "update+account"; "update%20account"; "click+here"; "click%20here";
    "login+required"; "login%20required"; "verify+identity";
    "verify%20identity"; "confirm+identity"; "confirm%20identity";
    "unusual+activity"; "unusual%20activity"; "suspend"; "expire"; "locked";
    "disable"; "compromised" ].

Definition spam_patterns : list string :=
  [ "viagra"; "casino"; "lottery"; "prize"; "click+link"; "click%20link";
    "open+attachment"; "open%20attachment"; "download"; "free+money";
    "free%20money"; "congrats"; "winner"; "claim+reward"; "claim%20reward" ].

Definition dangerous_patterns : list string :=
  [ ".exe"; ".bat"; ".cmd"; ".scr"; ".vbs"; ".js"; ".zip"; ".rar";
    "malware"; "trojan"; "ransomware"; "exploit"; "backdoor" ].

Definition suspicious_agents : list string :=
  [ "curl"; "wget"; "python"; "java"; "powershell"; "bash"; "perl"; "ruby";
    "node"; "scrapy"; "bot"; "exploit" ].

Definition email_signature (parsed : Parsed) : bool * string * string :=
  let manual_alert := false in
  let attack_reason := EmptyString in
  let severity := "MEDIUM" in
  let url := lower (Preprocess.url parsed) in
  let user_agent := lower (Preprocess.user_agent parsed) in
  let '(manual_alert, attack_reason, severity) :=
    if any_in phishing_patterns url
    then (true, "Phishing email pattern detected", "HIGH")
    else (manual_alert, attack_reason, severity) in
  let '(manual_alert, attack_reason, severity) :=
    if any_in spam_patterns url
    then (true, "Spam/Malware email pattern detected", "MEDIUM")
    else (manual_alert, attack_reason, severity) in
  let '(manual_alert, attack_reason, severity) :=
    if any_in dangerous_patterns url
    then (true, "Dangerous file/payload pattern detected", "CRITICAL")
    else (manual_alert, attack_reason, severity) in
  let '(manual_alert, attack_reason, severity) :=
    if any_in suspicious_agents user_agent
    then (true, "Suspicious email client: " ++ Preprocess.user_agent parsed,
          "HIGH")
    else (manual_alert, attack_reason, severity) in
  (manual_alert, attack_reason, severity).

(** *** Classifier scoring

    The confidence block, which the three analyzers repeat word for word. *)

Definition probe_confidence (model : Model) (features : FeatureVector) : M Q :=
  try_except
    (ds <- call EvDecision (decision_function model features) ;;
     d <- index0 ds ;;
     ret (Qabs d))
    (fun e =>
       match e with
       | AttributeError | TypeError =>
           try_except
             (proba <- call EvProba (predict_proba model features) ;;
              match proba with
              | Some rows => row <- index0 rows ;; py_max row
              | None => ret 0.5%Q
              end)
             (fun _ => ret 0.5%Q)
       | _ => raise e
       end).

(** [f"{parsed['method']} {parsed['url']}"] *)
Definition request_payload (parsed : Parsed) : string :=
  method parsed ++ " " ++ url parsed.

(** *** The three analyzers *)

(** Each analyzer opens with [if not self.<domain>_model: return None],
    before its [try]: [None] counts as false, and an artifact is asked for
    its truth value, which can raise. *)

Definition analyze_web_log (log_line : string) : M (option Alert) :=
  mgr <- get_self ;;
  match web_model mgr with
  | None => ret None
  | Some model =>
      loaded <- lift (truth model) ;;
      if negb loaded then ret None
      else
      try_except
        (parsed <- lift (parse_log_line log_line) ;;
         match parsed with
         | None => ret None
         | Some parsed =>
             tick EvSignature ;;;
             let '(manual_alert, attack_reason) := web_signature parsed in
             if manual_alert then
               alert <- _create_alert "WEB_ANOMALY" "HIGH" attack_reason
                          (request_payload parsed) (ip parsed)
                          (Preprocess.user_agent parsed) 0.95 ;;
               ret (Some alert)
             else
               features <- call EvFeatures (Ret (extract_features parsed)) ;;
               predictions <- call EvPredict (predict model features) ;;
               prediction <- index0 predictions ;;
               confidence <- probe_confidence model features ;;
               if prediction =? -1 then
                 alert <- _create_alert "WEB_ANOMALY" "HIGH"
                            "Web Layer Attack (ML Detection)"
                            (request_payload parsed) (ip parsed)
                            (Preprocess.user_agent parsed) confidence ;;
                 ret (Some alert)
               else ret None
         end)
        (fun e => print (" Error analyzing web log: " ++ str_exn e) ;;;
                  ret None)
  end.

Definition analyze_db_log (log_line : string) : M (option Alert) :=
  mgr <- get_self ;;
  match db_model mgr with
  | None => ret None
  | Some model =>
      loaded <- lift (truth model) ;;
      if negb loaded then ret None
      else
      try_except
        (let query := parse_db_log log_line in
         if negb (truthy query) then ret None
         else
           tick EvSignature ;;;
           let '(manual_alert, attack_reason) := db_signature query in
           if manual_alert then
             alert <- _create_alert "DB_ANOMALY" "CRITICAL" attack_reason
                        (take 200 query) "Unknown" "Unknown" 0.95 ;;
             ret (Some alert)
           else
             features <- call EvFeatures (Ret (extract_sql_features query)) ;;
             predictions <- call EvPredict (predict model features) ;;
             prediction <- index0 predictions ;;
             confidence <- probe_confidence model features ;;
             if prediction =? -1 then
               alert <- _create_alert "DB_ANOMALY" "CRITICAL"
                          "SQL Injection/Database Attack (ML Detection)"
                          (take 200 query) "Unknown" "Unknown" confidence ;;
               ret (Some alert)
             else ret None)
        (fun e => print (" Error analyzing DB log: " ++ str_exn e) ;;;
                  ret None)
  end.

Definition analyze_email_log (log_line : string) : M (option Alert) :=
  mgr <- get_self ;;
  match email_model mgr with
  | None => ret None
  | Some model =>
      loaded <- lift (truth model) ;;
      if negb loaded then ret None
      else
      try_except
        (parsed <- lift (parse_log_line log_line) ;;
         match parsed with
         | None => ret None
         | Some parsed =>
             tick EvSignature ;;;
             let '(manual_alert, attack_reason, severity) :=
               email_signature parsed in
             if manual_alert then
               alert <- _create_alert "EMAIL_ANOMALY" severity attack_reason
                          (request_payload parsed) (ip parsed) "Unknown"
                          0.90 ;;
               ret (Some alert)
             else
               features <- call EvFeatures (Ret (extract_features parsed)) ;;
               predictions <- call EvPredict (predict model features) ;;
               prediction <- index0 predictions ;;
               confidence <- probe_confidence model features ;;
               if prediction =? -1 then
                 alert <- _create_alert "EMAIL_ANOMALY" "MEDIUM"
                            "Email Service Attack (ML Detection)"
                            (request_payload parsed) (ip parsed) "Unknown"
                            confidence ;;
                 ret (Some alert)
               else ret None
         end)
        (fun e => print (" Error analyzing email log: " ++ str_exn e) ;;;
                  ret None)
  end.

(** *** Domains

    The three analyzers side by side, as the routes select them by tag. *)

Inductive Domain : Type := Web | Db | Email.

Definition model_of (d : Domain) (mgr : IDSManager) : option Model :=
  match d with
  | Web => web_model mgr
  | Db => db_model mgr
  | Email => email_model mgr
  end.

Definition analyze (d : Domain) : string -> M (option Alert) :=
  match d with
  | Web => analyze_web_log
  | Db => analyze_db_log
  | Email => analyze_email_log
  end.

(** *** Runs of insertions

    The arguments of one [_create_alert] call, and a run of such calls in
    the order given, returning the alerts as they were created. *)

Record AlertArgs : Type := {
  arg_alert_type : string;
  arg_severity : string;
  arg_attack_type : string;
  arg_payload : string;
  arg_source_ip : string;
  arg_user_agent : string;
  arg_confidence : Q
}.

Definition create (x : AlertArgs) : M Alert :=
  _create_alert (arg_alert_type x) (arg_severity x) (arg_attack_type x)
                (arg_payload x) (arg_source_ip x) (arg_user_agent x)
                (arg_confidence x).

Fixpoint create_alerts (xs : list AlertArgs) : M (list Alert) :=
  match xs with
  | [] => ret []
  | x :: rest =>
      a <- create x ;;
      l <- create_alerts rest ;;
      ret (a :: l)
  end.

(** The arguments an alert was created from, up to the rounding of the
    confidence. *)
Definition args_of (a : Alert) : AlertArgs :=
  {| arg_alert_type := alert_type a;
     arg_severity := severity a;
     arg_attack_type := attack_type a;
     arg_payload := payload a;
     arg_source_ip := source_ip a;
     arg_user_agent := user_agent a;
     arg_confidence := confidence a |}.

Definition rounded (x : AlertArgs) : AlertArgs :=
  {| arg_alert_type := arg_alert_type x;
     arg_severity := arg_severity x;
     arg_attack_type := arg_attack_type x;
     arg_payload := arg_payload x;
     arg_source_ip := arg_source_ip x;
     arg_user_agent := arg_user_agent x;
     arg_confidence := round4 (arg_confidence x) |}.

(** A manager as [__init__] leaves it, in fresh surroundings. *)
Definition fresh (web db email : option Model) : World :=
  {| self := init web db email; clock := 0%nat; alerts_file := None;
     calls := []; console := fun _ => true |}.

End IDS.

(* ------------------------------------------------------------------ *)
(** ** The IDS routes of [enhanced_api.py]

    The global [ids_manager] is [None] until the service has built the
    manager; afterwards it is the manager with its surroundings.  A handler
    takes the decoded request and returns the response with the new global.
    [log_deployment] appends its message to the deployment log and prints
    it; the log is read by no route below and is not kept, the print is. *)

Module Api.
Import PyStr IDS.
Local Open Scope ids_scope.

Inductive Body : Type :=
| Error (error : string)
| Analysis (alert : option Alert) (detected : bool)
| BulkAnalysis (total_analyzed alerts_detected : Z) (alerts : list Alert)
| AlertList (alerts : list Alert) (total : Z)
            (models_loaded : bool * bool * bool).

(** Body and HTTP status code. *)
Definition Response : Type := Body * Z.

(** The JSON object posted to [/api/ids/analyze]. *)
Record AnalyzeRequest : Type := {
  log_line : option string;
  log_type : option string
}.

(** The JSON object posted to [/api/ids/bulk-analyze]. *)
Record BulkRequest : Type := {
  logs : option (list string);
  bulk_type : option string
}.

(** The query string of [/api/ids/alerts]; [limit] is [None] when the
    parameter is absent or is not an integer. *)
Record AlertsQuery : Type := {
  q_type : option string;
  q_severity : option string;
  q_limit : option Z
}.

(** [d.get(key, default)] *)
Definition get {A} (v : option A) (default : A) : A :=
  match v with
  | Some x => x
  | None => default
  end.

Definition log_deployment (message : string) : M unit := print message.

Definition is_some {A} (o : option A) : bool :=
  match o with
  | Some _ => true
  | None => false
  end.

Definition models_loaded_of (mgr : IDSManager) : bool * bool * bool :=
  (is_some (web_model mgr), is_some (db_model mgr), is_some (email_model mgr)).

Definition analyze_log (ids_manager : option World) (data : AnalyzeRequest)
  : Response * option World :=
  match ids_manager with
  | None => ((Error "IDS not initialized", 500), None)
  | Some w =>
      let log_line := get (log_line data) EmptyString in
      let log_type := get (log_type data) "web" in
      if negb (truthy log_line) then
        ((Error "log_line is required", 400), Some w)
      else
        let run (analyzer : string -> M (option Alert)) :=
          match (alert <- analyzer log_line ;;
                 (match alert with
                  | Some a =>
                      save_alerts ;;;
                      log_deployment
                        (" " ++ alert_type a ++ ": " ++ attack_type a)
                  | None => ret tt
                  end) ;;;
                 ret alert) w with
          | (Ret alert, w') => ((Analysis alert (is_some alert), 200), Some w')
          | (Raise e, w') => ((Error (str_exn e), 500), Some w')
          end in
        if String.eqb log_type "web" then run analyze_web_log
        else if String.eqb log_type "db" then run analyze_db_log
        else if String.eqb log_type "email" then run analyze_email_log
        else ((Error ("Unknown log type: " ++ log_type), 400), Some w)
  end.

(** The body of the [for] loop of [bulk_analyze_logs], over what is left of
    [logs]. *)
Fixpoint bulk_loop (log_type : string) (logs : list string)
         (detected_alerts : list Alert) : M (list Alert) :=
  match logs with
  | [] => ret detected_alerts
  | log_line :: rest =>
      alert <- (if String.eqb log_type "web" then analyze_web_log log_line
                else if String.eqb log_type "db" then analyze_db_log log_line
                else if String.eqb log_type "email"
                     then analyze_email_log log_line
                else ret None) ;;
      bulk_loop log_type rest
                (match alert with
                 | Some a => (detected_alerts ++ [a])%list
                 | None => detected_alerts
                 end)
  end.

Definition bulk_analyze_logs (ids_manager : option World) (data : BulkRequest)
  : Response * option World :=
  match ids_manager with
  | None => ((Error "IDS not initialized", 500), None)
  | Some w =>
      let logs := get (logs data) [] in
      let log_type := get (bulk_type data) "web" in
      match logs with
      | [] => ((Error "logs array is required", 400), Some w)
      | _ :: _ =>
          match (detected_alerts <- bulk_loop log_type logs [] ;;
                 (match detected_alerts with
                  | [] => ret tt
                  | _ :: _ => save_alerts
                  end) ;;;
                 log_deployment
                   (" Analyzed " ++ str_nat (List.length logs)
                    ++ " logs, detected "
                    ++ str_nat (List.length detected_alerts)
                    ++ " anomalies") ;;;
                 ret detected_alerts) w with
          | (Ret detected_alerts, w') =>
              ((BulkAnalysis (Z.of_nat (List.length logs))
                             (Z.of_nat (List.length detected_alerts))
                             detected_alerts, 200), Some w')
          | (Raise e, w') => ((Error (str_exn e), 500), Some w')
          end
      end
  end.

Definition get_alerts (ids_manager : option World) (args : AlertsQuery)
  : Response * option World :=
  match ids_manager with
  | None => ((Error "IDS not initialized", 500), None)
  | Some w =>
      let alert_type := q_type args in
      let severity := q_severity args in
      let limit := get (q_limit args) 50 in
      match IDS.get_alerts alert_type severity limit w with
      | (Ret alerts, w') =>
          ((AlertList alerts (Z.of_nat (List.length alerts))
                      (models_loaded_of (self w')), 200), Some w')
      | (Raise e, w') => ((Error (str_exn e), 500), Some w')
      end
  end.

End Api.

(* ------------------------------------------------------------------ *)
(** ** Vocabulary for stating the properties *)

Module Rules.
Import PyStr Preprocess IDS.

(** Whether a line gives a record (a query, for the db domain) for the rules
    to be tried on. *)
Definition parses (d : Domain) (line : string) : bool :=
  match d with
  | Web | Email =>
      match parse_log_line line with
      | Ret (Some _) => true
      | _ => false
      end
  | Db => truthy (parse_db_log line)
  end.

(** Whether the rule block of the domain sets [manual_alert]. *)
Definition signature_fires (d : Domain) (line : string) : bool :=
  match d with
  | Web =>
      match parse_log_line line with
      | Ret (Some parsed) => fst (web_signature parsed)
      | _ => false
      end
  | Db => fst (db_signature (parse_db_log line))
  | Email =>
      match parse_log_line line with
      | Ret (Some parsed) => fst (fst (email_signature parsed))
      | _ => false
      end
  end.

(** The row the classifier of the domain is given. *)
Definition features (d : Domain) (line : string) : FeatureVector :=
  match d with
  | Web | Email =>
      match parse_log_line line with
      | Ret (Some parsed) => extract_features parsed
      | _ => []
      end
  | Db => extract_sql_features (parse_db_log line)
  end.

(** Whether the guard of the analyzer of a domain answers: no artifact is
    loaded, or the one loaded has a truth value. *)
Definition guard_answers (d : Domain) (mgr : IDSManager) : bool :=
  match model_of d mgr with
  | Some m => match truth m with Ret _ => true | Raise _ => false end
  | None => true
  end.

(** A rule category on a given record: whether it matches, and the attack
    type and severity it assigns. *)
Record Category : Type := {
  fires : bool;
  reason : string;
  level : string
}.

Definition first_match (cs : list Category) : option Category :=
  find fires cs.

Definition last_match (cs : list Category) : option Category :=
  find fires (rev cs).

Definition web_url_categories (p : Parsed) : list Category :=
  let url := lower (Preprocess.url p) in
  [ {| fires := any_in admin_command_tokens url;
       reason := "Admin/command access detected"; level := "HIGH" |};
    {| fires := path_traversal url;
       reason := "Path traversal attempt"; level := "HIGH" |};
    {| fires := script_injection url;
       reason := "Script injection attempt"; level := "HIGH" |};
    {| fires := any_in url_sql_tokens url;
       reason := "SQL injection pattern detected"; level := "HIGH" |} ].

Definition web_tool_category (p : Parsed) : Category :=
  {| fires := any_in attacker_tools (lower (Preprocess.user_agent p));
     reason := "Suspicious tool: " ++ Preprocess.user_agent p;
     level := "HIGH" |}.

Definition email_categories (p : Parsed) : list Category :=
  let url := lower (Preprocess.url p) in
  [ {| fires := any_in phishing_patterns url;
       reason := "Phishing email pattern detected"; level := "HIGH" |};
    {| fires := any_in spam_patterns url;
       reason := "Spam/Malware email pattern detected"; level := "MEDIUM" |};
    {| fires := any_in dangerous_patterns url;
       reason := "Dangerous file/payload pattern detected";
       level := "CRITICAL" |};
    {| fires := any_in suspicious_agents (lower (Preprocess.user_agent p));
       reason := "Suspicious email client: " ++ Preprocess.user_agent p;
       level := "HIGH" |} ].

Definition db_categories (query : string) : list Category :=
  let query_lower := lower query in
  let keyword := find (fun k => str_in k query_lower) stacked_keywords in
  [ {| fires := any_in sql_injection_patterns query_lower;
       reason := "SQL Injection detected"; level := "CRITICAL" |};
    {| fires := str_in "; " query_lower
                && (1 <? List.length (split_on ";" query))%nat
                && match keyword with Some _ => true | None => false end;
       reason := "Stacked query with "
                 ++ upper (match keyword with
                           | Some k => k
                           | None => EmptyString
                           end)
                 ++ " detected";
       level := "CRITICAL" |};
    {| fires := str_in "drop" query_lower || str_in "truncate" query_lower;
       reason := "Dangerous operation detected (DROP/TRUNCATE)";
       level := "CRITICAL" |} ].

Definition opt_list {A} (o : option A) : list A :=
  match o with
  | Some x => [x]
  | None => []
  end.

(** The category that decides the alert: the last matching one in the order
    of evaluation, where the four URL categories of the web domain count as
    one stage whose first matching member stands for it. *)
Definition deciding (d : Domain) (line : string) : option Category :=
  match d with
  | Web =>
      match parse_log_line line with
      | Ret (Some p) =>
          last_match (opt_list (first_match (web_url_categories p))
                      ++ [web_tool_category p])%list
      | _ => None
      end
  | Db =>
      let query := parse_db_log line in
      if truthy query then last_match (db_categories query) else None
  | Email =>
      match parse_log_line line with
      | Ret (Some p) => last_match (email_categories p)
      | _ => None
      end
  end.

(** An artifact whose raw scores are already normalized: decision values of
    absolute value at most one, class probabilities between zero and one. *)
Definition scores_normalized (m : Model) : Prop :=
  (forall f ds d,
      decision_function m f = Ret ds -> hd_error ds = Some d ->
      (Qabs d <= 1)%Q)
  /\ (forall f rows row x,
         predict_proba m f = Ret (Some rows) -> hd_error rows = Some row ->
         In x row -> (0 <= x <= 1)%Q).


(** The surroundings after the stages [es] have been entered in turn. *)
Definition entered (es : list Event) (w : World) : World :=
  fold_left (fun w e => snd (tick e w)) es w.

(** The last [n] elements of a list. *)
Definition lastn {A} (n : nat) (l : list A) : list A :=
  skipn (List.length l - n) l.

(** Whether a value is the one a listing is asked for: a filter that is
    absent or empty asks for nothing. *)
Definition asked_for (filter : option string) (value : string) : bool :=
  match filter with
  | None | Some EmptyString => true
  | Some wanted => String.eqb value wanted
  end.

(** The alerts of a list that have the type and the severity asked for, in
    the order of the list. *)
Definition matching (alert_type severity : option string) (l : list Alert)
  : list Alert :=
  filter (fun a => asked_for alert_type (IDS.alert_type a)
                   && asked_for severity (IDS.severity a)) l.

(** A tag no analyzer is selected for. *)
Definition unsupported (tag : string) : Prop :=
  tag <> "web" /\ tag <> "db" /\ tag <> "email".

End Rules.

(* ------------------------------------------------------------------ *)
(** ** Concrete artifacts, lines and stores *)

Module Samples.
Import PyStr Preprocess IDS.

(** Flags every row, and has neither scoring method. *)
Definition scoreless : Model :=
  {| truth := Ret true;
     fitted_predict := fun _ => Ret [-1];
     fitted_decision_function := fun _ => Raise AttributeError;
     fitted_predict_proba := fun _ => Raise AttributeError |}.

(** Flags every row, with a decision value of -2. *)
Definition far_outlier : Model :=
  {| truth := Ret true;
     fitted_predict := fun _ => Ret [-1];
     fitted_decision_function := fun _ => Ret [(-2)%Q];
     fitted_predict_proba := fun _ => Raise AttributeError |}.

(** Flags every row, with a decision value of -0.25. *)
Definition near_outlier : Model :=
  {| truth := Ret true;
     fitted_predict := fun _ => Ret [-1];
     fitted_decision_function := fun _ => Ret [(-0.25)%Q];
     fitted_predict_proba := fun _ => Ret (Some [[0.25%Q; 0.75%Q]]) |}.

(** Flags no row. *)
Definition inlier : Model :=
  {| truth := Ret true;
     fitted_predict := fun _ => Ret [1];
     fitted_decision_function := fun _ => Ret [0.1%Q];
     fitted_predict_proba := fun _ => Raise AttributeError |}.

Definition ts : string := "27/Nov/2024:10:30:10 +0000".

Definition admin_by_sqlmap : string :=
  access_line "10.0.0.9" ts "GET /admin HTTP/1.1" "200" "512" "-"
              "sqlmap/1.0".

Definition admin_panel : string :=
  access_line "10.0.0.1" ts "GET /admin HTTP/1.1" "200" "2048" "-"
              "Mozilla/5.0".

Definition homepage : string :=
  access_line "192.168.1.100" ts "GET /index.html HTTP/1.1" "200" "5678" "-"
              "Mozilla/5.0".

Definition malware_by_curl : string :=
  access_line "10.0.0.8" ts "GET /verify/malware.exe HTTP/1.1" "200" "1024"
              "-" "curl/7.64.1".

Definition etc_passwd : string :=
  access_line "10.0.0.3" "27/Nov/2024:10:30:04 +0000"
              "GET /../../etc/passwd HTTP/1.1" "403" "256" "-" "Mozilla/5.0".


Definition drop_users : string := "SELECT * FROM users; DROP TABLE users;--".

Definition benign_query : string := "SELECT * FROM users WHERE id=1".

Definition sample_args : AlertArgs :=
  {| arg_alert_type := "WEB_ANOMALY"; arg_severity := "HIGH";
     arg_attack_type := "Path traversal attempt";
     arg_payload := "GET /../../etc/passwd"; arg_source_ip := "10.0.0.3";
     arg_user_agent := "Mozilla/5.0"; arg_confidence := 0.95%Q |}.

(** All three artifacts loaded. *)
Definition loaded (m : Model) : World := fresh (Some m) (Some m) (Some m).

(** No artifact loaded. *)
Definition degraded : World := fresh None None None.

(** The world after the insertions [xs]. *)
Definition after (xs : list AlertArgs) (w : World) : World :=
  snd (create_alerts xs w).

End Samples.

(* ------------------------------------------------------------------ *)
(** ** [cms/ids_manager.py], continued: statistics and simulations *)

Module Manager.
Import PyStr Preprocess IDS.
Local Open Scope ids_scope.

(** A [dict] with string keys, as the list of its items in insertion
    order. *)
Definition dict (V : Type) : Type := list (string * V).

(** [d.get(k, default)] *)
Fixpoint dict_get {V} (d : dict V) (k : string) (default : V) : V :=
  match d with
  | [] => default
  | (k', v) :: rest => if String.eqb k' k then v else dict_get rest k default
  end.

(** [d[k] = v]: an existing key keeps its place, a new one goes last. *)
Fixpoint dict_set {V} (k : string) (v : V) (d : dict V) : dict V :=
  match d with
  | [] => [(k, v)]
  | (k', v') :: rest =>
      if String.eqb k' k then (k', v) :: rest
      else (k', v') :: dict_set k v rest
  end.

(** [l[-1] if l else None] *)
Definition last_or_none {A} (l : list A) : option A :=
  match rev l with
  | x :: _ => Some x
  | [] => None
  end.

(** The dictionary [get_statistics] returns. *)
Record Statistics : Type := {
  total_alerts : Z;
  alert_types : dict Z;
  severity_distribution : dict Z;
  models_loaded : bool * bool * bool;
  last_alert : option Alert
}.

(** One turn of the counting loop of [get_statistics]. *)
Definition count_alert (acc : dict Z * dict Z) (alert : Alert)
  : dict Z * dict Z :=
  let '(alert_types, severities) := acc in
  (dict_set (alert_type alert)
            (dict_get alert_types (alert_type alert) 0 + 1) alert_types,
   dict_set (severity alert)
            (dict_get severities (severity alert) 0 + 1) severities).

Definition get_statistics : M Statistics :=
  mgr <- get_self ;;
  let total_alerts := Z.of_nat (List.length (alerts mgr)) in
  let '(alert_types, severities) :=
    fold_left count_alert (alerts mgr) ([], []) in
  ret {| total_alerts := total_alerts;
         alert_types := alert_types;
         severity_distribution := severities;
         models_loaded :=
           (match web_model mgr with Some _ => true | None => false end,
            match db_model mgr with Some _ => true | None => false end,
            match email_model mgr with Some _ => true | None => false end);
         last_alert := last_or_none (alerts mgr) |}.

(** A simulated attack: a query or URL, or a login form. *)
Inductive Payload : Type :=
| Text (s : string)
| Form (method url user pass : string).

(** [generate_attack_simulation]; [target] is not looked at. *)
Definition generate_attack_simulation (attack_type target : string)
  : list Payload :=
  let simulations : dict (list Payload) :=
    [ ("sql_injection",
       [ Text "SELECT * FROM users WHERE username='admin' OR '1'='1'";
         Text "SELECT * FROM users; DROP TABLE users;--";
         Text "SELECT * FROM users WHERE id=1 UNION SELECT NULL,NULL,NULL";
         Text "UPDATE users SET password='hacked' WHERE id=1";
         Text "DELETE FROM users WHERE username LIKE 'a%'" ]);
      ("xss",
       [ Text "/search?q=<script>alert('xss')</script>";
         Text "/profile?name=<img src=x onerror=alert('xss')>";
         Text "/?redirect=javascript:alert('xss')";
         Text "/api/comment?text=<svg onload=alert('xss')>" ]);
      ("brute_force",
       [ Form "POST" "/login" "admin" "123456";
         Form "POST" "/login" "admin" "password";
         Form "POST" "/login" "root" "root" ]);
      ("path_traversal",
       [ Text "/files?path=../../etc/passwd";
         Text "/download?file=../../../../windows/system32/config/sam";
         Text "/api/config?id=../../secrets.env" ]) ] in
  dict_get simulations attack_type [].

(** An analyzer on a simulated attack.  A login form is not a string: past
    the guard, the parser raises on it inside the [try] of the analyzer,
    which then returns [None]. *)
Definition analyze_payload (d : Domain) (p : Payload) : M (option Alert) :=
  match p with
  | Text s => analyze d s
  | Form _ _ _ _ =>
      mgr <- get_self ;;
      match model_of d mgr with
      | None => ret None
      | Some model =>
          loaded <- lift (truth model) ;;
          if negb loaded then ret None
          else
            try_except
              (raise (match d with Db => AttributeError | _ => TypeError end))
              (fun e =>
                 print (match d with
                        | Web => " Error analyzing web log: "
                        | Db => " Error analyzing DB log: "
                        | Email => " Error analyzing email log: "
                        end ++ str_exn e) ;;;
                 ret None)
      end
  end.

End Manager.

(* ------------------------------------------------------------------ *)
(** ** [models/preprocess.py], continued: loading a log file *)

Module Loader.
Import PyStr Preprocess.

(** The [for] loop over the lines of the file, over what is left of them.
    Nothing around it handles what the parser raises. *)
Fixpoint read_lines (lines : list string) (data : list Parsed)
  : outcome (list Parsed) :=
  match lines with
  | [] => Ret data
  | line :: rest =>
      match parse_log_line (strip line) with
      | Raise e => Raise e
      | Ret (Some parsed) => read_lines rest (data ++ [parsed])%list
      | Ret None => read_lines rest data
      end
  end.

(** [load_and_process_logs]: the file is [None] when it does not exist,
    else its lines; the result is the feature matrix, one row per line
    that parses, or [None].  The function opens by printing a message that
    begins with a pictograph: [pictographs] tells whether the encoding of
    the standard output has them, and an output that has them takes the
    later messages as well. *)
Definition load_and_process_logs (pictographs : bool)
           (file : option (list string))
  : outcome (option (list FeatureVector)) :=
  if negb pictographs then Raise UnicodeEncodeError
  else
    match file with
    | None => Ret None
    | Some lines =>
        match read_lines lines [] with
        | Raise e => Raise e
        | Ret [] => Ret None
        | Ret data => Ret (Some (map extract_features data))
        end
    end.

End Loader.

(* ------------------------------------------------------------------ *)
(** ** [models/log_collector.py]: the canonical web log line *)

Module Collector.
Import PyStr Re Preprocess.

(** [NGINX_PATTERN] is the pattern of [LOG_PATTERN], character for
    character. *)
Definition NGINX_PATTERN : regex := LOG_PATTERN.

(** [s.replace(c, '')] for a one-character [c]. *)
Fixpoint remove_char (c : ascii) (s : string) : string :=
  match s with
  | EmptyString => EmptyString
  | String a s' =>
      if Ascii.eqb a c then remove_char c s' else String a (remove_char c s')
  end.

Definition newline : string := String "010"%char EmptyString.

Definition format_to_kagggle_style (raw_line : string) : option string :=
  match rmatch NGINX_PATTERN raw_line with
  | Some cs =>
      let extra := grp 10 cs in
      let extra :=
        if truthy extra then remove_char "034"%char (strip extra) else "-" in
      let extra := if truthy extra then extra else "-" in
      Some (grp 1 cs ++ " " ++ grp 2 cs ++ " " ++ grp 3 cs
            ++ " [" ++ grp 4 cs ++ "] "
            ++ dquote ++ grp 5 cs ++ dquote ++ " "
            ++ grp 6 cs ++ " " ++ grp 7 cs ++ " "
            ++ dquote ++ grp 8 cs ++ dquote ++ " "
            ++ dquote ++ grp 9 cs ++ dquote ++ " "
            ++ dquote ++ extra ++ dquote ++ newline)
  | None => None
  end.

End Collector.

(* ------------------------------------------------------------------ *)
(** ** [models/ids_monitor.py] and [models/db_ids_monitor.py] *)

Module Monitors.
Import PyStr Preprocess IDS.

(** Before it enters its loop a monitor tests the truth value of its
    artifact and prints a banner with pictographs: one that has reached the
    loop has an artifact that counts as true and writes to an output that
    takes every character, and the prints of the loop are left out. *)

(** The alert dictionary the two stand-alone monitors write.  The timestamp
    is the reading of the wall clock, kept as the index of the reading. *)
Record MonitorAlert : Type := {
  m_timestamp : nat;
  m_severity : string;
  m_source_ip : string;
  m_attack_type : string;
  m_payload : string;
  m_user_agent : string
}.

(** [data/alerts.json] as the monitors see it: absent, present but not
    readable as JSON, or holding a list of alerts. *)
Inductive AlertsFile : Type :=
| Missing
| Unreadable
| Stored (alerts : list MonitorAlert).

(** [save_alert], the same in both monitors. *)
Definition save_alert (alert_data : MonitorAlert) (file : AlertsFile)
  : AlertsFile :=
  let alerts :=
    match file with
    | Stored l => l
    | Missing | Unreadable => []
    end in
  let alerts := (alerts ++ [alert_data])%list in
  Stored (slice_from (-50) alerts).

(** What a monitor holds between two lines: the alerts file and the clock. *)
Record MonitorState : Type := {
  file : AlertsFile;
  now : nat
}.

(** One turn of the loop of [monitor_logs] on a line read from the web log;
    an exception of the parser or of the classifier is not handled and ends
    the loop. *)
Definition web_monitor_step (clf : Model) (line : string) (st : MonitorState)
  : outcome MonitorState :=
  match parse_log_line (strip line) with
  | Raise e => Raise e
  | Ret (Some parsed_data) =>
      match predict clf (extract_features parsed_data) with
      | Ret (prediction :: _) =>
          if prediction =? -1 then
            let alert :=
              {| m_timestamp := now st;
                 m_severity := "CRITICAL";
                 m_source_ip := ip parsed_data;
                 m_attack_type := "Anomaly Detected";
                 m_payload := method parsed_data ++ " " ++ url parsed_data;
                 m_user_agent := Preprocess.user_agent parsed_data |} in
            Ret {| file := save_alert alert (file st); now := S (now st) |}
          else Ret st
      | Ret [] => Raise IndexError
      | Raise e => Raise e
      end
  | Ret None => Ret st
  end.

(** One turn of the loop of [monitor_db_logs]. *)
Definition db_monitor_step (clf : Model) (line : string) (st : MonitorState)
  : outcome MonitorState :=
  let query := parse_db_log (strip line) in
  if negb (truthy query) || (len query <? 5) then Ret st
  else
    match predict clf (extract_sql_features query) with
    | Ret (prediction :: _) =>
        if prediction =? 1 then
          let alert :=
            {| m_timestamp := now st;
               m_severity := "CRITICAL";
               m_source_ip := "Internal DB";
               m_attack_type := "SQL Injection Detected";
               m_payload := take 150 query;
               m_user_agent := "N/A" |} in
          Ret {| file := save_alert alert (file st); now := S (now st) |}
        else Ret st
    | Ret [] => Raise IndexError
    | Raise e => Raise e
    end.

(** The loop over the lines that arrive, until one turn raises. *)
Fixpoint monitor_run (step : string -> MonitorState -> outcome MonitorState)
         (lines : list string) (st : MonitorState) : outcome MonitorState :=
  match lines with
  | [] => Ret st
  | line :: rest =>
      match step line st with
      | Ret st' => monitor_run step rest st'
      | Raise e => Raise e
      end
  end.

End Monitors.

(* ------------------------------------------------------------------ *)
(** ** [enhanced_api.py], continued: status, clearing and simulations *)

Module Routes.
Import PyStr Preprocess IDS Manager.
Local Open Scope ids_scope.

(** The JSON bodies of the routes below. *)
Inductive Reply : Type :=
| Failure (error : string)
| Status (status : string) (statistics : Statistics)
| Message (status : option string) (message : string)
| Simulations (attack_type target : string) (simulations : list Payload)
              (count : Z)
| Attacks (attack_type target_type : string)
          (attacks_generated alerts_detected : Z) (alerts : list Alert)
          (payloads : list Payload).

(** The JSON object posted to [/api/ids/test-attack]. *)
Record TestAttackRequest : Type := {
  ta_attack_type : option string;
  ta_target : option string
}.

(** The JSON object posted to [/api/ids/generate-attacks]. *)
Record AttacksRequest : Type := {
  ga_attack_type : option string;
  ga_target_type : option string
}.

(** Running a method of the manager under the [try] of a route. *)
Definition respond {A} (ids_manager : option World) (c : M A)
           (ok : A -> World -> Reply) : (Reply * Z) * option World :=
  match ids_manager with
  | None => ((Failure "IDS not initialized", 500), None)
  | Some w =>
      match c w with
      | (Ret a, w') => ((ok a w', 200), Some w')
      | (Raise e, w') => ((Failure (str_exn e), 500), Some w')
      end
  end.

Definition get_ids_status (ids_manager : option World)
  : (Reply * Z) * option World :=
  respond ids_manager get_statistics (fun stats _ => Status "active" stats).

Definition clear_alerts (ids_manager : option World)
  : (Reply * Z) * option World :=
  respond ids_manager
          (IDS.clear_alerts ;;; Api.log_deployment " IDS alerts cleared")
          (fun _ _ => Message None "Alerts cleared successfully").

Definition clear_all_alerts (ids_manager : option World)
  : (Reply * Z) * option World :=
  respond ids_manager
          (IDS.clear_alerts ;;; Api.log_deployment " Cleared all IDS alerts")
          (fun _ _ => Message (Some "success") "All alerts cleared").

Definition test_attack_simulation (ids_manager : option World)
           (data : TestAttackRequest) : (Reply * Z) * option World :=
  let attack_type := Api.get (ta_attack_type data) "sql_injection" in
  let target := Api.get (ta_target data) "database" in
  respond ids_manager
          (let simulations := generate_attack_simulation attack_type target in
           Api.log_deployment
             (" Generated " ++ str_nat (List.length simulations)
              ++ " attack simulations for " ++ attack_type) ;;;
           ret simulations)
          (fun simulations _ =>
             Simulations attack_type target simulations
                         (Z.of_nat (List.length simulations))).

(** A [for] loop that analyzes each attack and collects the alerts. *)
Fixpoint analyze_each (analyzer : Payload -> M (option Alert))
         (attacks : list Payload) (detected_alerts : list Alert)
  : M (list Alert) :=
  match attacks with
  | [] => ret detected_alerts
  | attack :: rest =>
      alert <- analyzer attack ;;
      analyze_each analyzer rest
                   (match alert with
                    | Some a => (detected_alerts ++ [a])%list
                    | None => detected_alerts
                    end)
  end.

Definition phishing_emails : list string :=
  [ access_line "10.0.0.1" "27/Nov/2024:10:30:01 +0000"
                "GET /verify_account HTTP/1.1" "200" "2048" "-" "Mozilla/5.0";
    access_line "10.0.0.2" "27/Nov/2024:10:30:02 +0000"
                "GET /confirm_identity HTTP/1.1" "200" "1536" "-"
                "Mozilla/5.0";
    access_line "10.0.0.3" "27/Nov/2024:10:30:03 +0000"
                "GET /?urgent=action+required HTTP/1.1" "200" "1024" "-"
                "Mozilla/5.0";
    access_line "10.0.0.4" "27/Nov/2024:10:30:04 +0000"
                "GET /download/malware.exe HTTP/1.1" "200" "8192" "-"
                "Mozilla/5.0";
    access_line "10.0.0.5" "27/Nov/2024:10:30:05 +0000"
                "GET /ransomware.zip HTTP/1.1" "200" "4096" "-"
                "Mozilla/5.0" ].

Definition generate_attacks_endpoint (ids_manager : option World)
           (data : AttacksRequest) : (Reply * Z) * option World :=
  let attack_type := Api.get (ga_attack_type data) "sql_injection" in
  let target_type := Api.get (ga_target_type data) "db" in
  respond ids_manager
          (result <-
             (if String.eqb target_type "email"
                 && String.eqb attack_type "phishing"
              then
                detected_alerts <-
                  analyze_each (analyze_payload Email)
                               (map Text phishing_emails) [] ;;
                ret (detected_alerts, map Text phishing_emails)
              else
                let attacks :=
                  generate_attack_simulation attack_type target_type in
                detected_alerts <-
                  analyze_each (if String.eqb target_type "db"
                                then analyze_payload Db
                                else analyze_payload Web)
                               (firstn 3 attacks) [] ;;
                ret (detected_alerts, attacks)) ;;
           (match fst result with
            | [] => ret tt
            | _ :: _ => save_alerts
            end) ;;;
           Api.log_deployment
             (" Generated " ++ str_nat (List.length (snd result)) ++ " "
              ++ attack_type ++ " attacks (" ++ target_type ++ "), detected "
              ++ str_nat (List.length (fst result)) ++ " anomalies") ;;;
           ret result)
          (fun result _ =>
             let '(detected_alerts, attacks) := result in
             Attacks attack_type target_type
                     (Z.of_nat (List.length attacks))
                     (Z.of_nat (List.length detected_alerts))
                     detected_alerts (firstn 3 attacks)).

End Routes.

(* ------------------------------------------------------------------ *)
(** ** Vocabulary for the further properties *)

Module Notions.
Import PyStr Preprocess IDS Rules Manager.

(** What a signature hit on a line passes to [_create_alert]. *)
Definition signature_args (d : Domain) (line : string) : option AlertArgs :=
  match d with
  | Web =>
      match parse_log_line line with
      | Ret (Some p) =>
          let '(fired, attack_reason) := web_signature p in
          if fired then
            Some {| arg_alert_type := "WEB_ANOMALY"; arg_severity := "HIGH";
                    arg_attack_type := attack_reason;
                    arg_payload := request_payload p;
                    arg_source_ip := ip p;
                    arg_user_agent := Preprocess.user_agent p;
                    arg_confidence := 0.95%Q |}
          else None
      | _ => None
      end
  | Db =>
      let query := parse_db_log line in
      if truthy query then
        let '(fired, attack_reason) := db_signature query in
        if fired then
          Some {| arg_alert_type := "DB_ANOMALY"; arg_severity := "CRITICAL";
                  arg_attack_type := attack_reason;
                  arg_payload := take 200 query;
                  arg_source_ip := "Unknown";
                  arg_user_agent := "Unknown";
                  arg_confidence := 0.95%Q |}
        else None
      else None
  | Email =>
      match parse_log_line line with
      | Ret (Some p) =>
          let '(fired, attack_reason, severity) := email_signature p in
          if fired then
            Some {| arg_alert_type := "EMAIL_ANOMALY";
                    arg_severity := severity;
                    arg_attack_type := attack_reason;
                    arg_payload := request_payload p;
                    arg_source_ip := ip p;
                    arg_user_agent := "Unknown";
                    arg_confidence := 0.90%Q |}
          else None
      | _ => None
      end
  end.

(** What a classifier hit with score [c] passes to [_create_alert]. *)
Definition ml_args (d : Domain) (line : string) (c : Q) : AlertArgs :=
  match d with
  | Web =>
      match parse_log_line line with
      | Ret (Some p) =>
          {| arg_alert_type := "WEB_ANOMALY"; arg_severity := "HIGH";
             arg_attack_type := "Web Layer Attack (ML Detection)";
             arg_payload := request_payload p;
             arg_source_ip := ip p;
             arg_user_agent := Preprocess.user_agent p;
             arg_confidence := c |}
      | _ =>
          {| arg_alert_type := "WEB_ANOMALY"; arg_severity := "HIGH";
             arg_attack_type := "Web Layer Attack (ML Detection)";
             arg_payload := EmptyString; arg_source_ip := "Unknown";
             arg_user_agent := "Unknown"; arg_confidence := c |}
      end
  | Db =>
      {| arg_alert_type := "DB_ANOMALY"; arg_severity := "CRITICAL";
         arg_attack_type := "SQL Injection/Database Attack (ML Detection)";
         arg_payload := take 200 (parse_db_log line);
         arg_source_ip := "Unknown"; arg_user_agent := "Unknown";
         arg_confidence := c |}
  | Email =>
      match parse_log_line line with
      | Ret (Some p) =>
          {| arg_alert_type := "EMAIL_ANOMALY"; arg_severity := "MEDIUM";
             arg_attack_type := "Email Service Attack (ML Detection)";
             arg_payload := request_payload p;
             arg_source_ip := ip p;
             arg_user_agent := "Unknown";
             arg_confidence := c |}
      | _ =>
          {| arg_alert_type := "EMAIL_ANOMALY"; arg_severity := "MEDIUM";
             arg_attack_type := "Email Service Attack (ML Detection)";
             arg_payload := EmptyString; arg_source_ip := "Unknown";
             arg_user_agent := "Unknown"; arg_confidence := c |}
      end
  end.

(** An analyzer's answer once [_create_alert] has run. *)
Definition created (r : outcome Alert * World)
  : outcome (option Alert) * World :=
  match r with
  | (Ret a, w) => (Ret (Some a), w)
  | (Raise _, w) => (Ret None, w)
  end.

(** The store after [a] is appended and the oldest entry dropped if the
    bound is exceeded. *)
Definition pushed (cap : nat) (l : list Alert) (a : Alert) : list Alert :=
  if (cap <? List.length (l ++ [a]))%nat then tl (l ++ [a]) else (l ++ [a])%list.

(** Two worlds that differ at most in the record of stages entered. *)
Definition same_but_calls (w w' : World) : Prop :=
  self w' = self w /\ clock w' = clock w /\ alerts_file w' = alerts_file w
  /\ console w' = console w.

(** A store within its bound. *)
Definition bounded (w : World) : Prop :=
  (List.length (alerts (self w)) <= max_alerts (self w))%nat.

(** The counting loop of [get_statistics], for one of its two
    dictionaries. *)
Definition counted (field : Alert -> string) (l : list Alert) (d : dict Z)
  : dict Z :=
  fold_left (fun d alert =>
               dict_set (field alert) (dict_get d (field alert) 0 + 1) d)
            l d.

(** The sum of the values of a dictionary of counts. *)
Definition total (d : dict Z) : Z :=
  fold_right (fun kv acc => snd kv + acc) 0 d.

(** The keys of a dictionary, in order. *)
Definition keys {V} (d : dict V) : list string := map fst d.

(** The alerts whose [field] is [k]. *)
Definition having (field : Alert -> string) (k : string) (l : list Alert)
  : list Alert :=
  filter (fun a => String.eqb (field a) k) l.

(** The class of the characters other than [c]. *)
Definition other_than (c : ascii) (a : ascii) : bool := negb (Ascii.eqb a c).

(** A global that holds a manager whose store is within the bound [cap]. *)
Definition within_bound (cap : nat) (ids_manager : option World) : Prop :=
  match ids_manager with
  | Some w => bounded w /\ max_alerts (self w) = cap
  | None => False
  end.

(** The alerts a monitor finds in its file. *)
Definition stored (f : Monitors.AlertsFile) : list Monitors.MonitorAlert :=
  match f with
  | Monitors.Stored l => l
  | Monitors.Missing | Monitors.Unreadable => []
  end.

(** Several [save_alert] calls in a row. *)
Definition save_all (xs : list Monitors.MonitorAlert)
           (f : Monitors.AlertsFile) : Monitors.AlertsFile :=
  fold_left (fun f x => Monitors.save_alert x f) xs f.

(** The tag the routes select a domain by. *)
Definition tag (d : Domain) : string :=
  match d with
  | Web => "web"
  | Db => "db"
  | Email => "email"
  end.

(** A world with another persisted snapshot. *)
Definition with_file (f : option (list Alert)) (w : World) : World :=
  {| self := self w; clock := clock w; alerts_file := f; calls := calls w;
     console := console w |}.

(** The analyzer of a domain over the lines of a list, in turn: the alerts
    returned and the world at the end. *)
Fixpoint run_each (d : Domain) (lines : list string) (w : World)
  : list Alert * World :=
  match lines with
  | [] => ([], w)
  | line :: rest =>
      match analyze d line w with
      | (Ret (Some a), w') =>
          let '(found, w'') := run_each d rest w' in (a :: found, w'')
      | (_, w') => run_each d rest w'
      end
  end.

(** The lines of a list posted one by one to [/api/ids/analyze]: the global
    at the end. *)
Fixpoint post_each (tag : string) (lines : list string)
         (ids_manager : option World) : option World :=
  match lines with
  | [] => ids_manager
  | line :: rest =>
      post_each tag rest
                (snd (Api.analyze_log ids_manager
                        {| Api.log_line := Some line;
                           Api.log_type := Some tag |}))
  end.

(** The alerts in the answers to the lines of a list posted one by one. *)
Fixpoint posted_alerts (tag : string) (lines : list string)
         (ids_manager : option World) : list Alert :=
  match lines with
  | [] => []
  | line :: rest =>
      let '(response, ids_manager') :=
        Api.analyze_log ids_manager
                        {| Api.log_line := Some line;
                           Api.log_type := Some tag |} in
      (match fst response with
       | Api.Analysis (Some a) _ => [a]
       | _ => []
       end ++ posted_alerts tag rest ids_manager')%list
  end.

End Notions.

(* ------------------------------------------------------------------ *)
(** ** What a pattern matches, stated without the matcher *)

Module ReSpec.
Import PyStr Re Notions.

(** [den r pre cs cs']: the text [pre] is matched by [r], and the captures
    [cs] become [cs'] on the way. *)
Fixpoint den (r : regex) (pre : string) (cs cs' : captures) : Prop :=
  match r with
  | Lit p => pre = p /\ cs' = cs
  | Rep cls min _ =>
      every cls pre = true /\ (min <= String.length pre)%nat /\ cs' = cs
  | Group n r1 => exists cs1, den r1 pre cs cs1 /\ cs' = (n, pre) :: cs1
  | Seq r1 r2 =>
      exists p1 p2 cs1,
        pre = p1 ++ p2 /\ den r1 p1 cs cs1 /\ den r2 p2 cs1 cs'
  | Alt r1 r2 => den r1 pre cs cs' \/ den r2 pre cs cs'
  | Opt r1 => den r1 pre cs cs' \/ (pre = EmptyString /\ cs' = cs)
  end.

(** The longest prefix of a string within a class, and what follows it. *)
Fixpoint take_while (cls : ascii -> bool) (s : string) : string :=
  match s with
  | EmptyString => EmptyString
  | String c s' => if cls c then String c (take_while cls s') else EmptyString
  end.

Fixpoint drop_while (cls : ascii -> bool) (s : string) : string :=
  match s with
  | EmptyString => EmptyString
  | String c s' => if cls c then drop_while cls s' else s
  end.

End ReSpec.

(* ------------------------------------------------------------------ *)
(** ** What a match of a sequence pattern depends on *)

Module Stable.
Import PyStr Re Preprocess Notions ReSpec.

(** The continuation of [rmatch]. *)
Definition kf : string -> captures -> option captures :=
  fun _ cs => Some cs.

(** The text a pattern accepts, the captures left out. *)
Fixpoint accepts (r : regex) (w : string) : Prop :=
  match r with
  | Lit p => w = p
  | Rep cls min _ => every cls w = true /\ (min <= String.length w)%nat
  | Group _ r1 => accepts r1 w
  | Seq r1 r2 => exists p1 p2, w = p1 ++ p2 /\ accepts r1 p1 /\ accepts r2 p2
  | Alt r1 r2 => accepts r1 w \/ accepts r2 w
  | Opt r1 => accepts r1 w \/ w = EmptyString
  end.

(** The groups of a sequence of literals and groups, the last one first. *)
Fixpoint groups (r : regex) : list nat :=
  match r with
  | Group n _ => [n]
  | Seq r1 r2 => (groups r2 ++ groups r1)%list
  | _ => []
  end.

(** The text of a sequence of literals and groups, the groups read from
    captures; an optional part is left empty. *)
Fixpoint fill (r : regex) (cs : captures) : string :=
  match r with
  | Lit p => p
  | Group n _ => grp n cs
  | Seq r1 r2 => fill r1 cs ++ fill r2 cs
  | _ => EmptyString
  end.

(** The optional greedy rest of the line that ends [LOG_PATTERN]. *)
Definition rest_of_line : regex :=
  Seq (Opt (Group 10 (Rep dot 0 true))) (Lit EmptyString).

(** A pattern [T] ending in [rest_of_line] is decided by the text before the
    rest: a match of [s] splits [s] into the filled pattern and a rest, and
    the same groups are found whatever the rest is. *)
Definition Det (T : regex) : Prop :=
  forall (s : string) (cs r : captures),
    run T s cs kf = Some r ->
    exists body rest,
      s = fill T body ++ rest
      /\ every dot (fill T body) = true
      /\ accepts T (fill T body)
      /\ map fst body = groups T
      /\ forall t cs',
          run T (fill T body ++ t) cs' kf
          = Some ((10%nat, take_while dot t) :: body ++ cs')%list.

(** Whether [T] fails on text that ends in an accepted text and a rest does
    not depend on the rest. *)
Definition Robust (T : regex) : Prop :=
  forall (a w t1 t2 : string) (cs1 cs2 : captures),
    accepts T w -> every dot a = true -> every dot w = true ->
    run T (a ++ w ++ t1) cs1 kf = None ->
    run T (a ++ w ++ t2) cs2 kf = None.

(** The groups [b] are what a pattern [T] ending in [rest_of_line] reads
    off its own text filled with [b], whatever follows. *)
Definition Reads (T : regex) (b : captures) : Prop :=
  map fst b = groups T
  /\ forall t cs,
      run T (fill T b ++ t) cs kf
      = Some ((10%nat, take_while dot t) :: b ++ cs)%list.

End Stable.

(* ------------------------------------------------------------------ *)
(** ** Further concrete artifacts and inputs *)

Module Cases.
Import PyStr Preprocess IDS Manager Monitors.

(** [predict] fails on every row. *)
Definition broken : Model :=
  {| truth := Ret true;
     fitted_predict := fun _ => Raise RuntimeError;
     fitted_decision_function := fun _ => Ret [(-0.25)%Q];
     fitted_predict_proba := fun _ => Raise AttributeError |}.

(** Flags every row, but its decision function fails with [ValueError]. *)
Definition scores_fail : Model :=
  {| truth := Ret true;
     fitted_predict := fun _ => Ret [-1];
     fitted_decision_function := fun _ => Raise ValueError;
     fitted_predict_proba := fun _ => Ret (Some [[0.25%Q; 0.75%Q]]) |}.


(** An ensemble that was never fitted: it has no list of members to take
    its length from. *)
Definition not_fitted : Model :=
  {| truth := Raise AttributeError;
     fitted_predict := fun _ => Raise AttributeError;
     fitted_decision_function := fun _ => Raise AttributeError;
     fitted_predict_proba := fun _ => Raise AttributeError |}.

(** An artifact that counts as false, as an empty container does. *)
Definition empty : Model :=
  {| truth := Ret false;
     fitted_predict := fun _ => Raise AttributeError;
     fitted_decision_function := fun _ => Raise AttributeError;
     fitted_predict_proba := fun _ => Raise AttributeError |}.

(** A string of [n] digits. *)
Fixpoint ones (n : nat) : string :=
  match n with
  | O => EmptyString
  | S n' => String "1" (ones n')
  end.

(** The homepage request with a byte count of 4301 digits. *)
Definition oversized : string :=
  access_line "192.168.1.100" Samples.ts "GET /index.html HTTP/1.1" "200"
              (ones 4301) "-" "Mozilla/5.0".

(** Labels every row [1]. *)
Definition labels_one : Model :=
  {| truth := Ret true;
     fitted_predict := fun _ => Ret [1];
     fitted_decision_function := fun _ => Ret [0.1%Q];
     fitted_predict_proba := fun _ => Raise AttributeError |}.

(** The arguments of a db alert. *)
Definition db_args : AlertArgs :=
  {| arg_alert_type := "DB_ANOMALY"; arg_severity := "CRITICAL";
     arg_attack_type := "SQL Injection detected";
     arg_payload := "SELECT 1 OR 1=1"; arg_source_ip := "Unknown";
     arg_user_agent := "Unknown"; arg_confidence := 0.95%Q |}.

(** A store of a db alert, a web alert and a second db alert. *)
Definition mixed_store : World :=
  Samples.after [db_args; Samples.sample_args; db_args] Samples.degraded.

Definition general_log_line : string :=
  "2025-11-19T10:00:00.123456Z   3 Query   SELECT * FROM users".

Definition monitor_alert (n : nat) : MonitorAlert :=
  {| m_timestamp := n; m_severity := "CRITICAL";
     m_source_ip := "Internal DB";
     m_attack_type := "SQL Injection Detected";
     m_payload := "SELECT 1"; m_user_agent := "N/A" |}.

Definition idle : MonitorState := {| file := Missing; now := 0%nat |}.

(** The surroundings with a standard output that encodes ASCII only. *)
Definition ascii_console (w : World) : World :=
  {| self := self w; clock := clock w; alerts_file := alerts_file w;
     calls := calls w; console := fun _ => false |}.

(** The homepage request of a client whose name begins like that of an
    attacker tool and ends with a character beyond ASCII. *)
Definition home_by_latin_agent : string :=
  access_line "10.0.0.9" Samples.ts "GET /index.html HTTP/1.1" "200" "512"
              "-" ("sqlmap/" ++ String "233"%char EmptyString).

(** A store filled to its capacity, with all three artifacts loaded. *)
Definition full_store : World :=
  Samples.after (repeat Samples.sample_args 100)
                (Samples.loaded Samples.scoreless).

(** The homepage request as the web container logs it: the forwarded
    address follows the user agent. *)
Definition forwarded : string :=
  Samples.homepage ++ " " ++ dquote ++ "203.0.113.7" ++ dquote.

End Cases.

(* ------------------------------------------------------------------ *)
(** ** The parsers and analyzers on lines of the test scripts *)

Section Scenarios.
Import PyStr Preprocess IDS.

Example parse_etc_passwd :
  parse_log_line Samples.etc_passwd
  = Ret (Some {| ip := "10.0.0.3";
                 Preprocess.timestamp := "27/Nov/2024:10:30:04 +0000";
                 method := "GET";
                 url := "/../../etc/passwd";
                 Preprocess.status := 403;
                 bytes := 256;
                 referer := "-";
                 Preprocess.user_agent := "Mozilla/5.0" |}).
Proof. vm_compute. reflexivity. Qed.

Example parse_general_log :
  parse_db_log "2025-11-19T10:00:00.123456Z   3 Query   SELECT * FROM users"
  = "SELECT * FROM users".
Proof. vm_compute. reflexivity. Qed.

Example traversal_is_high :
  option_map (fun a => (attack_type a, severity a, id a))
             match fst (analyze_web_log Samples.etc_passwd
                                        (Samples.loaded Samples.inlier)) with
             | Ret r => r
             | Raise _ => None
             end
  = Some ("Path traversal attempt", "HIGH", 1).
Proof. vm_compute. reflexivity. Qed.

Example benign_query_is_clear :
  fst (analyze_db_log Samples.benign_query (Samples.loaded Samples.inlier))
  = Ret None.
Proof. vm_compute. reflexivity. Qed.

Example stacked_drop_is_critical :
  option_map (fun a => (attack_type a, severity a))
             match fst (analyze_db_log Samples.drop_users
                                       (Samples.loaded Samples.inlier)) with
             | Ret r => r
             | Raise _ => None
             end
  = Some ("Dangerous operation detected (DROP/TRUNCATE)", "CRITICAL").
Proof. vm_compute. reflexivity. Qed.

(** [int] on the texts Python accepts and refuses. *)
Example int_of_text :
  map int [" 42 "; "+1_000"; "-7"; "007"; "4 2"; "_1"; EmptyString]
  = [Ret 42; Ret 1000; Ret (-7); Ret 7; Raise ValueError; Raise ValueError;
     Raise ValueError].
Proof. vm_compute. reflexivity. Qed.

(** A byte count of 4301 digits: the parser raises, the analyzer catches
    it, the web monitor does not. *)
Example oversized_count :
  parse_log_line Cases.oversized = Raise ValueError
  /\ analyze_web_log Cases.oversized (Samples.loaded Samples.scoreless)
     = (Ret None, Samples.loaded Samples.scoreless)
  /\ Monitors.web_monitor_step Samples.scoreless Cases.oversized Cases.idle
     = Raise ValueError
  /\ Loader.load_and_process_logs true
       (Some [Samples.homepage; Cases.oversized])
     = Raise ValueError.
Proof. repeat split; vm_compute; reflexivity. Qed.

(** An ensemble that was never fitted: the analyzer raises at its guard
    and the single-line route answers 500. *)
Example unfitted_ensemble :
  analyze_web_log Samples.admin_panel (Samples.loaded Cases.not_fitted)
  = (Raise AttributeError, Samples.loaded Cases.not_fitted)
  /\ fst (Api.analyze_log (Some (Samples.loaded Cases.not_fitted))
            {| Api.log_line := Some Samples.admin_panel;
               Api.log_type := Some "web" |})
     = (Api.Error "AttributeError", 500).
Proof. split; vm_compute; reflexivity. Qed.

(** An artifact that counts as false is skipped like a missing one. *)
Example empty_artifact :
  analyze_web_log Samples.admin_panel (Samples.loaded Cases.empty)
  = (Ret None, Samples.loaded Cases.empty).
Proof. vm_compute. reflexivity. Qed.

End Scenarios.

(* ------------------------------------------------------------------ *)
(** ** Properties of the alert store *)

Import PyStr Preprocess IDS Rules.
Local Open Scope ids_scope.

Section Store.

Lemma lastn_all {A} (n : nat) (l : list A) :
  (List.length l <= n)%nat -> lastn n l = l.
Proof.
  intros H. unfold lastn.
  replace (List.length l - n)%nat with 0%nat by lia. reflexivity.
Qed.

Lemma lastn_length {A} (n : nat) (l : list A) :
  List.length (lastn n l) = Nat.min (List.length l) n.
Proof. unfold lastn. rewrite length_skipn. lia. Qed.

Lemma lastn_app_lastn {A} (n : nat) (l r : list A) :
  lastn n (lastn n l ++ r) = lastn n (l ++ r).
Proof.
  destruct (Nat.le_gt_cases (List.length l) n) as [Hle | Hgt].
  - now rewrite (lastn_all n l Hle).
  - unfold lastn at 1 3.
    rewrite !length_app, lastn_length.
    replace (Nat.min (List.length l) n + List.length r - n)%nat
      with (List.length r) by lia.
    replace (List.length l + List.length r - n)%nat
      with (List.length r + (List.length l - n))%nat by lia.
    rewrite <- skipn_skipn. f_equal.
    rewrite skipn_app.
    replace (List.length l - n - List.length l)%nat with 0%nat by lia.
    reflexivity.
Qed.

(** Pushing onto a store that respects its bound keeps the last
    [max_alerts] entries. *)
Lemma push_is_lastn {A} (cap : nat) (l : list A) (a : A) :
  (List.length l <= cap)%nat ->
  (if (cap <? List.length (l ++ [a]))%nat then tl (l ++ [a]) else l ++ [a])%list
  = lastn cap (l ++ [a]).
Proof.
  intros Hle. rewrite length_app. simpl.
  destruct (Nat.ltb_spec cap (List.length l + 1)) as [Hlt | Hge].
  - unfold lastn. rewrite length_app. simpl.
    replace (List.length l + 1 - cap)%nat with 1%nat by lia.
    destruct l; reflexivity.
  - symmetry. apply lastn_all. rewrite length_app. simpl. lia.
Qed.

(** One insertion, spelled out. *)
Lemma create_run (x : AlertArgs) (w : World) :
  exists a w',
    create x w = (Ret a, w')
    /\ args_of a = rounded x
    /\ id a = Z.of_nat (List.length (alerts (self w))) + 1
    /\ alerts (self w')
       = (if (max_alerts (self w) <? List.length (alerts (self w) ++ [a]))%nat
          then tl (alerts (self w) ++ [a]) else alerts (self w) ++ [a])%list
    /\ max_alerts (self w') = max_alerts (self w).
Proof.
  unfold create, _create_alert, bind, get_self, datetime_now, set_alerts, ret.
  simpl. eexists. eexists. split; [reflexivity |].
  repeat split.
Qed.

Lemma nth_error_cons_S {A} (a : A) (l : list A) (i : nat) (b : A) :
  nth_error (a :: l) i = Some b ->
  (i = 0%nat /\ a = b) \/ (exists j, i = S j /\ nth_error l j = Some b).
Proof.
  destruct i; simpl; intros H.
  - left. split; congruence.
  - right. eauto.
Qed.

(** A run of insertions into a store within its bound: the alerts come out
    in the order of the arguments, the store keeps the last [max_alerts] of
    what it held and what was created, and the identifier of each alert is
    the length of the store when it was created, plus one. *)
Lemma create_alerts_run (xs : list AlertArgs) :
  forall w,
    (List.length (alerts (self w)) <= max_alerts (self w))%nat ->
    exists created w',
      create_alerts xs w = (Ret created, w')
      /\ map args_of created = map rounded xs
      /\ alerts (self w')
         = lastn (max_alerts (self w)) (alerts (self w) ++ created)
      /\ max_alerts (self w') = max_alerts (self w)
      /\ forall i a,
           nth_error created i = Some a ->
           id a = Z.of_nat (Nat.min (List.length (alerts (self w)) + i)
                                    (max_alerts (self w))) + 1.
Proof.
  induction xs as [| x rest IH]; intros w Hle.
  - exists [], w. repeat split.
    + rewrite app_nil_r. symmetry. now apply lastn_all.
    + intros [| i] a; discriminate.
  - destruct (create_run x w) as (a & w1 & Hrun & Hargs & Hid & Hal & Hcap).
    rewrite push_is_lastn in Hal by exact Hle.
    assert (Hle1 : (List.length (alerts (self w1)) <= max_alerts (self w1))%nat).
    { rewrite Hal, Hcap, lastn_length. lia. }
    destruct (IH w1 Hle1) as (created & w' & Hrest & Hmap & Hal' & Hcap' & Hids).
    exists (a :: created), w'. repeat split.
    + simpl. unfold bind. rewrite Hrun, Hrest. reflexivity.
    + simpl. now rewrite Hargs, Hmap.
    + rewrite Hal', Hcap, Hal, lastn_app_lastn, <- app_assoc. reflexivity.
    + congruence.
    + intros i b Hnth.
      destruct (nth_error_cons_S _ _ _ _ Hnth) as [[-> ->] | (j & -> & Hj)].
      * rewrite Hid. f_equal. lia.
      * rewrite (Hids j b Hj), Hcap, Hal, lastn_length, length_app. simpl.
        f_equal. lia.
Qed.

End Store.

Section StoreClaims.

(** Once the store is full, two successive insertions are handed the same
    identifier. *)
Lemma id_repeats_at_capacity (w : World) (x y : AlertArgs) :
  List.length (alerts (self w)) = max_alerts (self w) ->
  exists a w1 b w2,
    create x w = (Ret a, w1) /\ create y w1 = (Ret b, w2) /\ id a = id b.
Proof.
  intros Hfull.
  destruct (create_run x w) as (a & w1 & Hx & _ & Hida & Hal & Hcap).
  destruct (create_run y w1) as (b & w2 & Hy & _ & Hidb & _ & _).
  exists a, w1, b, w2. repeat split; try assumption.
  rewrite push_is_lastn in Hal by lia.
  rewrite Hida, Hidb, Hal, lastn_length, length_app. simpl.
  f_equal. lia.
Qed.

(** C3 (evaluated on the code): on a manager as [__init__] builds it
    (capacity 100), 102 insertions in a row give the 100th alert the
    identifier 100 and both the 101st and the 102nd the identifier 101; the
    identifiers handed out stop increasing once the store evicts. *)
Theorem C3_ids_repeat_after_eviction :
  match fst (create_alerts (repeat Samples.sample_args 102) Samples.degraded)
  with
  | Ret created => map id (skipn 99 created)
  | Raise _ => []
  end = [100; 101; 101].
Proof. vm_compute. reflexivity. Qed.

(** C4: a run of [max_alerts + k] insertions into an empty store leaves
    exactly [max_alerts] alerts, namely the created alerts without the first
    [k], in the order of creation; and with capacity 100 and 101 insertions
    the second alert ever created is in the store, has identifier 2, and no
    alert in the store has a smaller identifier. *)
Theorem C4_bounded_buffer (w : World) (xs : list AlertArgs) (k : nat) :
  alerts (self w) = [] ->
  List.length xs = (max_alerts (self w) + k)%nat ->
  exists created w',
    create_alerts xs w = (Ret created, w')
    /\ map args_of created = map rounded xs
    /\ alerts (self w') = skipn k created
    /\ List.length (alerts (self w')) = max_alerts (self w)
    /\ (max_alerts (self w) = 100%nat -> k = 1%nat ->
        exists second,
          nth_error created 1 = Some second
          /\ In second (alerts (self w'))
          /\ id second = 2
          /\ forall b, In b (alerts (self w')) -> id second <= id b).
Proof.
  intros Hempty Hlen.
  destruct (create_alerts_run xs w) as (created & w' & Hrun & Hmap & Hal & Hcap & Hids).
  { rewrite Hempty. simpl. lia. }
  rewrite Hempty in Hal, Hids. simpl in Hal, Hids.
  assert (Hcl : List.length created = (max_alerts (self w) + k)%nat).
  { rewrite <- Hlen, <- (length_map args_of), Hmap, length_map. reflexivity. }
  assert (Hskip : alerts (self w') = skipn k created).
  { rewrite Hal. unfold lastn. f_equal. lia. }
  exists created, w'. repeat split; try assumption.
  - rewrite Hskip, length_skipn. lia.
  - intros Hcap100 ->.
    destruct created as [| first [| second rest]]; simpl in Hcl; try lia.
    exists second. rewrite Hskip. simpl.
    assert (Hsecond : id second = 2).
    { rewrite (Hids 1%nat second eq_refl), Hcap100. reflexivity. }
    repeat split; auto.
    intros b Hb. rewrite Hsecond.
    destruct (In_nth_error (second :: rest) b Hb) as [j Hj].
    rewrite (Hids (S j) b Hj). lia.
Qed.

(** C4 at 101 insertions into a manager as [__init__] builds it. *)
Lemma C4_bounded_buffer_witness :
  exists created w',
    create_alerts (repeat Samples.sample_args 101) Samples.degraded
    = (Ret created, w')
    /\ map args_of created = map rounded (repeat Samples.sample_args 101)
    /\ alerts (self w') = skipn 1 created
    /\ List.length (alerts (self w')) = 100%nat
    /\ (100%nat = 100%nat -> 1%nat = 1%nat ->
        exists second,
          nth_error created 1 = Some second
          /\ In second (alerts (self w'))
          /\ id second = 2
          /\ forall b, In b (alerts (self w')) -> id second <= id b).
Proof.
  apply (C4_bounded_buffer Samples.degraded (repeat Samples.sample_args 101) 1);
    reflexivity.
Defined.

(** The two filters of the listing keep the alerts asked for. *)
Lemma filter_by_matching (alert_type severity : option string)
      (l : list Alert) :
  filter_by IDS.severity severity (filter_by IDS.alert_type alert_type l)
  = matching alert_type severity l.
Proof.
  assert (Htwo : forall (f g : Alert -> bool) (l : list Alert),
             filter g (filter f l) = filter (fun a => f a && g a) l).
  { intros f g l0. induction l0 as [| a l0 IH]; simpl; [reflexivity |].
    destruct (f a); simpl; [destruct (g a) |]; now rewrite IH. }
  assert (Hall : forall (g : Alert -> bool) (l0 : list Alert),
             filter (fun a => g a && true) l0 = filter g l0).
  { intros g l0. apply filter_ext. intros a. apply andb_true_r. }
  assert (Hid : forall l0 : list Alert, filter (fun _ => true) l0 = l0).
  { intros l0. induction l0 as [| a l0 IH]; simpl; [| rewrite IH];
      reflexivity. }
  unfold filter_by, matching, asked_for, truthy.
  destruct alert_type as [[| c k] |], severity as [[| c' k'] |]; simpl;
    rewrite ?Htwo, ?Hall, ?Hid; reflexivity.
Qed.

(** C10: with [limit = 0] the listing returns every stored alert that has
    the type and the severity asked for, in the order of the store; with a
    positive [limit] it returns the last [limit] of them (all of them when
    there are fewer), so at most [limit]; and the route hands the [limit] of
    the query string to the listing unchanged, whatever integer it is. *)
Theorem C10_limit_zero_lists_everything
        (w : World) (alert_type severity : option string) :
  let filtered := matching alert_type severity (alerts (self w)) in
  get_alerts alert_type severity 0 w = (Ret filtered, w)
  /\ (forall a,
        In a filtered
        <-> In a (alerts (self w))
            /\ (forall k, alert_type = Some k -> k <> EmptyString ->
                          IDS.alert_type a = k)
            /\ (forall k, severity = Some k -> k <> EmptyString ->
                          IDS.severity a = k))
  /\ (forall limit, 0 < limit ->
        get_alerts alert_type severity limit w
        = (Ret (lastn (Z.to_nat limit) filtered), w)
        /\ Z.of_nat (List.length (lastn (Z.to_nat limit) filtered)) <= limit)
  /\ (forall limit,
        exists listed,
          get_alerts alert_type severity limit w = (Ret listed, w)
          /\ Api.get_alerts (Some w)
               {| Api.q_type := alert_type; Api.q_severity := severity;
                  Api.q_limit := Some limit |}
             = ((Api.AlertList listed (Z.of_nat (List.length listed))
                               (Api.models_loaded_of (self w)), 200),
                Some w)).
Proof.
  intros filtered.
  assert (Hasked : forall v x,
             asked_for v x = true
             <-> forall k, v = Some k -> k <> EmptyString -> x = k).
  { intros v x. unfold asked_for. destruct v as [[| c k] |].
    - split; [intros _ k' H; inversion H; congruence | reflexivity].
    - rewrite String.eqb_eq. split.
      + intros -> k' H _. now inversion H.
      + intros H. apply H; [reflexivity | discriminate].
    - split; [discriminate | reflexivity]. }
  split; [| split; [| split]].
  - unfold get_alerts, bind, get_self, ret, slice_from. cbv zeta.
    rewrite filter_by_matching. fold filtered.
    cbn [Z.opp Z.ltb Z.compare]. rewrite Z.min_l by lia. reflexivity.
  - intros a. unfold filtered, matching.
    rewrite filter_In, andb_true_iff, !Hasked. tauto.
  - intros limit Hpos. split.
    + unfold get_alerts, bind, get_self, ret, slice_from. cbv zeta.
      rewrite filter_by_matching. fold filtered.
      destruct (Z.ltb_spec (- limit) 0) as [_ | Hge]; [| lia].
      unfold lastn.
      replace (Z.to_nat (Z.max (Z.of_nat (List.length filtered) + - limit) 0))
        with (List.length filtered - Z.to_nat limit)%nat by lia.
      reflexivity.
    + rewrite lastn_length. lia.
  - intros limit. eexists. split; reflexivity.
Qed.

(** C10 on a store of a db alert, a web alert and a second db alert: asked
    for the db alerts, the listing gives both with [limit = 0] and the newer
    one with [limit = 1]. *)
Lemma C10_limit_zero_lists_everything_witness :
  let w := Cases.mixed_store in
  exists db1 web db2,
    alerts (self w) = [db1; web; db2]
    /\ alert_type web = "WEB_ANOMALY"
    /\ get_alerts (Some "DB_ANOMALY") None 0 w = (Ret [db1; db2], w)
    /\ get_alerts (Some "DB_ANOMALY") None 1 w = (Ret [db2], w).
Proof.
  intros w.
  pose proof (C10_limit_zero_lists_everything w (Some "DB_ANOMALY") None)
    as H.
  cbv zeta in H. destruct H as (Hzero & _ & Hpos & _).
  destruct (Hpos 1 eq_refl) as [Hone _].
  eexists. eexists. eexists.
  split; [vm_compute; reflexivity |].
  split; [reflexivity |].
  split; [rewrite Hzero | rewrite Hone]; vm_compute; reflexivity.
Defined.

End StoreClaims.

(* ------------------------------------------------------------------ *)
(** ** Properties of the analyzers *)

#[local] Arguments print : simpl never.
#[local] Arguments str_nat : simpl never.
#[local] Arguments predict : simpl never.
#[local] Arguments decision_function : simpl never.
#[local] Arguments predict_proba : simpl never.

(** Unfolding the monad under an analyzer. *)
Ltac run_monad :=
  unfold analyze, analyze_web_log, analyze_db_log, analyze_email_log,
         call, lift, index0, bind, try_except, get_self, tick, ret, raise;
  simpl.

Section Console.

(** Text in ASCII is printed whatever the encoding of the output. *)
Lemma print_ascii (text : string) (w : World) :
  every is_ascii text = true -> print text w = (Ret tt, w).
Proof.
  intros H. unfold print.
  replace (printable w text) with true; [reflexivity |].
  symmetry. unfold printable.
  induction text as [| c text IH]; simpl in *; [reflexivity |].
  apply andb_true_iff in H. destruct H as [Hc Ht].
  rewrite Hc, (IH Ht). reflexivity.
Qed.

(** An output that has every character prints every text. *)
Lemma print_all (text : string) (w : World) :
  (forall c, console w c = true) -> print text w = (Ret tt, w).
Proof.
  intros H. unfold print.
  replace (printable w text) with true; [reflexivity |].
  symmetry. unfold printable.
  induction text as [| c text IH]; simpl; [reflexivity |].
  rewrite (H c), IH, orb_true_r. reflexivity.
Qed.

(** A print returns or raises, and leaves everything as it was. *)
Lemma print_frame (text : string) (w : World) :
  print text w = (Ret tt, w) \/ print text w = (Raise UnicodeEncodeError, w).
Proof. unfold print. destruct (printable w text); auto. Qed.

Lemma every_app (cls : ascii -> bool) (s t : string) :
  every cls (s ++ t) = every cls s && every cls t.
Proof.
  induction s as [| c s IH]; simpl; [reflexivity |].
  rewrite IH, andb_assoc. reflexivity.
Qed.

(** The text of an exception is in ASCII. *)
Lemma str_exn_ascii (e : exn) : every is_ascii (str_exn e) = true.
Proof. destruct e; reflexivity. Qed.

(** The decimal digits of a length are in ASCII. *)
Lemma str_nat_ascii (n : nat) : every is_ascii (str_nat n) = true.
Proof.
  unfold str_nat. generalize (Nat.to_uint n). intros u.
  induction u; simpl; auto.
Qed.

End Console.

(** Printing the message of a handler. *)
Ltac print_error :=
  rewrite print_ascii
    by first
         [ rewrite ?every_app, ?str_exn_ascii, ?str_nat_ascii; reflexivity
         | simpl; rewrite ?every_app, ?str_exn_ascii, ?str_nat_ascii;
           reflexivity ].

Section Analyzers.

(** A method of an artifact answers only when the artifact counts as
    true. *)
Lemma when_fitted_ret {A} (m : Model) (r : outcome A) (a : A) :
  when_fitted m r = Ret a -> truth m = Ret true /\ r = Ret a.
Proof.
  unfold when_fitted. destruct (truth m) as [[|] | e]; try discriminate. auto.
Qed.

Lemma predict_fitted (m : Model) (f : FeatureVector) (l : list Z) :
  predict m f = Ret l -> truth m = Ret true.
Proof. intros H. apply (when_fitted_ret m _ l H). Qed.

(** A [try] whose handler returns does not raise. *)
Lemma try_returns {A} (c : M A) (h : exn -> M A) (w : World) :
  (forall e w', exists r w'', h e w' = (Ret r, w'')) ->
  exists r w', try_except c h w = (Ret r, w').
Proof.
  intros H. unfold try_except. destruct (c w) as [[r | e] w']; eauto.
Qed.

(** An analyzer whose guard answers returns; it does not raise. *)
Lemma analyze_returns (d : Domain) (line : string) (w : World) :
  guard_answers d (self w) = true ->
  exists r w', analyze d line w = (Ret r, w').
Proof.
  unfold guard_answers.
  destruct d; simpl;
    [ unfold analyze_web_log | unfold analyze_db_log
      | unfold analyze_email_log ];
    unfold bind at 1, get_self; simpl;
    (destruct (_ (self w)) as [m |]; [| unfold ret; eauto]);
    unfold bind at 1, lift;
    (destruct (truth m) as [[|] | e0];
     [| simpl; unfold ret; eauto | discriminate]);
    intros _; simpl; apply try_returns; intros e w';
    unfold bind; print_error; unfold ret; eauto.
Qed.

(** When the truth value of the loaded artifact raises, so does the
    analyzer, on every line and before anything else is done. *)
Lemma analyze_raises (d : Domain) (line : string) (w : World) (m : Model)
      (e : exn) :
  model_of d (self w) = Some m -> truth m = Raise e ->
  analyze d line w = (Raise e, w).
Proof.
  destruct d; simpl; intros Hm Ht; run_monad; rewrite Hm; simpl; rewrite Ht;
    reflexivity.
Qed.

(** An artifact that counts as false is skipped like a missing one. *)
Lemma analyze_skips_false (d : Domain) (line : string) (w : World)
      (m : Model) :
  model_of d (self w) = Some m -> truth m = Ret false ->
  analyze d line w = (Ret None, w).
Proof.
  destruct d; simpl; intros Hm Ht; run_monad; rewrite Hm; simpl; rewrite Ht;
    reflexivity.
Qed.

(** An alert comes only from a loaded artifact that counts as true and a
    line that parses. *)
Lemma alert_needs_model_and_parse
      (d : Domain) (w : World) (line : string) (a : Alert) :
  fst (analyze d line w) = Ret (Some a) ->
  (exists m, model_of d (self w) = Some m /\ truth m = Ret true)
  /\ parses d line = true.
Proof.
  destruct d; simpl; run_monad.
  - destruct (web_model (self w)) as [m |]; [| discriminate]. simpl.
    destruct (truth m) as [[|] | e0] eqn:Ht; try discriminate. simpl.
    destruct (parse_log_line line) as [[p |] | e]; simpl;
      [eauto | discriminate | print_error; discriminate].
  - destruct (db_model (self w)) as [m |]; [| discriminate]. simpl.
    destruct (truth m) as [[|] | e0] eqn:Ht; try discriminate. simpl.
    destruct (truthy (parse_db_log line)); [eauto | discriminate].
  - destruct (email_model (self w)) as [m |]; [| discriminate]. simpl.
    destruct (truth m) as [[|] | e0] eqn:Ht; try discriminate. simpl.
    destruct (parse_log_line line) as [[p |] | e]; simpl;
      [eauto | discriminate | print_error; discriminate].
Qed.

(** C1 (as the code has it): when the artifact of a domain is [None], the
    analyzer of that domain returns [None] on every line without raising and
    leaves the manager and its surroundings as they were: no rule is tried
    and no alert is stored. *)
Theorem C1_unloaded_model_skips_analysis
        (d : Domain) (w : World) (line : string) :
  model_of d (self w) = None -> analyze d line w = (Ret None, w).
Proof.
  destruct d; simpl; intros Hnone; run_monad; rewrite Hnone; reflexivity.
Qed.


End Analyzers.

Section Signatures.

(** The rule block of the web analyzer, read as categories. *)
Lemma web_signature_deciding (p : Parsed) :
  match last_match (opt_list (first_match (web_url_categories p))
                    ++ [web_tool_category p]) with
  | Some c => web_signature p = (true, reason c) /\ level c = "HIGH"
  | None => fst (web_signature p) = false
  end.
Proof.
  unfold web_signature, web_url_categories, web_tool_category, last_match,
         first_match.
  set (url := lower (Preprocess.url p)).
  set (ua := lower (Preprocess.user_agent p)).
  generalize (any_in admin_command_tokens url), (path_traversal url),
             (script_injection url), (any_in url_sql_tokens url),
             (any_in attacker_tools ua).
  intros [] [] [] [] []; cbn; auto.
Qed.

Lemma email_signature_deciding (p : Parsed) :
  match last_match (email_categories p) with
  | Some c => email_signature p = (true, reason c, level c)
  | None => fst (fst (email_signature p)) = false
  end.
Proof.
  unfold email_signature, email_categories, last_match.
  set (url := lower (Preprocess.url p)).
  set (ua := lower (Preprocess.user_agent p)).
  generalize (any_in phishing_patterns url), (any_in spam_patterns url),
             (any_in dangerous_patterns url), (any_in suspicious_agents ua).
  intros [] [] [] []; cbn; auto.
Qed.

Lemma db_signature_deciding (query : string) :
  match last_match (db_categories query) with
  | Some c => db_signature query = (true, reason c) /\ level c = "CRITICAL"
  | None => fst (db_signature query) = false
  end.
Proof.
  unfold db_signature, db_categories, last_match.
  set (ql := lower query).
  generalize (any_in sql_injection_patterns ql),
             (str_in "; " ql && (1 <? List.length (split_on ";" query))%nat),
             (find (fun k => str_in k ql) stacked_keywords),
             (str_in "drop" ql || str_in "truncate" ql).
  intros [] [] [k |] []; cbn; auto.
Qed.

End Signatures.

Section ML.

#[local] Arguments probe_confidence : simpl never.


(** The classifier path, backwards: an alert on a line no rule fired on
    carries the rounded score of the probe. *)
Lemma ml_inversion (d : Domain) (w : World) (line : string) (m : Model)
      (a : Alert) :
  model_of d (self w) = Some m ->
  parses d line = true ->
  signature_fires d line = false ->
  fst (analyze d line w) = Ret (Some a) ->
  exists c w2,
    probe_confidence m (features d line)
                     (entered [EvSignature; EvFeatures; EvPredict] w)
    = (Ret c, w2)
    /\ confidence a = round4 c.
Proof.
  destruct d; simpl; intros Hm Hparse Hsig; run_monad; rewrite Hm; simpl;
    (destruct (truth m) as [[|] | e0]; try discriminate); simpl.
  - destruct (parse_log_line line) as [[p |] | e]; try discriminate. simpl.
    destruct (web_signature p) as [fired r]. simpl in Hsig. subst fired.
    simpl. destruct (predict m (extract_features p)) as [[| pr rest] | e];
      simpl; try discriminate; try (print_error; discriminate).
    destruct (probe_confidence _ _ _) as [[c | e] w2]; simpl;
      try discriminate; try (print_error; discriminate).
    destruct (pr =? -1); simpl; intros H; inversion H. eauto.
  - rewrite Hparse. simpl.
    destruct (db_signature (parse_db_log line)) as [fired r].
    simpl in Hsig. subst fired.
    simpl.
    destruct (predict m (extract_sql_features (parse_db_log line)))
      as [[| pr rest] | e]; simpl; try discriminate; try (print_error; discriminate).
    destruct (probe_confidence _ _ _) as [[c | e] w2]; simpl;
      try discriminate; try (print_error; discriminate).
    destruct (pr =? -1); simpl; intros H; inversion H. eauto.
  - destruct (parse_log_line line) as [[p |] | e]; try discriminate. simpl.
    destruct (email_signature p) as [[fired r] sev]. simpl in Hsig. subst fired.
    simpl. destruct (predict m (extract_features p)) as [[| pr rest] | e];
      simpl; try discriminate; try (print_error; discriminate).
    destruct (probe_confidence _ _ _) as [[c | e] w2]; simpl;
      try discriminate; try (print_error; discriminate).
    destruct (pr =? -1); simpl; intros H; inversion H. eauto.
Qed.

End ML.

Section Scores.
Local Open Scope Q_scope.

Lemma round_half_even_bounds (x : Q) (n : Z) :
  0 <= x <= inject_Z n -> (0 <= round_half_even x <= n)%Z.
Proof.
  intros [Hlo Hhi]. unfold round_half_even.
  assert (Hf0 : (0 <= Qfloor x)%Z).
  { change 0%Z with (Qfloor 0). now apply Qfloor_resp_le. }
  assert (Hfn : (Qfloor x <= n)%Z).
  { rewrite <- (Qfloor_Z n). now apply Qfloor_resp_le. }
  assert (Hstep : 1 # 2 <= x - inject_Z (Qfloor x) -> (Qfloor x + 1 <= n)%Z).
  { intros Hhalf.
    destruct (Z.eq_dec (Qfloor x) n) as [Heq | Hne]; [| lia].
    rewrite Heq in Hhalf. lra. }
  destruct (x - inject_Z (Qfloor x) ?= 1 # 2) eqn:E.
  - apply Qeq_alt in E.
    assert (Hn : (Qfloor x + 1 <= n)%Z) by (apply Hstep; lra).
    destruct (Z.even (Qfloor x)); lia.
  - lia.
  - apply Qgt_alt in E.
    assert (Hn : (Qfloor x + 1 <= n)%Z) by (apply Hstep; lra).
    lia.
Qed.

(** Rounding to four places keeps a score within the unit interval. *)
Lemma round4_unit (x : Q) : 0 <= x <= 1 -> 0 <= round4 x <= 1.
Proof.
  intros [Hlo Hhi].
  destruct (round_half_even_bounds (x * 10000) 10000) as [H0 H1].
  { change (inject_Z 10000) with 10000. lra. }
  unfold round4.
  generalize dependent (round_half_even (x * 10000)). intros z H0 H1.
  unfold Qdiv, Qmult, Qinv, Qle, inject_Z. simpl. lia.
Qed.

Lemma fold_max_in (rest : list Q) :
  forall x,
    In (fold_left (fun m y => if Qlt_le_dec m y then y else m) rest x)
       (x :: rest).
Proof.
  induction rest as [| y rest IH]; intros x; simpl.
  - now left.
  - destruct (Qlt_le_dec x y).
    + right. apply IH.
    + destruct (IH x) as [H | H]; [now left | right; now right].
Qed.


(** A probe of an artifact with normalized scores returns a score in the
    unit interval. *)
Lemma probe_normalized (m : Model) (f : FeatureVector) (w w' : World) (c : Q) :
  scores_normalized m ->
  probe_confidence m f w = (Ret c, w') ->
  0 <= c <= 1.
Proof.
  intros [Hdec Hproba].
  unfold probe_confidence, try_except, call, bind, tick, index0, py_max,
         ret, raise.
  simpl.
  destruct (decision_function m f) as [[| d ds] | e] eqn:Ed; simpl.
  - discriminate.
  - intros H. inversion H. subst. split.
    + apply Qabs_nonneg.
    + now apply (Hdec f (d :: ds) d).
  - destruct e; try discriminate;
      (destruct (predict_proba m f) as [[[| [| x row] rows] |] | e'] eqn:Ep;
       simpl; intros H; inversion H; subst; try lra;
       apply (Hproba f ((x :: row) :: rows) (x :: row)); auto;
       apply fold_max_in).
Qed.

End Scores.

Section SignaturePath.

(** The fixed confidence the analyzer of a domain gives a signature hit. *)
Lemma signature_alert (d : Domain) (w : World) (line : string) (m : Model)
      (c : Category) :
  model_of d (self w) = Some m ->
  truth m = Ret true ->
  deciding d line = Some c ->
  exists a w',
    analyze d line w = (Ret (Some a), w')
    /\ attack_type a = reason c
    /\ severity a = level c
    /\ confidence a = round4 (match d with Email => 0.90 | _ => 0.95 end)%Q
    /\ calls w' = (calls w ++ [EvSignature])%list.
Proof.
  destruct d; unfold deciding, model_of; intros Hm Ht Hdec; run_monad;
    rewrite Hm; simpl; rewrite Ht; simpl.
  - destruct (parse_log_line line) as [[p |] | e]; try discriminate. simpl.
    pose proof (web_signature_deciding p) as H. rewrite Hdec in H.
    destruct H as [Hsig Hlevel]. rewrite Hsig, Hlevel. simpl.
    eexists. eexists. split; [reflexivity | repeat split].
  - destruct (truthy (parse_db_log line)); [| discriminate]. simpl.
    pose proof (db_signature_deciding (parse_db_log line)) as H.
    rewrite Hdec in H.
    destruct H as [Hsig Hlevel]. rewrite Hsig, Hlevel. simpl.
    eexists. eexists. split; [reflexivity | repeat split].
  - destruct (parse_log_line line) as [[p |] | e]; try discriminate. simpl.
    pose proof (email_signature_deciding p) as H. rewrite Hdec in H.
    rewrite H. simpl.
    eexists. eexists. split; [reflexivity | repeat split].
Qed.

(** On a line that parses, a rule fires exactly when some category decides. *)
Lemma fires_deciding (d : Domain) (line : string) :
  parses d line = true ->
  signature_fires d line = true ->
  exists c, deciding d line = Some c.
Proof.
  destruct d; unfold parses, signature_fires, deciding; intros Hparse Hfire.
  - destruct (parse_log_line line) as [[p |] | e]; try discriminate.
    pose proof (web_signature_deciding p) as H.
    destruct (last_match _) as [c |]; [eauto | congruence].
  - rewrite Hparse.
    pose proof (db_signature_deciding (parse_db_log line)) as H.
    destruct (last_match _) as [c |]; [eauto | congruence].
  - destruct (parse_log_line line) as [[p |] | e]; try discriminate.
    pose proof (email_signature_deciding p) as H.
    destruct (last_match _) as [c |]; [eauto | congruence].
Qed.

End SignaturePath.

Section AnalyzerClaims.
Local Open Scope Q_scope.

(** C1 (as stated, refuted): with no web artifact loaded, a line whose URL is
    [/admin] parses and makes the web rules fire, yet the analyzer returns
    [None]. *)
Lemma C1_counterexample :
  model_of Web (self Samples.degraded) = None
  /\ parses Web Samples.admin_panel = true
  /\ signature_fires Web Samples.admin_panel = true
  /\ analyze Web Samples.admin_panel Samples.degraded
     = (Ret None, Samples.degraded).
Proof. repeat split; vm_compute; reflexivity. Qed.

(** C1 on the [/admin] line with no artifact loaded. *)
Lemma C1_unloaded_model_skips_analysis_witness :
  analyze Web Samples.admin_panel Samples.degraded
  = (Ret None, Samples.degraded).
Proof.
  apply (C1_unloaded_model_skips_analysis Web Samples.degraded
                                          Samples.admin_panel).
  reflexivity.
Defined.



(** C2 (as stated, refuted): the URL of the line matches the admin/command
    category, its user agent the attacker-tool category, and the alert
    reports the tool, not the admin/command access. *)
Lemma C2_counterexample :
  exists p a w',
    parse_log_line Samples.admin_by_sqlmap = Ret (Some p)
    /\ any_in admin_command_tokens (lower (url p)) = true
    /\ any_in attacker_tools (lower (Preprocess.user_agent p)) = true
    /\ analyze Web Samples.admin_by_sqlmap (Samples.loaded Samples.scoreless)
       = (Ret (Some a), w')
    /\ attack_type a = "Suspicious tool: sqlmap/1.0"%string
    /\ attack_type a <> "Admin/command access detected"%string.
Proof.
  eexists. eexists. eexists.
  split; [vm_compute; reflexivity |].
  split; [vm_compute; reflexivity |].
  split; [vm_compute; reflexivity |].
  split; [vm_compute; reflexivity |].
  split; [reflexivity | discriminate].
Qed.

(** C2 (as the code has it): with the artifact of the domain loaded and
    counting as true, the category that decides a line (the last matching
    one in the order of evaluation, the four web URL categories counting as
    one stage decided by its first matching member) gives the alert its
    attack type and severity; and on a web line whose user agent names an
    attacker tool, that category decides whatever the URL matches. *)
Theorem C2_last_matching_category_decides
        (d : Domain) (w : World) (line : string) (m : Model) :
  model_of d (self w) = Some m ->
  truth m = Ret true ->
  (forall c,
      deciding d line = Some c ->
      exists a w',
        analyze d line w = (Ret (Some a), w')
        /\ attack_type a = reason c /\ severity a = level c)
  /\ (forall p,
         parse_log_line line = Ret (Some p) ->
         fires (web_tool_category p) = true ->
         deciding Web line = Some (web_tool_category p)).
Proof.
  intros Hm Ht. split.
  - intros c Hc.
    destruct (signature_alert d w line m c Hm Ht Hc)
      as (a & w' & Hrun & Hreason & Hlevel & _).
    eauto.
  - intros p Hp Hfires. unfold deciding. rewrite Hp.
    unfold last_match. rewrite rev_app_distr. cbn [rev app find].
    rewrite Hfires. reflexivity.
Qed.

(** C2 on a mail line that matches the phishing, the dangerous-payload and
    the automation categories: the last of them decides. *)
Lemma C2_last_matching_category_decides_witness :
  exists a w',
    analyze Email Samples.malware_by_curl (Samples.loaded Samples.scoreless)
    = (Ret (Some a), w')
    /\ attack_type a = "Suspicious email client: curl/7.64.1"%string
    /\ severity a = "HIGH"%string.
Proof.
  apply (proj1 (C2_last_matching_category_decides
                  Email (Samples.loaded Samples.scoreless)
                  Samples.malware_by_curl Samples.scoreless eq_refl eq_refl)
               {| fires := true;
                  reason := "Suspicious email client: curl/7.64.1";
                  level := "HIGH" |}).
  vm_compute. reflexivity.
Defined.

End AnalyzerClaims.

Section ConfidenceClaims.
Local Open Scope Q_scope.









(** C6 (as stated, refuted): an artifact whose decision value on the row is
    -2 makes the web analyzer return an alert of confidence 2. *)
Lemma C6_counterexample :
  exists a w',
    analyze Web Samples.homepage (Samples.loaded Samples.far_outlier)
    = (Ret (Some a), w')
    /\ confidence a == 2
    /\ ~ confidence a <= 1.
Proof.
  eexists. eexists.
  split; [vm_compute; reflexivity |].
  split; [reflexivity |].
  vm_compute. intros H. apply H. reflexivity.
Qed.

(** C6 (as the code has it): an alert returned by an analyzer has a
    confidence between 0 and 1 whenever it comes from a signature hit, and
    whenever it comes from an artifact whose raw scores are normalized. *)
Theorem C6_confidence_in_unit_interval
        (d : Domain) (w : World) (line : string) (a : Alert) :
  (forall m,
      model_of d (self w) = Some m -> signature_fires d line = false ->
      scores_normalized m) ->
  fst (analyze d line w) = Ret (Some a) ->
  0 <= confidence a <= 1.
Proof.
  intros Hnorm Ha.
  destruct (alert_needs_model_and_parse d w line a Ha)
    as [[m [Hm Ht]] Hparse].
  destruct (signature_fires d line) eqn:Hsig.
  - destruct (fires_deciding d line Hparse Hsig) as [c Hc].
    destruct (signature_alert d w line m c Hm Ht Hc)
      as (a' & w' & Hrun & _ & _ & Hconf & _).
    rewrite Hrun in Ha. simpl in Ha. inversion Ha; subst a'.
    rewrite Hconf. destruct d; vm_compute; split; discriminate.
  - destruct (ml_inversion d w line m a Hm Hparse Hsig Ha)
      as (c & w2 & Hprobe & Hconf).
    rewrite Hconf. apply round4_unit.
    eapply probe_normalized; [| exact Hprobe]. now apply Hnorm.
Qed.

End ConfidenceClaims.

Section MoreWitnesses.
Local Open Scope Q_scope.

Lemma near_outlier_normalized : scores_normalized Samples.near_outlier.
Proof.
  split.
  - intros f ds d Hds Hd. simpl in Hds. inversion Hds; subst.
    simpl in Hd. inversion Hd; subst. vm_compute. discriminate.
  - intros f rows row x Hrows Hrow Hx. simpl in Hrows.
    inversion Hrows; subst. simpl in Hrow. inversion Hrow; subst.
    simpl in Hx. destruct Hx as [<- | [<- | []]];
      vm_compute; split; discriminate.
Defined.

(** C6 on the homepage request, for an artifact with decision value -0.25. *)
Lemma C6_confidence_in_unit_interval_witness :
  exists a,
    fst (analyze Web Samples.homepage (Samples.loaded Samples.near_outlier))
    = Ret (Some a)
    /\ 0 <= confidence a <= 1.
Proof.
  eexists. split.
  - vm_compute. reflexivity.
  - apply (C6_confidence_in_unit_interval
             Web (Samples.loaded Samples.near_outlier) Samples.homepage).
    + intros m Hm _. inversion Hm. exact near_outlier_normalized.
    + vm_compute. reflexivity.
Defined.

End MoreWitnesses.

(* ------------------------------------------------------------------ *)
(** ** Properties of the routes *)

Section Routes.
Import Api.

Lemma unsupported_eqb (tag : string) :
  unsupported tag ->
  String.eqb tag "web" = false /\ String.eqb tag "db" = false
  /\ String.eqb tag "email" = false.
Proof.
  intros (Hweb & Hdb & Hemail). repeat split; now apply String.eqb_neq.
Qed.

(** The loop of the bulk route does nothing for a tag without analyzer. *)
Lemma bulk_loop_unsupported (tag : string) (logs : list string) :
  unsupported tag ->
  forall detected w, bulk_loop tag logs detected w = (Ret detected, w).
Proof.
  intros Htag. destruct (unsupported_eqb tag Htag) as (Hweb & Hdb & Hemail).
  induction logs as [| log_line rest IH]; intros detected w; simpl.
  - reflexivity.
  - rewrite Hweb, Hdb, Hemail. unfold bind, ret. simpl. apply IH.
Qed.

(** C5 (evaluated on the code): for a tag that is none of [web], [db] and
    [email], the single-line route answers 400 with an error naming the tag,
    whereas the bulk route answers 200 for any non-empty list of lines, with
    a count of the lines, no alert, and nothing changed. *)
Theorem C5_unsupported_tag
        (w : World) (tag line : string) (first : string) (rest : list string) :
  unsupported tag ->
  truthy line = true ->
  analyze_log (Some w) {| log_line := Some line; log_type := Some tag |}
  = ((Error ("Unknown log type: " ++ tag), 400), Some w)
  /\ bulk_analyze_logs (Some w)
       {| logs := Some (first :: rest); bulk_type := Some tag |}
     = ((BulkAnalysis (Z.of_nat (List.length (first :: rest))) 0 [], 200),
        Some w).
Proof.
  intros Htag Hline.
  destruct (unsupported_eqb tag Htag) as (Hweb & Hdb & Hemail).
  split.
  - unfold analyze_log, get. cbn [log_line log_type].
    rewrite Hline, Hweb, Hdb, Hemail. reflexivity.
  - unfold bulk_analyze_logs, get. cbn [logs bulk_type].
    unfold bind at 1.
    rewrite (bulk_loop_unsupported tag (first :: rest) Htag [] w).
    unfold bind, log_deployment, ret. print_error. reflexivity.
Qed.

(** C5 on the tag [ftp]. *)
Lemma C5_unsupported_tag_witness :
  analyze_log (Some (Samples.loaded Samples.scoreless))
              {| log_line := Some Samples.admin_panel;
                 log_type := Some "ftp" |}
  = ((Error "Unknown log type: ftp", 400),
     Some (Samples.loaded Samples.scoreless))
  /\ bulk_analyze_logs (Some (Samples.loaded Samples.scoreless))
       {| logs := Some [Samples.admin_panel; Samples.drop_users];
          bulk_type := Some "ftp" |}
     = ((BulkAnalysis 2 0 [], 200), Some (Samples.loaded Samples.scoreless)).
Proof.
  apply (C5_unsupported_tag (Samples.loaded Samples.scoreless) "ftp"
                            Samples.admin_panel Samples.admin_panel
                            [Samples.drop_users]).
  - repeat split; discriminate.
  - reflexivity.
Defined.

End Routes.

(* ------------------------------------------------------------------ *)
(** ** The analyzers, path by path *)

(** Passing the guard of an analyzer whose artifact is loaded and counts as
    true. *)
Ltac enter_analyzer Hm Ht :=
  unfold analyze, analyze_web_log, analyze_db_log, analyze_email_log;
  unfold bind at 1; unfold get_self; cbv beta iota; rewrite Hm; run_monad;
  rewrite Ht; simpl.

Section Paths.
Import Notions Manager.

#[local] Arguments probe_confidence : simpl never.

(** A signature hit: the alert is created right after the rules. *)
Lemma analyze_signature_path (d : Domain) (w : World) (line : string)
      (m : Model) (x : AlertArgs) :
  model_of d (self w) = Some m ->
  truth m = Ret true ->
  signature_args d line = Some x ->
  analyze d line w = created (create x (entered [EvSignature] w)).
Proof.
  destruct d; unfold signature_args, model_of; intros Hm Ht Hx;
    enter_analyzer Hm Ht.
  - destruct (parse_log_line line) as [[p |] | e]; try discriminate. simpl.
    destruct (web_signature p) as [[|] r]; [| discriminate].
    inversion Hx; subst. reflexivity.
  - destruct (truthy (parse_db_log line)); [| discriminate]. simpl.
    destruct (db_signature (parse_db_log line)) as [[|] r]; [| discriminate].
    inversion Hx; subst. reflexivity.
  - destruct (parse_log_line line) as [[p |] | e]; try discriminate. simpl.
    destruct (email_signature p) as [[[|] r] sev]; [| discriminate].
    inversion Hx; subst. reflexivity.
Qed.

(** No signature hit: the classifier decides. *)
Lemma analyze_classifier_path (d : Domain) (w : World) (line : string)
      (m : Model) :
  model_of d (self w) = Some m ->
  truth m = Ret true ->
  parses d line = true ->
  signature_fires d line = false ->
  analyze d line w
  = match predict m (features d line) with
    | Ret (prediction :: _) =>
        match probe_confidence m (features d line)
                (entered [EvSignature; EvFeatures; EvPredict] w) with
        | (Ret c, w2) =>
            if prediction =? -1 then created (create (ml_args d line c) w2)
            else (Ret None, w2)
        | (Raise _, w2) => (Ret None, w2)
        end
    | _ => (Ret None, entered [EvSignature; EvFeatures; EvPredict] w)
    end.
Proof.
  destruct d; unfold parses, signature_fires, features, ml_args, model_of;
    intros Hm Ht Hparse Hsig; enter_analyzer Hm Ht.
  - destruct (parse_log_line line) as [[p |] | e]; try discriminate. simpl.
    destruct (web_signature p) as [fired r]. simpl in Hsig. subst fired.
    simpl.
    destruct (predict m (extract_features p)) as [[| pr rest] | e];
      simpl; try reflexivity; try (print_error; reflexivity).
    destruct (probe_confidence _ _ _) as [[c | e] w2]; simpl;
      try reflexivity; try (print_error; reflexivity).
    destruct (pr =? -1); reflexivity.
  - rewrite Hparse. simpl.
    destruct (db_signature (parse_db_log line)) as [fired r].
    simpl in Hsig. subst fired. simpl.
    destruct (predict m (extract_sql_features (parse_db_log line)))
      as [[| pr rest] | e]; simpl; try reflexivity;
      try (print_error; reflexivity).
    destruct (probe_confidence _ _ _) as [[c | e] w2]; simpl;
      try reflexivity; try (print_error; reflexivity).
    destruct (pr =? -1); reflexivity.
  - destruct (parse_log_line line) as [[p |] | e]; try discriminate. simpl.
    destruct (email_signature p) as [[fired r] sev]. simpl in Hsig.
    subst fired. simpl.
    destruct (predict m (extract_features p)) as [[| pr rest] | e];
      simpl; try reflexivity; try (print_error; reflexivity).
    destruct (probe_confidence _ _ _) as [[c | e] w2]; simpl;
      try reflexivity; try (print_error; reflexivity).
    destruct (pr =? -1); reflexivity.
Qed.

(** On a line that parses, a rule fires exactly when there are arguments
    for a signature alert. *)
Lemma signature_args_fires (d : Domain) (line : string) :
  parses d line = true ->
  signature_fires d line = true ->
  exists x, signature_args d line = Some x.
Proof.
  destruct d; unfold parses, signature_fires, signature_args;
    intros Hparse Hfire.
  - destruct (parse_log_line line) as [[p |] | e]; try discriminate.
    destruct (web_signature p) as [fired r]. simpl in Hfire. subst. eauto.
  - rewrite Hparse.
    destruct (db_signature (parse_db_log line)) as [fired r].
    simpl in Hfire. subst. eauto.
  - destruct (parse_log_line line) as [[p |] | e]; try discriminate.
    destruct (email_signature p) as [[fired r] sev]. simpl in Hfire.
    subst. eauto.
Qed.

(** The probe writes nothing but the record of stages. *)
Lemma probe_same_but_calls (m : Model) (f : FeatureVector) (w : World) :
  same_but_calls w (snd (probe_confidence m f w)).
Proof.
  unfold probe_confidence, try_except, call, bind, tick, index0, py_max,
         ret, raise, same_but_calls.
  simpl.
  destruct (decision_function m f) as [[| d ds] | e]; simpl; auto.
  destruct e; simpl; auto;
    destruct (predict_proba m f) as [[[| [| x row] rows] |] | e'];
    simpl; auto.
Qed.

Lemma entered_same_but_calls (es : list Event) (w : World) :
  same_but_calls w (entered es w).
Proof.
  revert w. induction es as [| e es IH]; intros w; simpl.
  - repeat split.
  - destruct (IH (snd (tick e w))) as (H1 & H2 & H3 & H4).
    unfold entered in *. simpl in *. repeat split; assumption.
Qed.

End Paths.

Section AnalyzerEffects.
Import Notions Manager.
Local Open Scope Q_scope.

#[local] Arguments probe_confidence : simpl never.

(** One insertion, with everything it touches. *)
Lemma create_effect (x : AlertArgs) (w : World) :
  exists a w',
    create x w = (Ret a, w')
    /\ args_of a = rounded x
    /\ id a = (Z.of_nat (List.length (alerts (self w))) + 1)%Z
    /\ timestamp a = clock w
    /\ status a = "active"%string
    /\ alerts (self w')
       = pushed (max_alerts (self w)) (alerts (self w)) a
    /\ max_alerts (self w') = max_alerts (self w)
    /\ web_model (self w') = web_model (self w)
    /\ db_model (self w') = db_model (self w)
    /\ email_model (self w') = email_model (self w)
    /\ clock w' = S (clock w)
    /\ alerts_file w' = alerts_file w
    /\ calls w' = calls w
    /\ console w' = console w.
Proof.
  unfold create, _create_alert, bind, get_self, datetime_now, set_alerts, ret.
  simpl. eexists. eexists. split; [reflexivity |].
  repeat split.
Qed.

(** The guard of an analyzer answers, or the truth value of the loaded
    artifact raises. *)
Lemma guard_cases (d : Domain) (mgr : IDSManager) :
  guard_answers d mgr = true
  \/ exists m e, model_of d mgr = Some m /\ truth m = Raise e.
Proof.
  unfold guard_answers. destruct (model_of d mgr) as [m |]; [| now left].
  destruct (truth m) as [b | e] eqn:Ht; [now left | right; eauto].
Qed.

(** What the guard lets through: a loaded artifact that counts as true. *)
Lemma guard_passes (d : Domain) (mgr : IDSManager) :
  guard_answers d mgr = true ->
  model_of d mgr = None
  \/ (exists m, model_of d mgr = Some m /\ truth m = Ret false)
  \/ (exists m, model_of d mgr = Some m /\ truth m = Ret true).
Proof.
  unfold guard_answers. destruct (model_of d mgr) as [m |]; [| now left].
  destruct (truth m) as [[|] | e] eqn:Ht; try discriminate; eauto.
Qed.

(** Without a loaded artifact, or on a line that does not parse, an analyzer
    whose guard answers returns [None] and changes nothing. *)
Lemma analyze_skips (d : Domain) (w : World) (line : string) :
  guard_answers d (self w) = true ->
  model_of d (self w) = None \/ parses d line = false ->
  analyze d line w = (Ret None, w).
Proof.
  unfold guard_answers. intros Hguard [Hnone | Hparse].
  - destruct d; simpl in Hnone; run_monad; rewrite Hnone; reflexivity.
  - destruct d; simpl in Hguard, Hparse; run_monad;
      (destruct (_ (self w)) as [m |]; [| reflexivity]); simpl;
      (destruct (truth m) as [[|] | e0]; [| reflexivity | discriminate]);
      simpl; try (rewrite Hparse; reflexivity);
      (destruct (parse_log_line line) as [[p |] | e]; simpl;
       [discriminate | reflexivity | print_error; reflexivity]).
Qed.

(** What an analyzer whose guard answers returns and where it leaves the
    world, in terms of the arguments of the one [_create_alert] call it may
    make. *)
Lemma analyze_cases (d : Domain) (w : World) (line : string) :
  guard_answers d (self w) = true ->
  (exists w', analyze d line w = (Ret None, w') /\ same_but_calls w w')
  \/ (exists x w1,
         analyze d line w = created (create x w1)
         /\ same_but_calls w w1
         /\ parses d line = true
         /\ (signature_args d line = Some x
             \/ (signature_fires d line = false
                 /\ exists c, x = ml_args d line c))).
Proof.
  intros Hguard.
  destruct (guard_passes d (self w) Hguard)
    as [Hnone | [(m & Hm & Ht) | (m & Hm & Ht)]].
  1: { left. exists w. rewrite analyze_skips by auto. repeat split. }
  1: { left. exists w. rewrite (analyze_skips_false d line w m Hm Ht).
       repeat split. }
  destruct (parses d line) eqn:Hparse.
  2: { left. exists w. rewrite analyze_skips by auto. repeat split. }
  destruct (signature_fires d line) eqn:Hsig.
  - destruct (signature_args_fires d line Hparse Hsig) as [x Hx].
    right. exists x, (entered [EvSignature] w).
    rewrite (analyze_signature_path d w line m x Hm Ht Hx).
    repeat split; auto; apply (entered_same_but_calls [EvSignature] w).
  - rewrite (analyze_classifier_path d w line m Hm Ht Hparse Hsig).
    pose proof (entered_same_but_calls [EvSignature; EvFeatures; EvPredict] w)
      as Hent.
    pose proof (probe_same_but_calls
                  m (features d line)
                  (entered [EvSignature; EvFeatures; EvPredict] w)) as Hprobe.
    assert (Hboth : same_but_calls w
              (snd (probe_confidence m (features d line)
                      (entered [EvSignature; EvFeatures; EvPredict] w)))).
    { destruct Hent as (H1 & H2 & H3 & H4), Hprobe as (H5 & H6 & H7 & H8).
      repeat split; congruence. }
    destruct (predict m (features d line)) as [[| pr rest] | e];
      try (left; eexists; split; [reflexivity | exact Hent]).
    destruct (probe_confidence _ _ _) as [[c | e] w2]; simpl in Hboth;
      try (left; eexists; split; [reflexivity | exact Hboth]).
    destruct (pr =? -1)%Z;
      try (left; eexists; split; [reflexivity | exact Hboth]).
    right. exists (ml_args d line c), w2. repeat split; eauto; apply Hboth.
Qed.

End AnalyzerEffects.

Section AnalyzerExtras.
Import Notions Manager.
Local Open Scope Q_scope.

#[local] Arguments probe_confidence : simpl never.

(** X1: when the truth value of the loaded artifact raises, the analyzer
    raises the same at its guard and has changed nothing.  Otherwise (the
    guard answers) it returns, never touches the loaded artifacts, the capacity or the
    persisted snapshot, and either returns [None] with the store and the
    clock as they were, or returns one alert that it has appended to the
    store (dropping the oldest entry beyond the capacity), numbered with the
    length of the store plus one and stamped with the clock. *)
Theorem analyze_appends_what_it_returns
        (d : Domain) (line : string) (w : World) :
  (forall m e,
      model_of d (self w) = Some m -> truth m = Raise e ->
      analyze d line w = (Raise e, w))
  /\ (guard_answers d (self w) = true ->
      exists r w',
        analyze d line w = (Ret r, w')
        /\ web_model (self w') = web_model (self w)
        /\ db_model (self w') = db_model (self w)
        /\ email_model (self w') = email_model (self w)
        /\ max_alerts (self w') = max_alerts (self w)
        /\ alerts_file w' = alerts_file w
        /\ match r with
           | None => alerts (self w') = alerts (self w) /\ clock w' = clock w
           | Some a =>
               alerts (self w')
               = pushed (max_alerts (self w)) (alerts (self w)) a
               /\ id a = (Z.of_nat (List.length (alerts (self w))) + 1)%Z
               /\ timestamp a = clock w
               /\ clock w' = S (clock w)
           end).
Proof.
  split; [intros m e Hm Ht; exact (analyze_raises d line w m e Hm Ht) |].
  intros Hguard.
  destruct (analyze_cases d w line Hguard)
    as [(w' & Hrun & Hs & Hc & Hf & _)
       | (x & w1 & Hrun & (Hs & Hc & Hf & _) & _)].
  - exists None, w'. rewrite Hs, Hc, Hf. repeat split. exact Hrun.
  - destruct (create_effect x w1)
      as (a & w' & Hcreate & _ & Hid & Hts & _ & Hal & Hmax & Hweb & Hdb
          & Hemail & Hclock & Hfile & _).
    exists (Some a), w'. rewrite Hrun, Hcreate.
    rewrite Hs in *. rewrite Hc in *. rewrite Hf in *.
    repeat split; assumption.
Qed.

Lemma pushed_length (cap : nat) (l : list Alert) (a : Alert) :
  (List.length l <= cap)%nat -> (List.length (pushed cap l a) <= cap)%nat.
Proof.
  intros Hle. unfold pushed. rewrite push_is_lastn by exact Hle.
  rewrite lastn_length. lia.
Qed.

(** An analyzer keeps a store within its bound. *)
Lemma analyze_bounded (d : Domain) (line : string) (w : World) :
  bounded w -> bounded (snd (analyze d line w)).
Proof.
  intros Hb. unfold bounded in *.
  destruct (guard_cases d (self w)) as [Hguard | (m & e & Hm & Ht)].
  2: { rewrite (analyze_raises d line w m e Hm Ht). exact Hb. }
  destruct (analyze_cases d w line Hguard)
    as [(w' & Hrun & Hs & _) | (x & w1 & Hrun & (Hs & _) & _)].
  - rewrite Hrun. simpl. now rewrite Hs.
  - destruct (create_effect x w1)
      as (a & w' & Hcreate & _ & _ & _ & _ & Hal & Hmax & _).
    rewrite Hrun, Hcreate. simpl. rewrite Hal, Hmax, Hs.
    now apply pushed_length.
Qed.

End AnalyzerExtras.

Section ClassifierExtras.
Import Notions Manager.
Local Open Scope Q_scope.

#[local] Arguments probe_confidence : simpl never.

(** X2: when a rule fires on a line (artifact loaded and counting as true),
    the alert is built from the line alone, with the fixed confidence of the
    domain, and the only stage entered is the signature stage: no method of
    the classifier is called, whatever they would answer. *)
Theorem signature_hit_skips_classifier
        (d : Domain) (w : World) (line : string) (m : Model) :
  model_of d (self w) = Some m ->
  truth m = Ret true ->
  parses d line = true ->
  signature_fires d line = true ->
  exists x a w',
    signature_args d line = Some x
    /\ analyze d line w = (Ret (Some a), w')
    /\ args_of a = rounded x
    /\ arg_confidence x = match d with Email => 0.90 | _ => 0.95 end
    /\ calls w' = (calls w ++ [EvSignature])%list.
Proof.
  intros Hm Ht Hparse Hsig.
  destruct (signature_args_fires d line Hparse Hsig) as [x Hx].
  destruct (create_effect x (entered [EvSignature] w))
    as (a & w' & Hcreate & Hargs & _ & _ & _ & _ & _ & _ & _ & _ & _ & _
        & Hcalls & _).
  exists x, a, w'. repeat split; try assumption.
  - rewrite (analyze_signature_path d w line m x Hm Ht Hx), Hcreate.
    reflexivity.
  - clear - Hx. destruct d; unfold signature_args in Hx.
    + destruct (parse_log_line line) as [[p |] | e]; try discriminate.
      destruct (web_signature p) as [[|] r]; inversion Hx. reflexivity.
    + destruct (truthy (parse_db_log line)); [| discriminate].
      destruct (db_signature _) as [[|] r]; inversion Hx. reflexivity.
    + destruct (parse_log_line line) as [[p |] | e]; try discriminate.
      destruct (email_signature p) as [[[|] r] s]; inversion Hx. reflexivity.
Qed.

(** X2 on the [/admin] request, with an artifact whose [predict] fails. *)
Lemma signature_hit_skips_classifier_witness :
  exists x a w',
    signature_args Web Samples.admin_panel = Some x
    /\ analyze Web Samples.admin_panel (Samples.loaded Cases.broken)
       = (Ret (Some a), w')
    /\ args_of a = rounded x
    /\ arg_confidence x = 0.95
    /\ calls w' = [EvSignature].
Proof.
  apply (signature_hit_skips_classifier
           Web (Samples.loaded Cases.broken) Samples.admin_panel Cases.broken);
    vm_compute; reflexivity.
Defined.

Lemma probe_raises (m : Model) (f : FeatureVector) (w : World) :
  (exists e, decision_function m f = Raise e
             /\ e <> AttributeError /\ e <> TypeError)
  \/ decision_function m f = Ret [] ->
  exists e, fst (probe_confidence m f w) = Raise e.
Proof.
  unfold probe_confidence, try_except, call, bind, tick, index0, ret, raise.
  simpl.
  intros [(e & -> & Ha & Ht) | ->]; simpl.
  - destruct e; simpl; try congruence; eauto.
  - eauto.
Qed.

(** X3: past the guard (the artifact is loaded and counts as true), a
    failing classifier call on a line no rule fires on gives no alert: when
    [predict] raises or returns no label, or when the decision function
    raises anything but the two exceptions the analyzer catches there (or
    returns no value), the analyzer returns [None] and the manager is as it
    was, even if [predict] had flagged the row. *)
Theorem classifier_failure_gives_no_alert
        (d : Domain) (w : World) (line : string) (m : Model) :
  model_of d (self w) = Some m ->
  truth m = Ret true ->
  parses d line = true ->
  signature_fires d line = false ->
  (exists e, predict m (features d line) = Raise e)
  \/ predict m (features d line) = Ret []
  \/ (exists e, decision_function m (features d line) = Raise e
                /\ e <> AttributeError /\ e <> TypeError)
  \/ decision_function m (features d line) = Ret [] ->
  exists w',
    analyze d line w = (Ret None, w') /\ self w' = self w.
Proof.
  intros Hm Ht Hparse Hsig Hfail.
  rewrite (analyze_classifier_path d w line m Hm Ht Hparse Hsig).
  pose proof (entered_same_but_calls [EvSignature; EvFeatures; EvPredict] w)
    as (Hent & _).
  pose proof (probe_same_but_calls
                m (features d line)
                (entered [EvSignature; EvFeatures; EvPredict] w))
    as (Hprobe & _).
  destruct Hfail as [[e ->] | [-> | Hdec]]; try (eexists; split; eauto; fail).
  destruct (predict m (features d line)) as [[| pr rest] | e'];
    try (eexists; split; eauto; fail).
  destruct (probe_raises m (features d line)
                         (entered [EvSignature; EvFeatures; EvPredict] w) Hdec)
    as [e He].
  destruct (probe_confidence _ _ _) as [[c | e''] w2]; simpl in *;
    [discriminate |].
  eexists. split; [reflexivity | congruence].
Qed.

(** X3 on the homepage request, with an artifact that flags the row but
    whose decision function raises [ValueError]. *)
Lemma classifier_failure_gives_no_alert_witness :
  exists w',
    analyze Web Samples.homepage (Samples.loaded Cases.scores_fail)
    = (Ret None, w')
    /\ self w' = self (Samples.loaded Cases.scores_fail).
Proof.
  apply (classifier_failure_gives_no_alert
           Web (Samples.loaded Cases.scores_fail) Samples.homepage
           Cases.scores_fail eq_refl eq_refl).
  - vm_compute. reflexivity.
  - vm_compute. reflexivity.
  - right. right. left. exists ValueError.
    split; [vm_compute; reflexivity | split; discriminate].
Defined.

(** X4: a line no rule fires on and that the artifact labels with anything
    but -1 gives no alert, and the manager is as it was. *)
Theorem other_label_gives_no_alert
        (d : Domain) (w : World) (line : string) (m : Model)
        (label : Z) (rest : list Z) :
  model_of d (self w) = Some m ->
  parses d line = true ->
  signature_fires d line = false ->
  predict m (features d line) = Ret (label :: rest) ->
  label <> (-1)%Z ->
  exists w',
    analyze d line w = (Ret None, w') /\ self w' = self w.
Proof.
  intros Hm Hparse Hsig Hpred Hlabel.
  rewrite (analyze_classifier_path d w line m Hm
               (predict_fitted _ _ _ Hpred) Hparse Hsig), Hpred.
  pose proof (entered_same_but_calls [EvSignature; EvFeatures; EvPredict] w)
    as (Hent & _).
  pose proof (probe_same_but_calls
                m (features d line)
                (entered [EvSignature; EvFeatures; EvPredict] w))
    as (Hprobe & _).
  destruct (probe_confidence _ _ _) as [[c | e] w2]; simpl in *.
  - destruct (Z.eqb_spec label (-1)); [contradiction |].
    eexists. split; [reflexivity | congruence].
  - eexists. split; [reflexivity | congruence].
Qed.

(** X4 on a benign query, with an artifact that labels every row 1. *)
Lemma other_label_gives_no_alert_witness :
  exists w',
    analyze Db Samples.benign_query (Samples.loaded Cases.labels_one)
    = (Ret None, w')
    /\ self w' = self (Samples.loaded Cases.labels_one).
Proof.
  apply (other_label_gives_no_alert
           Db (Samples.loaded Cases.labels_one) Samples.benign_query
           Cases.labels_one 1%Z [] eq_refl);
    try (vm_compute; reflexivity).
  discriminate.
Defined.

End ClassifierExtras.

Section ConfidenceExtras.
Import Notions Manager.
Local Open Scope Q_scope.

#[local] Arguments probe_confidence : simpl never.






Lemma take_length (n : nat) (s : string) :
  (String.length (take n s) <= n)%nat.
Proof.
  unfold take. revert s. induction n as [| n IH]; intros s.
  - destruct s; simpl; lia.
  - destruct s as [| c s]; simpl; [lia |]. specialize (IH s). lia.
Qed.

Lemma email_severity_levels (p : Parsed) :
  let sev := snd (email_signature p) in
  sev = "MEDIUM"%string \/ sev = "HIGH"%string \/ sev = "CRITICAL"%string.
Proof.
  unfold email_signature.
  generalize (any_in phishing_patterns (lower (url p))),
             (any_in spam_patterns (lower (url p))),
             (any_in dangerous_patterns (lower (url p))),
             (any_in suspicious_agents (lower (Preprocess.user_agent p))).
  intros [] [] [] []; cbn; auto.
Qed.

(** X6: every alert an analyzer returns is active and typed after its
    domain; web alerts are HIGH; db alerts are CRITICAL, name no source and
    no user agent, and carry the first 200 characters of the query; mail
    alerts name no user agent and are MEDIUM, HIGH or CRITICAL. *)
Theorem returned_alert_fields
        (d : Domain) (line : string) (w : World) (a : Alert) :
  fst (analyze d line w) = Ret (Some a) ->
  status a = "active"%string
  /\ match d with
     | Web =>
         alert_type a = "WEB_ANOMALY"%string /\ severity a = "HIGH"%string
     | Db =>
         alert_type a = "DB_ANOMALY"%string
         /\ severity a = "CRITICAL"%string
         /\ source_ip a = "Unknown"%string
         /\ user_agent a = "Unknown"%string
         /\ payload a = take 200 (parse_db_log line)
         /\ (String.length (payload a) <= 200)%nat
     | Email =>
         alert_type a = "EMAIL_ANOMALY"%string
         /\ user_agent a = "Unknown"%string
         /\ (severity a = "MEDIUM"%string \/ severity a = "HIGH"%string
             \/ severity a = "CRITICAL"%string)
     end.
Proof.
  intros Ha.
  destruct (alert_needs_model_and_parse d w line a Ha)
    as [(m & Hm & Ht) _].
  assert (Hguard : guard_answers d (self w) = true)
    by (unfold guard_answers; rewrite Hm, Ht; reflexivity).
  destruct (analyze_cases d w line Hguard)
    as [(w' & Hrun & _) | (x & w1 & Hrun & _ & Hparse & Hx)].
  { rewrite Hrun in Ha. discriminate. }
  destruct (create_effect x w1) as (a' & w' & Hcreate & Hargs & _ & _ & Hst & _).
  rewrite Hrun, Hcreate in Ha. simpl in Ha. inversion Ha; subst a'.
  split; [exact Hst |].
  assert (Hfields : alert_type a = arg_alert_type x
                    /\ severity a = arg_severity x
                    /\ source_ip a = arg_source_ip x
                    /\ user_agent a = arg_user_agent x
                    /\ payload a = arg_payload x).
  { repeat split;
      [ apply (f_equal arg_alert_type) in Hargs
      | apply (f_equal arg_severity) in Hargs
      | apply (f_equal arg_source_ip) in Hargs
      | apply (f_equal arg_user_agent) in Hargs
      | apply (f_equal arg_payload) in Hargs ]; exact Hargs. }
  destruct Hfields as (Hty & Hsev & Hip & Hua & Hpay).
  rewrite Hty, Hsev, Hip, Hua, Hpay.
  destruct d; unfold parses in Hparse.
  - destruct Hx as [Hx | (_ & c & ->)]; unfold signature_args, ml_args in *;
      destruct (parse_log_line line) as [[p |] | e]; try discriminate.
    + destruct (web_signature p) as [[|] r]; inversion Hx. auto.
    + auto.
  - assert (Hlen : (String.length (take 200 (parse_db_log line)) <= 200)%nat)
      by apply take_length.
    destruct Hx as [Hx | (_ & c & ->)]; unfold signature_args, ml_args in *.
    + rewrite Hparse in Hx.
      destruct (db_signature _) as [[|] r]; inversion Hx. simpl. auto 10.
    + simpl. auto 10.
  - destruct Hx as [Hx | (_ & c & ->)]; unfold signature_args, ml_args in *;
      destruct (parse_log_line line) as [[p |] | e]; try discriminate.
    + pose proof (email_severity_levels p) as Hlev.
      destruct (email_signature p) as [[[|] r] s]; inversion Hx.
      simpl in *. auto.
    + simpl. auto.
Qed.

(** X6 on the stacked [DROP TABLE] query. *)
Lemma returned_alert_fields_witness :
  exists a,
    fst (analyze Db Samples.drop_users (Samples.loaded Samples.scoreless))
    = Ret (Some a)
    /\ status a = "active"%string
    /\ alert_type a = "DB_ANOMALY"%string
    /\ severity a = "CRITICAL"%string
    /\ source_ip a = "Unknown"%string
    /\ user_agent a = "Unknown"%string
    /\ payload a = take 200 (parse_db_log Samples.drop_users)
    /\ (String.length (payload a) <= 200)%nat.
Proof.
  eexists. split.
  - vm_compute. reflexivity.
  - apply (returned_alert_fields
             Db Samples.drop_users (Samples.loaded Samples.scoreless)).
    vm_compute. reflexivity.
Defined.

End ConfidenceExtras.

(* ------------------------------------------------------------------ *)
(** ** Statistics, listing and clearing *)

Section Statistics.
Import Notions Manager.

Lemma dict_get_set_same {V} (k : string) (v def : V) (d : dict V) :
  dict_get (dict_set k v d) k def = v.
Proof.
  induction d as [| [k' v'] d IH]; simpl.
  - now rewrite String.eqb_refl.
  - destruct (String.eqb k' k) eqn:E; simpl; rewrite E; auto.
Qed.

Lemma dict_get_set_other {V} (k k' : string) (v def : V) (d : dict V) :
  k <> k' -> dict_get (dict_set k v d) k' def = dict_get d k' def.
Proof.
  intros Hne. induction d as [| [k0 v0] d IH]; simpl.
  - destruct (String.eqb_spec k k'); [contradiction | reflexivity].
  - destruct (String.eqb_spec k0 k) as [-> | Hk]; simpl.
    + destruct (String.eqb_spec k k'); [contradiction | reflexivity].
    + destruct (String.eqb k0 k'); auto.
Qed.

Lemma total_set (k : string) (v : Z) (d : dict Z) :
  total (dict_set k v d) = total d - dict_get d k 0 + v.
Proof.
  induction d as [| [k' v'] d IH]; simpl.
  - lia.
  - destruct (String.eqb k' k); simpl; lia.
Qed.

Lemma keys_set {V} (k : string) (v : V) (d : dict V) :
  keys (dict_set k v d) = keys d
  \/ (~ In k (keys d) /\ keys (dict_set k v d) = (keys d ++ [k])%list).
Proof.
  induction d as [| [k' v'] d IH]; simpl.
  - right. split; auto.
  - destruct (String.eqb_spec k' k) as [-> | Hne]; simpl.
    + now left.
    + destruct IH as [-> | [Hnin ->]]; [now left | right].
      split; [| reflexivity]. intros [H | H]; auto.
Qed.

Lemma nodup_set {V} (k : string) (v : V) (d : dict V) :
  NoDup (keys d) -> NoDup (keys (dict_set k v d)).
Proof.
  intros Hnd. destruct (keys_set k v d) as [-> | [Hnin ->]]; [assumption |].
  apply NoDup_app; [assumption | repeat constructor; auto |].
  intros x Hx [<- | []]. contradiction.
Qed.

(** The two dictionaries of the loop are counted separately. *)
Lemma count_alert_split (l : list Alert) :
  forall d1 d2,
    fold_left count_alert l (d1, d2)
    = (counted alert_type l d1, counted severity l d2).
Proof.
  induction l as [| a l IH]; intros d1 d2; simpl; [reflexivity |].
  apply IH.
Qed.

Lemma counted_get (field : Alert -> string) (k : string) (l : list Alert) :
  forall d,
    dict_get (counted field l d) k 0
    = dict_get d k 0 + Z.of_nat (List.length (having field k l)).
Proof.
  induction l as [| a l IH]; intros d; simpl; [lia |].
  unfold counted in *. simpl. rewrite IH.
  destruct (String.eqb_spec (field a) k) as [<- | Hne]; simpl.
  - rewrite dict_get_set_same. lia.
  - rewrite dict_get_set_other by exact Hne. lia.
Qed.

Lemma counted_total (field : Alert -> string) (l : list Alert) :
  forall d, total (counted field l d) = total d + Z.of_nat (List.length l).
Proof.
  induction l as [| a l IH]; intros d; simpl; [lia |].
  unfold counted in *. simpl. rewrite IH, total_set. lia.
Qed.

Lemma counted_nodup (field : Alert -> string) (l : list Alert) :
  forall d, NoDup (keys d) -> NoDup (keys (counted field l d)).
Proof.
  induction l as [| a l IH]; intros d Hnd; simpl; [assumption |].
  unfold counted in *. simpl. apply IH. now apply nodup_set.
Qed.

Lemma last_or_none_app {A} (l : list A) (a : A) :
  last_or_none (l ++ [a]) = Some a.
Proof. unfold last_or_none. now rewrite rev_app_distr. Qed.

(** X7: [get_statistics] changes nothing and reports the length of the store
    as the total; each of its two dictionaries has distinct keys, gives for
    every key the number of stored alerts with that type (or severity), which
    is also the number of alerts the listing returns for that key without
    limit, and its counts add up to the total; the last alert reported is the
    newest entry of the store. *)
Theorem statistics_agree_with_the_store (w : World) :
  exists stats,
    get_statistics w = (Ret stats, w)
    /\ total_alerts stats = Z.of_nat (List.length (alerts (self w)))
    /\ total (alert_types stats) = total_alerts stats
    /\ total (severity_distribution stats) = total_alerts stats
    /\ NoDup (keys (alert_types stats))
    /\ NoDup (keys (severity_distribution stats))
    /\ (forall k,
           dict_get (alert_types stats) k 0
           = Z.of_nat (List.length (having alert_type k (alerts (self w))))
           /\ dict_get (severity_distribution stats) k 0
              = Z.of_nat (List.length (having severity k (alerts (self w))))
           /\ (k <> EmptyString ->
               fst (get_alerts (Some k) None 0 w)
               = Ret (having alert_type k (alerts (self w)))
               /\ fst (get_alerts None (Some k) 0 w)
                  = Ret (having severity k (alerts (self w)))))
    /\ last_alert stats = last_or_none (alerts (self w))
    /\ (forall l a, alerts (self w) = (l ++ [a])%list ->
                    last_alert stats = Some a).
Proof.
  unfold get_statistics, bind, get_self, ret. simpl.
  rewrite count_alert_split. eexists. split; [reflexivity |]. simpl.
  repeat split.
  - rewrite counted_total. reflexivity.
  - rewrite counted_total. reflexivity.
  - apply counted_nodup. constructor.
  - apply counted_nodup. constructor.
  - rewrite counted_get. reflexivity.
  - rewrite counted_get. reflexivity.
  - unfold get_alerts, bind, get_self, ret, filter_by, slice_from, truthy.
    simpl. destruct (String.eqb_spec k EmptyString); [contradiction |].
    simpl. rewrite Z.min_l by lia. reflexivity.
  - unfold get_alerts, bind, get_self, ret, filter_by, slice_from, truthy.
    simpl. destruct (String.eqb_spec k EmptyString); [contradiction |].
    simpl. rewrite Z.min_l by lia. reflexivity.
  - intros l a ->. apply last_or_none_app.
Qed.

(** X8: [clear_alerts] empties the store and writes the empty list as the
    snapshot, keeping artifacts and capacity; afterwards the listing is empty
    for every filter and limit, the statistics report no alert, and the next
    alert created is numbered 1 again. *)
Theorem clear_alerts_resets_the_store (w : World) :
  exists w',
    clear_alerts w = (Ret tt, w')
    /\ alerts (self w') = []
    /\ alerts_file w' = Some []
    /\ web_model (self w') = web_model (self w)
    /\ db_model (self w') = db_model (self w)
    /\ email_model (self w') = email_model (self w)
    /\ max_alerts (self w') = max_alerts (self w)
    /\ (forall alert_type severity limit,
           get_alerts alert_type severity limit w' = (Ret [], w'))
    /\ (exists stats,
           get_statistics w' = (Ret stats, w')
           /\ total_alerts stats = 0 /\ last_alert stats = None
           /\ alert_types stats = [] /\ severity_distribution stats = [])
    /\ (forall x, exists a w'', create x w' = (Ret a, w'') /\ id a = 1).
Proof.
  unfold clear_alerts, set_alerts, save_alerts, bind. simpl.
  eexists. split; [reflexivity |]. simpl. repeat split.
  - intros t s limit.
    unfold get_alerts, bind, get_self, ret, filter_by, slice_from. simpl.
    destruct t as [t |], s as [s |];
      repeat (match goal with
              | |- context [truthy ?x] => destruct (truthy x)
              end); simpl;
      destruct (- limit <? 0); simpl; destruct (Z.to_nat _); reflexivity.
  - eexists. split; [reflexivity |]. repeat split.
  - intros x. unfold create, _create_alert, bind, get_self, datetime_now,
                     set_alerts, ret. simpl.
    eexists. eexists. split; reflexivity.
Qed.

End Statistics.

Section Frames.
Import Notions Manager.

#[local] Arguments probe_confidence : simpl never.

Lemma with_file_same (w : World) : with_file (alerts_file w) w = w.
Proof. destruct w. reflexivity. Qed.

Lemma create_frame (x : AlertArgs) (f : option (list Alert)) (w : World) :
  create x (with_file f w)
  = (fst (create x w), with_file f (snd (create x w))).
Proof. reflexivity. Qed.

Lemma probe_frame (m : Model) (fv : FeatureVector)
      (f : option (list Alert)) (w : World) :
  probe_confidence m fv (with_file f w)
  = (fst (probe_confidence m fv w),
     with_file f (snd (probe_confidence m fv w))).
Proof.
  unfold probe_confidence, try_except, call, lift, bind, tick, index0, py_max,
         ret, raise.
  simpl.
  destruct (decision_function m fv) as [[| d ds] | e]; simpl; auto.
  destruct e; simpl; auto;
    destruct (predict_proba m fv) as [[[| [| x row] rows] |] | e'];
    simpl; auto.
Qed.

(** An analyzer neither reads nor writes the persisted snapshot. *)
Lemma analyze_frame (d : Domain) (line : string)
      (f : option (list Alert)) (w : World) :
  analyze d line (with_file f w)
  = (fst (analyze d line w), with_file f (snd (analyze d line w))).
Proof.
  destruct (guard_cases d (self w)) as [Hguard | (m & e & Hm & Ht)].
  2: { rewrite (analyze_raises d line (with_file f w) m e Hm Ht),
               (analyze_raises d line w m e Hm Ht). reflexivity. }
  destruct (guard_passes d (self w) Hguard)
    as [Hnone | [(m & Hm & Ht) | (m & Hm & Ht)]].
  1: { rewrite (analyze_skips d (with_file f w) line Hguard (or_introl Hnone)),
               (analyze_skips d w line Hguard (or_introl Hnone)).
       reflexivity. }
  1: { rewrite (analyze_skips_false d line (with_file f w) m Hm Ht),
               (analyze_skips_false d line w m Hm Ht). reflexivity. }
  destruct (parses d line) eqn:Hparse.
  2: { rewrite (analyze_skips d (with_file f w) line Hguard (or_intror Hparse)),
               (analyze_skips d w line Hguard (or_intror Hparse)).
       reflexivity. }
  destruct (signature_fires d line) eqn:Hsig.
  - destruct (signature_args_fires d line Hparse Hsig) as [x Hx].
    rewrite (analyze_signature_path d (with_file f w) line m x Hm Ht Hx).
    rewrite (analyze_signature_path d w line m x Hm Ht Hx).
    reflexivity.
  - rewrite (analyze_classifier_path d (with_file f w) line m Hm Ht Hparse
               Hsig).
    rewrite (analyze_classifier_path d w line m Hm Ht Hparse Hsig).
    destruct (predict m (features d line)) as [[| pr rest] | e];
      try reflexivity.
    change (entered [EvSignature; EvFeatures; EvPredict] (with_file f w))
      with (with_file f (entered [EvSignature; EvFeatures; EvPredict] w)).
    rewrite probe_frame.
    destruct (probe_confidence _ _ _) as [[c | e] w2]; simpl; try reflexivity.
    destruct (pr =? -1); reflexivity.
Qed.

(** An analyzer that returns had a guard that answers. *)
Lemma returns_guard (d : Domain) (line : string) (w w' : World)
      (r : option Alert) :
  analyze d line w = (Ret r, w') -> guard_answers d (self w) = true.
Proof.
  intros Hrun.
  destruct (guard_cases d (self w)) as [H | (m & e & Hm & Ht)]; [exact H |].
  rewrite (analyze_raises d line w m e Hm Ht) in Hrun. discriminate.
Qed.

(** An analyzer that answers [None] leaves store and snapshot alone; one
    that answers with an alert leaves the snapshot alone. *)
Lemma analyze_keeps (d : Domain) (line : string) (w w' : World)
      (r : option Alert) :
  analyze d line w = (Ret r, w') ->
  alerts_file w' = alerts_file w
  /\ (r = None -> alerts (self w') = alerts (self w)).
Proof.
  intros Hrun.
  destruct (analyze_cases d w line (returns_guard d line w w' r Hrun))
    as [(w1 & H1 & Hs & _ & Hf & _) | (x & w1 & H1 & (Hs & _ & Hf & _) & _)];
    rewrite H1 in Hrun.
  - inversion Hrun; subst. split; [assumption | intros _; now rewrite Hs].
  - destruct (create_effect x w1)
      as (a & w2 & Hcreate & _ & _ & _ & _ & _ & _ & _ & _ & _ & _ & Hfile
          & _).
    rewrite Hcreate in Hrun. simpl in Hrun. inversion Hrun; subst.
    split; [congruence | discriminate].
Qed.

(** Whatever an analyzer does, it leaves the artifacts, the capacity and
    the standard output as they were. *)
Lemma analyze_invariants (d : Domain) (line : string) (w : World) :
  let w' := snd (analyze d line w) in
  (forall d', model_of d' (self w') = model_of d' (self w))
  /\ max_alerts (self w') = max_alerts (self w)
  /\ console w' = console w.
Proof.
  destruct (guard_cases d (self w)) as [Hguard | (m & e & Hm & Ht)].
  2: { rewrite (analyze_raises d line w m e Hm Ht). simpl. auto. }
  destruct (analyze_cases d w line Hguard)
    as [(w1 & H1 & Hs & _ & _ & Hk) | (x & w1 & H1 & (Hs & _ & _ & Hk) & _)];
    rewrite H1.
  - simpl. rewrite Hs, Hk. auto.
  - destruct (create_effect x w1)
      as (a & w2 & Hcreate & _ & _ & _ & _ & _ & Hmax & Hweb & Hdb & Hemail
          & _ & _ & _ & Hcons).
    rewrite Hcreate. simpl. rewrite Hmax, Hcons, Hs, Hk.
    repeat split. intros []; simpl; rewrite ?Hweb, ?Hdb, ?Hemail, Hs;
      reflexivity.
Qed.

(** The guard that answered once answers again after the call. *)
Lemma guard_kept (d d' : Domain) (line : string) (w : World) :
  guard_answers d' (self (snd (analyze d line w)))
  = guard_answers d' (self w).
Proof.
  unfold guard_answers.
  destruct (analyze_invariants d line w) as (Hm & _). now rewrite Hm.
Qed.

Lemma printable_console (w w' : World) (text : string) :
  console w' = console w -> printable w' text = printable w text.
Proof. intros H. unfold printable. now rewrite H. Qed.

End Frames.

(* ------------------------------------------------------------------ *)
(** ** Further properties of the routes *)

Section RouteExtras.
Import Notions Manager Api.

Lemma parses_empty (d : Domain) : parses d EmptyString = false.
Proof. destruct d; reflexivity. Qed.

Lemma run_each_cons (d : Domain) (line : string) (rest : list string)
      (w w' : World) (r : option Alert) :
  analyze d line w = (Ret r, w') ->
  run_each d (line :: rest) w
  = (match r with Some a => [a] | None => [] end ++ fst (run_each d rest w'),
     snd (run_each d rest w'))%list.
Proof.
  intros Hrun. simpl. rewrite Hrun.
  destruct r as [a |]; destruct (run_each d rest w'); reflexivity.
Qed.

(** One more line, for an analyzer whose guard answers. *)
Lemma analyze_step (d : Domain) (line : string) (w : World) :
  guard_answers d (self w) = true ->
  exists r w',
    analyze d line w = (Ret r, w')
    /\ guard_answers d (self w') = true
    /\ console w' = console w.
Proof.
  intros Hguard.
  destruct (analyze_returns d line w Hguard) as (r & w' & Hrun).
  exists r, w'. split; [exact Hrun |].
  pose proof (guard_kept d d line w) as Hk.
  destruct (analyze_invariants d line w) as (_ & _ & Hc).
  rewrite Hrun in Hk, Hc. simpl in Hk, Hc. split; congruence.
Qed.

(** The loop of the bulk route is the analyzer of the tag, line by line. *)
Lemma bulk_loop_run (d : Domain) (lines : list string) :
  forall acc w,
    guard_answers d (self w) = true ->
    bulk_loop (tag d) lines acc w
    = (Ret (acc ++ fst (run_each d lines w))%list, snd (run_each d lines w)).
Proof.
  induction lines as [| line rest IH]; intros acc w Hguard.
  - simpl. unfold ret. now rewrite app_nil_r.
  - destruct (analyze_step d line w Hguard) as (r & w' & Hrun & Hguard' & _).
    rewrite (run_each_cons d line rest w w' r Hrun).
    assert (Hstep : bulk_loop (tag d) (line :: rest) acc w
                    = bulk_loop (tag d) rest
                                (match r with
                                 | Some a => (acc ++ [a])%list
                                 | None => acc
                                 end) w').
    { destruct d; simpl in Hrun |- *; unfold bind; rewrite Hrun;
        reflexivity. }
    rewrite Hstep, (IH _ w' Hguard'). simpl.
    destruct r as [a |]; simpl; [now rewrite <- app_assoc | reflexivity].
Qed.

(** The loop of the bulk route stops at its first line when the truth value
    of the artifact raises. *)
Lemma bulk_loop_raises (d : Domain) (line : string) (rest : list string)
      (acc : list Alert) (w : World) (m : Model) (e : exn) :
  model_of d (self w) = Some m -> truth m = Raise e ->
  bulk_loop (tag d) (line :: rest) acc w = (Raise e, w).
Proof.
  intros Hm Ht. pose proof (analyze_raises d line w m e Hm Ht) as Hrun.
  destruct d; simpl in Hrun |- *; unfold bind; rewrite Hrun; reflexivity.
Qed.

Lemma run_each_raises (d : Domain) (lines : list string) (w : World)
      (m : Model) (e : exn) :
  model_of d (self w) = Some m -> truth m = Raise e ->
  run_each d lines w = ([], w).
Proof.
  intros Hm Ht. induction lines as [| line rest IH]; [reflexivity |].
  simpl. rewrite (analyze_raises d line w m e Hm Ht). exact IH.
Qed.

Lemma run_each_quiet (d : Domain) (lines : list string) :
  forall w,
    guard_answers d (self w) = true ->
    fst (run_each d lines w) = [] ->
    alerts (self (snd (run_each d lines w))) = alerts (self w)
    /\ alerts_file (snd (run_each d lines w)) = alerts_file w.
Proof.
  induction lines as [| line rest IH]; intros w Hguard Hnone; [now split |].
  destruct (analyze_step d line w Hguard) as (r & w' & Hrun & Hguard' & _).
  rewrite (run_each_cons d line rest w w' r Hrun) in *. simpl in *.
  destruct r as [a |]; [discriminate |]. simpl in Hnone.
  destruct (IH w' Hguard' Hnone) as [Hal Hfile].
  destruct (analyze_keeps d line w w' None Hrun) as [Hf Hk].
  split; [rewrite Hal; now apply Hk | congruence].
Qed.

(** One line posted to the single-line route, on a world with any
    snapshot: the alert is stored and saved before its message is printed,
    and the answer is an error when the print fails. *)
Lemma analyze_log_step (d : Domain) (line : string)
      (f : option (list Alert)) (w w' : World) (r : option Alert) :
  analyze d line w = (Ret r, w') ->
  analyze_log (Some (with_file f w))
              {| log_line := Some line; log_type := Some (tag d) |}
  = if truthy line
    then
      match r with
      | Some a =>
          (if printable w' (" " ++ alert_type a ++ ": " ++ attack_type a)
           then (Analysis r true, 200)
           else (Error (str_exn UnicodeEncodeError), 500),
           Some (with_file (Some (alerts (self w'))) w'))
      | None => ((Analysis None false, 200), Some (with_file f w'))
      end
    else ((Error "log_line is required", 400), Some (with_file f w)).
Proof.
  intros Hrun. unfold analyze_log, get. cbn [log_line log_type].
  destruct (truthy line); [| reflexivity]. simpl.
  assert (Hframe : analyze d line (with_file f w)
                   = (Ret r, with_file f w')).
  { rewrite analyze_frame, Hrun. reflexivity. }
  destruct d; simpl in Hframe |- *; unfold bind; rewrite Hframe;
    (destruct r as [a |]; [| reflexivity]);
    unfold save_alerts, log_deployment, print; cbn [self clock calls console];
    change (printable _ ?t) with (printable w' t);
    destruct (printable w' _); reflexivity.
Qed.

(** The same line when the truth value of the artifact raises. *)
Lemma analyze_log_raises (d : Domain) (line : string) (w : World)
      (m : Model) (e : exn) :
  model_of d (self w) = Some m -> truth m = Raise e ->
  analyze_log (Some w) {| log_line := Some line; log_type := Some (tag d) |}
  = if truthy line
    then ((Error (str_exn e), 500), Some w)
    else ((Error "log_line is required", 400), Some w).
Proof.
  intros Hm Ht. unfold analyze_log, get. cbn [log_line log_type].
  destruct (truthy line); [| reflexivity]. simpl.
  pose proof (analyze_raises d line w m e Hm Ht) as Hrun.
  destruct d; simpl in Hrun |- *; unfold bind; rewrite Hrun; reflexivity.
Qed.

(** The global after the lines have been posted one by one. *)
Lemma post_each_world (d : Domain) (lines : list string) :
  forall f w,
    guard_answers d (self w) = true ->
    post_each (tag d) lines (Some (with_file f w))
    = Some (with_file
              (match fst (run_each d lines w) with
               | [] => f
               | _ :: _ => Some (alerts (self (snd (run_each d lines w))))
               end)
              (snd (run_each d lines w))).
Proof.
  induction lines as [| line rest IH]; intros f w Hguard; [reflexivity |].
  destruct (analyze_step d line w Hguard) as (r & w' & Hrun & Hguard' & _).
  rewrite (run_each_cons d line rest w w' r Hrun).
  cbn [post_each].
  rewrite (analyze_log_step d line f w w' r Hrun).
  destruct (truthy line) eqn:Hline.
  - destruct r as [a |]; cbn [fst snd]; rewrite (IH _ w' Hguard').
    + simpl.
      destruct (fst (run_each d rest w')) eqn:Hrest; [| reflexivity].
      destruct (run_each_quiet d rest w' Hguard' Hrest) as [-> _].
      reflexivity.
    + reflexivity.
  - assert (Hempty : line = EmptyString).
    { unfold truthy in Hline. apply negb_false_iff in Hline.
      now apply String.eqb_eq. }
    subst line.
    rewrite (analyze_skips d w EmptyString Hguard
               (or_intror (parses_empty d))) in Hrun.
    inversion Hrun; subst. cbn [fst snd]. simpl. now apply IH.
Qed.

(** The alerts in the answers, when every message can be printed. *)
Lemma posted_alerts_run (d : Domain) (lines : list string) :
  forall f w,
    guard_answers d (self w) = true ->
    (forall c, console w c = true) ->
    posted_alerts (tag d) lines (Some (with_file f w))
    = fst (run_each d lines w).
Proof.
  induction lines as [| line rest IH]; intros f w Hguard Hall; [reflexivity |].
  destruct (analyze_step d line w Hguard) as (r & w' & Hrun & Hguard' & Hc).
  assert (Hall' : forall c, console w' c = true)
    by (intros c; rewrite Hc; apply Hall).
  rewrite (run_each_cons d line rest w w' r Hrun).
  cbn [posted_alerts].
  rewrite (analyze_log_step d line f w w' r Hrun).
  destruct (truthy line) eqn:Hline.
  - destruct r as [a |]; cbn [fst snd].
    + assert (Hp : printable w' (" " ++ alert_type a ++ ": " ++ attack_type a)
                   = true).
      { generalize (print_all (" " ++ alert_type a ++ ": " ++ attack_type a)
                              w' Hall').
        unfold print. destruct (printable w' _); [reflexivity | discriminate]. }
      rewrite Hp. cbn [fst]. rewrite (IH _ w' Hguard' Hall'). reflexivity.
    + rewrite (IH _ w' Hguard' Hall'). reflexivity.
  - assert (Hempty : line = EmptyString).
    { unfold truthy in Hline. apply negb_false_iff in Hline.
      now apply String.eqb_eq. }
    subst line.
    rewrite (analyze_skips d w EmptyString Hguard
               (or_intror (parses_empty d))) in Hrun.
    inversion Hrun; subst. cbn [fst snd]. simpl. now apply IH.
Qed.

(** Posting to an analyzer whose guard raises changes nothing and returns
    no alert. *)
Lemma post_each_raises (d : Domain) (lines : list string) (w : World)
      (m : Model) (e : exn) :
  model_of d (self w) = Some m -> truth m = Raise e ->
  post_each (tag d) lines (Some w) = Some w
  /\ posted_alerts (tag d) lines (Some w) = [].
Proof.
  intros Hm Ht. induction lines as [| line rest IH]; [now split |].
  cbn [post_each posted_alerts].
  rewrite (analyze_log_raises d line w m e Hm Ht).
  destruct (truthy line); exact IH.
Qed.

Lemma post_each_unsupported (t : string) (lines : list string) (w : World) :
  unsupported t ->
  post_each t lines (Some w) = Some w
  /\ posted_alerts t lines (Some w) = [].
Proof.
  intros Ht. destruct (unsupported_eqb t Ht) as (Hweb & Hdb & Hemail).
  induction lines as [| line rest IH]; [now split |].
  cbn [post_each posted_alerts]. unfold analyze_log, get.
  cbn [log_line log_type].
  destruct (truthy line); simpl; [rewrite Hweb, Hdb, Hemail |]; simpl;
    exact IH.
Qed.

Lemma tag_cases (t : string) : (exists d, t = tag d) \/ unsupported t.
Proof.
  destruct (String.eqb_spec t "web") as [-> | Hweb]; [left; now exists Web |].
  destruct (String.eqb_spec t "db") as [-> | Hdb]; [left; now exists Db |].
  destruct (String.eqb_spec t "email") as [-> | Hemail];
    [left; now exists Email |].
  right. repeat split; assumption.
Qed.

Lemma tag_injective (d d' : Domain) : tag d = tag d' -> d = d'.
Proof. destruct d, d'; simpl; congruence. Qed.

(** The answer of the bulk route to a non-empty list, for a tag with an
    analyzer whose guard answers. *)
Lemma bulk_value (d : Domain) (line : string) (rest : list string)
      (w : World) :
  guard_answers d (self w) = true ->
  let found := fst (run_each d (line :: rest) w) in
  let w' := snd (run_each d (line :: rest) w) in
  bulk_analyze_logs (Some w)
    {| logs := Some (line :: rest); bulk_type := Some (tag d) |}
  = ((BulkAnalysis (Z.of_nat (List.length (line :: rest)))
                   (Z.of_nat (List.length found)) found, 200),
     Some (with_file (match found with
                      | [] => alerts_file w
                      | _ :: _ => Some (alerts (self w'))
                      end) w')).
Proof.
  intros Hguard found w'. unfold bulk_analyze_logs, get. cbn [logs bulk_type].
  unfold bind at 1. rewrite (bulk_loop_run d (line :: rest) [] w Hguard).
  cbn [app]. fold found. fold w'.
  pose proof (run_each_quiet d (line :: rest) w Hguard) as Hquiet.
  fold found in Hquiet. fold w' in Hquiet.
  destruct found.
  - destruct (Hquiet eq_refl) as [_ Hfile].
    unfold bind, log_deployment, ret. print_error.
    rewrite <- Hfile, with_file_same. reflexivity.
  - unfold bind, log_deployment, save_alerts, ret. print_error. reflexivity.
Qed.

(** The answer of the bulk route when the truth value of the artifact
    raises. *)
Lemma bulk_value_raises (d : Domain) (line : string) (rest : list string)
      (w : World) (m : Model) (e : exn) :
  model_of d (self w) = Some m -> truth m = Raise e ->
  bulk_analyze_logs (Some w)
    {| logs := Some (line :: rest); bulk_type := Some (tag d) |}
  = ((Error (str_exn e), 500), Some w).
Proof.
  intros Hm Ht. unfold bulk_analyze_logs, get. cbn [logs bulk_type].
  unfold bind at 1. rewrite (bulk_loop_raises d line rest [] w m e Hm Ht).
  reflexivity.
Qed.

(** The answer of the bulk route for a tag without analyzer. *)
Lemma bulk_value_unsupported (t : string) (line : string)
      (rest : list string) (w : World) :
  unsupported t ->
  bulk_analyze_logs (Some w)
    {| logs := Some (line :: rest); bulk_type := Some t |}
  = ((BulkAnalysis (Z.of_nat (List.length (line :: rest))) 0 [], 200),
     Some w).
Proof.
  intros Ht. unfold bulk_analyze_logs, get. cbn [logs bulk_type].
  unfold bind at 1.
  rewrite (bulk_loop_unsupported t (line :: rest) Ht [] w).
  unfold bind, log_deployment, ret. print_error. reflexivity.
Qed.

(** The bulk route leaves the global as posting the lines one by one
    does. *)
Lemma bulk_world (w : World) (t : string) (lines : list string) :
  snd (bulk_analyze_logs (Some w)
         {| logs := Some lines; bulk_type := Some t |})
  = post_each t lines (Some w).
Proof.
  destruct lines as [| line rest]; [reflexivity |].
  destruct (tag_cases t) as [[d ->] | Ht].
  - destruct (guard_cases d (self w)) as [Hguard | (m & e & Hm & Htr)].
    + rewrite (bulk_value d line rest w Hguard).
      pose proof (post_each_world d (line :: rest) (alerts_file w) w Hguard)
        as Hpost.
      rewrite (with_file_same w) in Hpost. rewrite Hpost. reflexivity.
    + rewrite (bulk_value_raises d line rest w m e Hm Htr).
      destruct (post_each_raises d (line :: rest) w m e Hm Htr) as [-> _].
      reflexivity.
  - destruct (post_each_unsupported t (line :: rest) w Ht) as [-> _].
    rewrite (bulk_value_unsupported t line rest w Ht). reflexivity.
Qed.

(** X9: the bulk route leaves the manager, its clock and its snapshot
    exactly as posting the same lines one by one to the single-line route
    does, for every tag, every list of lines and every state of the
    artifacts.  For a list that is not empty: when the truth value of the
    artifact of the tag raises, the route answers 500 with the text of the
    exception; when the guard of the analyzer answers and the standard
    output takes every character, it answers 200 with the number of lines
    and with the alerts the single-line answers carry, in order. *)
Theorem bulk_is_one_by_one (w : World) (t : string) (lines : list string) :
  snd (bulk_analyze_logs (Some w)
         {| logs := Some lines; bulk_type := Some t |})
  = post_each t lines (Some w)
  /\ (lines <> [] ->
      (forall d, t = tag d -> guard_answers d (self w) = true) ->
      (forall c, console w c = true) ->
      fst (bulk_analyze_logs (Some w)
             {| logs := Some lines; bulk_type := Some t |})
      = (BulkAnalysis (Z.of_nat (List.length lines))
                      (Z.of_nat (List.length (posted_alerts t lines (Some w))))
                      (posted_alerts t lines (Some w)), 200))
  /\ (lines <> [] ->
      forall d m e,
        t = tag d -> model_of d (self w) = Some m -> truth m = Raise e ->
        fst (bulk_analyze_logs (Some w)
               {| logs := Some lines; bulk_type := Some t |})
        = (Error (str_exn e), 500)).
Proof.
  split; [apply bulk_world |].
  destruct lines as [| line rest]; [split; intros H; congruence |].
  split.
  - intros _ Hguard Hall.
    destruct (tag_cases t) as [[d ->] | Ht].
    + rewrite (bulk_value d line rest w (Hguard d eq_refl)).
      pose proof (posted_alerts_run d (line :: rest) (alerts_file w) w
                    (Hguard d eq_refl) Hall) as Hal.
      rewrite (with_file_same w) in Hal. rewrite Hal. reflexivity.
    + destruct (post_each_unsupported t (line :: rest) w Ht) as [_ ->].
      rewrite (bulk_value_unsupported t line rest w Ht). reflexivity.
  - intros _ d m e -> Hm Htr.
    rewrite (bulk_value_raises d line rest w m e Hm Htr). reflexivity.
Qed.

End RouteExtras.

Section RouteInvariants.
Import Notions Manager Api.

(** X10: a non-empty line posted with the tag of a domain to
    [/api/ids/analyze].  When the truth value of the artifact raises, the
    route answers 500 with the text of the exception and nothing is changed.
    When the guard of the analyzer answers: without a detection the route
    answers 200 and the snapshot is not written; after a detection the alert
    is in the store and the snapshot on disk is the store, and the route then
    prints a message built from the alert: it answers 200 with the alert when
    the standard output can encode the message, and 500 when it cannot, the
    alert staying stored and saved. *)
Theorem single_line_route_persists_detections
        (d : Domain) (line : string) (w : World) :
  truthy line = true ->
  let post :=
    analyze_log (Some w)
                {| log_line := Some line; log_type := Some (tag d) |} in
  (forall m e,
      model_of d (self w) = Some m -> truth m = Raise e ->
      post = ((Error (str_exn e), 500), Some w))
  /\ (guard_answers d (self w) = true ->
      exists r w1,
        analyze d line w = (Ret r, w1)
        /\ snd post
           = Some (match r with
                   | Some _ => with_file (Some (alerts (self w1))) w1
                   | None => w1
                   end)
        /\ fst post
           = match r with
             | Some a =>
                 if printable w (" " ++ alert_type a ++ ": " ++ attack_type a)
                 then (Analysis r true, 200)
                 else (Error (str_exn UnicodeEncodeError), 500)
             | None => (Analysis None false, 200)
             end).
Proof.
  intros Hline post. subst post. split.
  - intros m e Hm Ht.
    rewrite (analyze_log_raises d line w m e Hm Ht), Hline. reflexivity.
  - intros Hguard.
    destruct (analyze_step d line w Hguard) as (r & w1 & Hrun & _ & Hc).
    exists r, w1. split; [exact Hrun |].
    pose proof (analyze_log_step d line (alerts_file w) w w1 r Hrun) as Hstep.
    rewrite with_file_same, Hline in Hstep. rewrite Hstep.
    destruct r as [a |].
    + rewrite (printable_console w w1 _ Hc). split; reflexivity.
    + destruct (analyze_keeps d line w w1 None Hrun) as [<- _].
      rewrite with_file_same. split; reflexivity.
Qed.

Lemma run_each_bounded (d : Domain) (lines : list string) :
  forall w,
    bounded w ->
    bounded (snd (run_each d lines w))
    /\ max_alerts (self (snd (run_each d lines w))) = max_alerts (self w).
Proof.
  induction lines as [| line rest IH]; intros w Hb; [now split |].
  pose proof (analyze_bounded d line w Hb) as Hb'.
  destruct (analyze_invariants d line w) as (_ & Hmax & _).
  assert (Hstep : snd (run_each d (line :: rest) w)
                  = snd (run_each d rest (snd (analyze d line w)))).
  { simpl. destruct (analyze d line w) as [[[a |] | e] w']; simpl;
      try reflexivity.
    destruct (run_each d rest w'); reflexivity. }
  rewrite Hstep. destruct (IH _ Hb') as [H1 H2].
  split; [exact H1 | congruence].
Qed.

(** X11: the store never outgrows its capacity through the routes: from a
    manager whose store is within its bound, the single-line route, the bulk
    route, the listing and the two clearing routes leave a manager of the
    same capacity whose store is within its bound. *)
Theorem routes_keep_the_store_bounded (w : World) :
  bounded w ->
  (forall data,
      within_bound (max_alerts (self w)) (snd (analyze_log (Some w) data)))
  /\ (forall data,
         within_bound (max_alerts (self w))
                      (snd (bulk_analyze_logs (Some w) data)))
  /\ (forall args,
         within_bound (max_alerts (self w)) (snd (get_alerts (Some w) args)))
  /\ within_bound (max_alerts (self w)) (snd (Routes.clear_alerts (Some w)))
  /\ within_bound (max_alerts (self w))
                  (snd (Routes.clear_all_alerts (Some w))).
Proof.
  intros Hb.
  assert (Hone : forall t lines,
             within_bound (max_alerts (self w))
                          (post_each t lines (Some w))).
  { intros t lines. destruct (tag_cases t) as [[d ->] | Ht].
    - destruct (guard_cases d (self w)) as [Hguard | (m & e & Hm & Htr)].
      + pose proof (post_each_world d lines (alerts_file w) w Hguard)
          as Hpost.
        rewrite with_file_same in Hpost. rewrite Hpost.
        destruct (run_each_bounded d lines w Hb) as [H1 H2].
        split; assumption.
      + destruct (post_each_raises d lines w m e Hm Htr) as [-> _].
        now split.
    - destruct (post_each_unsupported t lines w Ht) as [-> _]. now split. }
  split; [| split; [| split; [| split]]].
  - intros [[line |] [t |]];
      try (exact (Hone t [line])); try (exact (Hone "web"%string [line]));
      now split.
  - assert (Hbulk : forall t lines,
               within_bound (max_alerts (self w))
                 (snd (bulk_analyze_logs (Some w)
                         {| logs := Some lines; bulk_type := Some t |}))).
    { intros t lines. rewrite bulk_world. apply Hone. }
    intros [[lines |] [t |]]; try apply Hbulk; now split.
  - intros args. now split.
  - unfold Routes.clear_alerts, Routes.respond, clear_alerts, set_alerts,
           save_alerts, log_deployment, bind.
    simpl. split; [unfold bounded; simpl; lia | reflexivity].
  - unfold Routes.clear_all_alerts, Routes.respond, clear_alerts, set_alerts,
           save_alerts, log_deployment, bind.
    simpl. split; [unfold bounded; simpl; lia | reflexivity].
Qed.

End RouteInvariants.

Section MoreRouteExtras.
Import Notions Manager Api.

(** X10 on a request whose user agent names an attacker tool and holds a
    character beyond ASCII, with a standard output that encodes ASCII only:
    the alert is stored and saved, and the route answers 500. *)
Lemma single_line_route_persists_detections_witness :
  let w := Cases.ascii_console (Samples.loaded Samples.scoreless) in
  exists a w1,
    analyze Web Cases.home_by_latin_agent w = (Ret (Some a), w1)
    /\ In a (alerts (self w1))
    /\ snd (analyze_log (Some w)
              {| log_line := Some Cases.home_by_latin_agent;
                 log_type := Some "web" |})
       = Some (with_file (Some (alerts (self w1))) w1)
    /\ fst (analyze_log (Some w)
              {| log_line := Some Cases.home_by_latin_agent;
                 log_type := Some "web" |})
       = (Error "UnicodeEncodeError", 500).
Proof.
  intros w.
  destruct (proj2 (single_line_route_persists_detections
                     Web Cases.home_by_latin_agent w eq_refl) eq_refl)
    as (r & w1 & Hrun & Hworld & Hanswer).
  assert (Hr : exists a, r = Some a /\ In a (alerts (self w1))
                         /\ printable w (" " ++ alert_type a ++ ": "
                                         ++ attack_type a) = false).
  { vm_compute in Hrun. inversion Hrun; subst r w1.
    eexists. split; [reflexivity |]. split; [left; reflexivity |].
    vm_compute. reflexivity. }
  destruct Hr as (a & -> & Hin & Hp).
  exists a, w1. rewrite Hp in Hanswer. auto.
Defined.

(** X11 on a store filled to its capacity, with all artifacts loaded: the
    [/admin] request posted to the single-line route is stored as alert 101
    and the oldest alert is dropped. *)
Lemma routes_keep_the_store_bounded_witness :
  let w := Cases.full_store in
  let posted :=
    snd (analyze_log (Some w)
           {| log_line := Some Samples.admin_panel;
              log_type := Some "web" |}) in
  List.length (alerts (self w)) = 100%nat
  /\ option_map (fun w' => (List.length (alerts (self w')),
                            hd 0 (map id (alerts (self w'))),
                            last (map id (alerts (self w'))) 0)) posted
     = Some (100%nat, 2, 101)
  /\ within_bound 100 posted
  /\ (forall data, within_bound 100 (snd (analyze_log (Some w) data)))
  /\ (forall data, within_bound 100 (snd (bulk_analyze_logs (Some w) data)))
  /\ (forall args, within_bound 100 (snd (get_alerts (Some w) args)))
  /\ within_bound 100 (snd (Routes.clear_alerts (Some w)))
  /\ within_bound 100 (snd (Routes.clear_all_alerts (Some w))).
Proof.
  intros w posted.
  assert (Hb : bounded w) by (unfold bounded; vm_compute; lia).
  pose proof (routes_keep_the_store_bounded w Hb) as Hall.
  change (max_alerts (self w)) with 100%nat in Hall.
  split; [vm_compute; reflexivity |].
  split; [vm_compute; reflexivity |].
  split; [exact (proj1 Hall _) | exact Hall].
Defined.

(** No simulated attack is a line in the access-log shape. *)
Lemma simulations_do_not_parse (attack_type target : string) :
  Forall (fun p => match p with
                   | Text s => parse_log_line s = Ret None
                   | Form _ _ _ _ => True
                   end)
         (generate_attack_simulation attack_type target).
Proof.
  unfold generate_attack_simulation. cbn [dict_get].
  destruct (String.eqb "sql_injection" attack_type);
    [repeat constructor; vm_compute; reflexivity |].
  destruct (String.eqb "xss" attack_type);
    [repeat constructor; vm_compute; reflexivity |].
  destruct (String.eqb "brute_force" attack_type);
    [repeat constructor |].
  destruct (String.eqb "path_traversal" attack_type);
    [repeat constructor; vm_compute; reflexivity |].
  constructor.
Qed.

Lemma web_payload_skipped (p : Payload) (w : World) :
  guard_answers Web (self w) = true ->
  match p with
  | Text s => parse_log_line s = Ret None
  | Form _ _ _ _ => True
  end ->
  analyze_payload Web p w = (Ret None, w).
Proof.
  destruct p as [s | me u us pa]; intros Hguard Hp; simpl.
  - apply (analyze_skips Web w s Hguard). right. simpl. now rewrite Hp.
  - unfold guard_answers in Hguard. simpl in Hguard.
    unfold bind, get_self, lift, try_except, raise, ret. simpl.
    destruct (web_model (self w)) as [m |]; [| reflexivity].
    destruct (truth m) as [[|] | e]; try discriminate; reflexivity.
Qed.

Lemma web_payload_raises (p : Payload) (w : World) (m : Model) (e : exn) :
  web_model (self w) = Some m -> truth m = Raise e ->
  analyze_payload Web p w = (Raise e, w).
Proof.
  intros Hm Ht. destruct p as [s | me u us pa]; simpl.
  - exact (analyze_raises Web s w m e Hm Ht).
  - unfold bind, get_self, lift. simpl. rewrite Hm. simpl. rewrite Ht.
    reflexivity.
Qed.

Lemma analyze_each_skipped (attacks : list Payload) :
  Forall (fun p => match p with
                   | Text s => parse_log_line s = Ret None
                   | Form _ _ _ _ => True
                   end) attacks ->
  forall acc w,
    guard_answers Web (self w) = true \/ attacks = [] ->
    Routes.analyze_each (analyze_payload Web) attacks acc w = (Ret acc, w).
Proof.
  induction 1 as [| p rest Hp _ IH]; intros acc w Hguard; simpl;
    [reflexivity |].
  destruct Hguard as [Hguard | Hnil]; [| discriminate].
  unfold bind. rewrite (web_payload_skipped p w Hguard Hp). apply IH.
  now left.
Qed.

Lemma Forall_firstn {A} (P : A -> Prop) (n : nat) (l : list A) :
  Forall P l -> Forall P (firstn n l).
Proof.
  intros H. revert n. induction H as [| x l Hx _ IH]; intros [| n]; simpl;
    constructor; auto.
Qed.

(** X12: the attack generator never detects anything for a target other
    than [db] (the phishing mail case apart): whatever the attack type, the
    artifacts and the store, it leaves the manager exactly as it was,
    because the simulated payloads it feeds to the web analyzer are URLs or
    login forms, not access-log lines.  When the guard of the web analyzer
    answers (or there is no payload to analyze), the route then prints a
    message that names the attack type and the target of the request: it
    answers 200 with no alert when the standard output can encode the
    message, and 500 when it cannot.  When the truth value of the web
    artifact raises and there is a payload, it answers 500 with the text of
    the exception. *)
Theorem simulated_web_attacks_go_undetected
        (w : World) (attack_type target_type : string) :
  target_type <> "db"%string ->
  ~ (target_type = "email"%string /\ attack_type = "phishing"%string) ->
  let attacks := generate_attack_simulation attack_type target_type in
  let answer :=
    Routes.generate_attacks_endpoint
      (Some w)
      {| Routes.ga_attack_type := Some attack_type;
         Routes.ga_target_type := Some target_type |} in
  snd answer = Some w
  /\ (guard_answers Web (self w) = true \/ attacks = [] ->
      fst answer
      = if printable w (" Generated " ++ str_nat (List.length attacks) ++ " "
                        ++ attack_type ++ " attacks (" ++ target_type
                        ++ "), detected 0 anomalies")
        then (Routes.Attacks attack_type target_type
                             (Z.of_nat (List.length attacks)) 0 []
                             (firstn 3 attacks), 200)
        else (Routes.Failure (str_exn UnicodeEncodeError), 500))
  /\ (forall m e,
         web_model (self w) = Some m -> truth m = Raise e -> attacks <> [] ->
         fst answer = (Routes.Failure (str_exn e), 500)).
Proof.
  intros Hdb Hph attacks answer. subst answer.
  unfold Routes.generate_attacks_endpoint, Routes.respond, get.
  cbn [Routes.ga_attack_type Routes.ga_target_type].
  assert (Hbranch : String.eqb target_type "email"
                    && String.eqb attack_type "phishing" = false).
  { apply andb_false_iff.
    destruct (String.eqb_spec target_type "email"); [| now left].
    destruct (String.eqb_spec attack_type "phishing"); [| now right].
    exfalso. apply Hph. now split. }
  rewrite Hbranch.
  destruct (String.eqb_spec target_type "db") as [| _]; [contradiction |].
  fold attacks.
  assert (Hskip : guard_answers Web (self w) = true \/ attacks = [] ->
                  Routes.analyze_each (analyze_payload Web)
                                      (firstn 3 attacks) [] w
                  = (Ret [], w)).
  { intros Hg. apply analyze_each_skipped.
    - apply Forall_firstn. apply simulations_do_not_parse.
    - destruct Hg as [Hg | ->]; [now left | now right]. }
  assert (Hraise : forall m e,
             web_model (self w) = Some m -> truth m = Raise e ->
             attacks <> [] ->
             Routes.analyze_each (analyze_payload Web)
                                 (firstn 3 attacks) [] w
             = (Raise e, w)).
  { intros m e Hm Ht Hne. destruct attacks as [| p rest]; [congruence |].
    simpl. unfold bind. rewrite (web_payload_raises p w m e Hm Ht).
    reflexivity. }
  clearbody attacks.
  split; [| split].
  - destruct (guard_cases Web (self w)) as [Hg | (m & e & Hm & Ht)];
      [| destruct attacks as [| p rest] eqn:Ha].
    + unfold bind at 1 2. rewrite (Hskip (or_introl Hg)).
      unfold ret at 1. cbn [fst snd].
      unfold bind, log_deployment, print, ret.
      destruct (printable _ _); reflexivity.
    + unfold bind at 1 2. rewrite (Hskip (or_intror eq_refl)).
      unfold ret at 1. cbn [fst snd].
      unfold bind, log_deployment, print, ret.
      destruct (printable _ _); reflexivity.
    + unfold bind at 1 2.
      rewrite (Hraise m e Hm Ht) by discriminate. reflexivity.
  - intros Hg. unfold bind at 1 2. rewrite (Hskip Hg).
    unfold ret at 1. cbn [fst snd].
    unfold bind, log_deployment, print, ret.
    change (printable w _)
      with (printable w (" Generated " ++ str_nat (List.length attacks) ++ " "
                         ++ attack_type ++ " attacks (" ++ target_type
                         ++ "), detected 0 anomalies")).
    destruct (printable w _); reflexivity.
  - intros m e Hm Ht Hne. unfold bind at 1 2.
    rewrite (Hraise m e Hm Ht Hne). reflexivity.
Qed.

(** X12 on cross-site scripting against the web tier, all artifacts
    loaded. *)
Lemma simulated_web_attacks_go_undetected_witness :
  Routes.generate_attacks_endpoint
    (Some (Samples.loaded Samples.scoreless))
    {| Routes.ga_attack_type := Some "xss"%string;
       Routes.ga_target_type := Some "web"%string |}
  = ((Routes.Attacks
        "xss" "web"
        (Z.of_nat (List.length (generate_attack_simulation "xss" "web")))
        0 []
        (firstn 3 (generate_attack_simulation "xss" "web")), 200),
     Some (Samples.loaded Samples.scoreless)).
Proof.
  pose proof (simulated_web_attacks_go_undetected
                (Samples.loaded Samples.scoreless) "xss" "web") as H.
  destruct H as (Hworld & Hanswer & _).
  - discriminate.
  - intros [H _]. discriminate.
  - specialize (Hanswer (or_introl eq_refl)).
    apply injective_projections; [exact Hanswer | exact Hworld].
Defined.


End MoreRouteExtras.

(* ------------------------------------------------------------------ *)
(** ** The stand-alone monitors *)

Section MonitorExtras.
Import Notions Manager Monitors.

#[local] Arguments probe_confidence : simpl never.

Lemma slice_last_fifty {A} (l : list A) : slice_from (-50) l = lastn 50 l.
Proof.
  unfold slice_from, lastn. cbn [Z.ltb Z.compare].
  f_equal. lia.
Qed.

Lemma save_alert_stored (x : MonitorAlert) (f : AlertsFile) :
  save_alert x f = Stored (lastn 50 (stored f ++ [x])).
Proof.
  unfold save_alert. rewrite slice_last_fifty. destruct f; reflexivity.
Qed.

Lemma save_all_stored (xs : list MonitorAlert) :
  forall f x,
    save_all (x :: xs) f = Stored (lastn 50 (stored f ++ x :: xs)).
Proof.
  induction xs as [| y xs IH]; intros f x.
  - apply save_alert_stored.
  - change (save_all (x :: y :: xs) f)
      with (save_all (y :: xs) (save_alert x f)).
    rewrite IH, save_alert_stored. cbn [stored].
    rewrite lastn_app_lastn, <- app_assoc. reflexivity.
Qed.

(** X14: after any non-empty run of [save_alert] calls the alerts file holds
    the last fifty of what it held before followed by the alerts saved, in
    order, so at most fifty alerts, the newest one last; a missing or
    unreadable file counts as empty. *)
Theorem save_alert_keeps_the_last_fifty
        (f : AlertsFile) (xs : list MonitorAlert) (x : MonitorAlert) :
  exists kept,
    save_all (xs ++ [x]) f = Stored kept
    /\ kept = lastn 50 (stored f ++ xs ++ [x])
    /\ (List.length kept <= 50)%nat
    /\ last_or_none kept = Some x
    /\ stored Missing = [] /\ stored Unreadable = [].
Proof.
  exists (lastn 50 (stored f ++ xs ++ [x])).
  split.
  - destruct xs as [| y xs]; simpl app;
      [apply save_alert_stored | apply save_all_stored].
  - split; [reflexivity |]. split; [rewrite lastn_length; lia |].
    split; [| split; reflexivity].
    rewrite app_assoc. unfold lastn. rewrite length_app. simpl.
    rewrite skipn_app.
    replace (List.length (stored f ++ xs) + 1 - 50
             - List.length (stored f ++ xs))%nat with 0%nat by lia.
    simpl. apply last_or_none_app.
Qed.

(** X15: the two db detectors read the label of the classifier in opposite
    ways.  On the same artifact and query (no rule firing), a label other
    than 1 keeps the stand-alone db monitor silent and a label other than
    -1 keeps the manager silent, so no label makes both raise a classifier
    alert; and the monitor does alert on label 1, with the first 150
    characters of the query, when the query has at least five characters. *)
Theorem db_detectors_read_labels_differently
        (m : Model) (line : string) (st : MonitorState) (w : World)
        (label : Z) (rest : list Z) :
  let query := parse_db_log (strip line) in
  db_model (self w) = Some m ->
  truthy query = true ->
  signature_fires Db (strip line) = false ->
  predict m (extract_sql_features query) = Ret (label :: rest) ->
  (label <> 1 -> db_monitor_step m line st = Ret st)
  /\ (label <> -1 ->
      exists w', analyze_db_log (strip line) w = (Ret None, w'))
  /\ (label = 1 -> 5 <= len query ->
      db_monitor_step m line st
      = Ret {| file :=
                 save_alert {| m_timestamp := now st;
                               m_severity := "CRITICAL";
                               m_source_ip := "Internal DB";
                               m_attack_type := "SQL Injection Detected";
                               m_payload := take 150 query;
                               m_user_agent := "N/A" |} (file st);
               now := S (now st) |}).
Proof.
  intros query Hm Htruthy Hsig Hpred. split; [| split].
  - intros Hlabel. unfold db_monitor_step. fold query.
    destruct (negb (truthy query) || (len query <? 5)); [reflexivity |].
    rewrite Hpred. destruct (Z.eqb_spec label 1); [contradiction |].
    reflexivity.
  - intros Hlabel.
    change (analyze_db_log (strip line) w) with (analyze Db (strip line) w).
    rewrite (analyze_classifier_path Db w (strip line) m Hm
               (predict_fitted _ _ _ Hpred) Htruthy Hsig).
    cbn [features]. fold query. rewrite Hpred.
    destruct (probe_confidence _ _ _) as [[c | e] w2]; [| eauto].
    destruct (Z.eqb_spec label (-1)); [contradiction | eauto].
  - intros -> Hlen. unfold db_monitor_step. fold query.
    rewrite Htruthy. destruct (Z.ltb_spec (len query) 5); [lia |].
    simpl. rewrite Hpred. reflexivity.
Qed.

(** X15 on a benign query and an artifact that labels every row 1: the
    monitor alerts, the manager does not. *)
Lemma db_detectors_read_labels_differently_witness :
  (1 <> 1 ->
   db_monitor_step Cases.labels_one Samples.benign_query Cases.idle
   = Ret Cases.idle)
  /\ (1 <> -1 ->
      exists w',
        analyze_db_log (strip Samples.benign_query)
                       (Samples.loaded Cases.labels_one)
        = (Ret None, w'))
  /\ (1 = 1 -> 5 <= len (parse_db_log (strip Samples.benign_query)) ->
      db_monitor_step Cases.labels_one Samples.benign_query Cases.idle
      = Ret {| file :=
                 save_alert
                   {| m_timestamp := 0;
                      m_severity := "CRITICAL";
                      m_source_ip := "Internal DB";
                      m_attack_type := "SQL Injection Detected";
                      m_payload :=
                        take 150 (parse_db_log (strip Samples.benign_query));
                      m_user_agent := "N/A" |} Missing;
               now := 1 |}).
Proof.
  apply (db_detectors_read_labels_differently
           Cases.labels_one Samples.benign_query Cases.idle
           (Samples.loaded Cases.labels_one) 1 []);
    vm_compute; reflexivity.
Defined.

(** X16: the stand-alone monitors have no handler around the parser and
    the classifier.  With an artifact that counts as true (both programs test
    it before the first line), on a line that parses and on which no rule
    fires, a [predict] that raises ends the loop of the web monitor with that
    exception, the lines after it unread, while the analyzer of the manager
    returns [None] on the same line; a line that does not match the pattern
    is skipped by the monitor without the classifier being consulted; and a
    line on which the parser raises ends the loop as well. *)
Theorem monitor_dies_where_manager_recovers
        (m : Model) (line : string) (after : list string)
        (st : MonitorState) (w : World) (e : exn) (p : Parsed) :
  web_model (self w) = Some m ->
  truth m = Ret true ->
  parse_log_line (strip line) = Ret (Some p) ->
  signature_fires Web (strip line) = false ->
  predict m (extract_features p) = Raise e ->
  monitor_run (web_monitor_step m) (line :: after) st = Raise e
  /\ (exists w', analyze_web_log (strip line) w = (Ret None, w'))
  /\ (forall unparsed clf,
         parse_log_line (strip unparsed) = Ret None ->
         monitor_run (web_monitor_step clf) (unparsed :: after) st
         = monitor_run (web_monitor_step clf) after st)
  /\ (forall bad clf e',
         parse_log_line (strip bad) = Raise e' ->
         monitor_run (web_monitor_step clf) (bad :: after) st = Raise e').
Proof.
  intros Hm Ht Hp Hsig Hpred. split; [| split; [| split]].
  - simpl. unfold web_monitor_step. rewrite Hp, Hpred. reflexivity.
  - change (analyze_web_log (strip line) w)
      with (analyze Web (strip line) w).
    rewrite (analyze_classifier_path Web w (strip line) m Hm Ht).
    + cbn [features]. rewrite Hp, Hpred. eauto.
    + simpl. now rewrite Hp.
    + exact Hsig.
  - intros unparsed clf Hnone. simpl. unfold web_monitor_step.
    rewrite Hnone. reflexivity.
  - intros bad clf e' Hbad. simpl. unfold web_monitor_step.
    rewrite Hbad. reflexivity.
Qed.

(** X16 on the homepage request and an artifact whose [predict] fails. *)
Lemma monitor_dies_where_manager_recovers_witness :
  monitor_run (web_monitor_step Cases.broken)
              [Samples.homepage; Samples.admin_panel] Cases.idle
  = Raise RuntimeError
  /\ (exists w',
         analyze_web_log (strip Samples.homepage)
                         (Samples.loaded Cases.broken)
         = (Ret None, w'))
  /\ (forall unparsed clf,
         parse_log_line (strip unparsed) = Ret None ->
         monitor_run (web_monitor_step clf)
                     [unparsed; Samples.admin_panel] Cases.idle
         = monitor_run (web_monitor_step clf) [Samples.admin_panel]
                       Cases.idle)
  /\ (forall bad clf e',
         parse_log_line (strip bad) = Raise e' ->
         monitor_run (web_monitor_step clf) [bad; Samples.admin_panel]
                     Cases.idle
         = Raise e').
Proof.
  apply (monitor_dies_where_manager_recovers
           Cases.broken Samples.homepage [Samples.admin_panel] Cases.idle
           (Samples.loaded Cases.broken) RuntimeError
           {| ip := "192.168.1.100";
              Preprocess.timestamp := Samples.ts;
              method := "GET";
              url := "/index.html";
              Preprocess.status := 200;
              bytes := 5678;
              referer := "-";
              Preprocess.user_agent := "Mozilla/5.0" |});
    vm_compute; reflexivity.
Defined.

End MonitorExtras.

(* ------------------------------------------------------------------ *)
(** ** Strings and the matcher *)

Section StringFacts.
Import Notions ReSpec Re.

Lemma sapp_assoc (a b c : string) : (a ++ b) ++ c = a ++ (b ++ c).
Proof. induction a as [| x a IH]; simpl; [reflexivity | now rewrite IH]. Qed.

Lemma sapp_nil_r (a : string) : a ++ EmptyString = a.
Proof. induction a as [| x a IH]; simpl; [reflexivity | now rewrite IH]. Qed.

Lemma slength_app (a b : string) :
  String.length (a ++ b) = (String.length a + String.length b)%nat.
Proof. induction a as [| x a IH]; simpl; [reflexivity | now rewrite IH]. Qed.

Lemma every_impl (cls cls' : ascii -> bool) (s : string) :
  (forall c, cls c = true -> cls' c = true) ->
  every cls s = true -> every cls' s = true.
Proof.
  intros Himp. induction s as [| c s IH]; simpl; [reflexivity |].
  rewrite !andb_true_iff. intros [Hc Hs]. split; auto.
Qed.

Lemma substring_prefix (pre s : string) :
  substring 0 (String.length pre) (pre ++ s) = pre.
Proof.
  induction pre as [| c pre IH]; simpl.
  - destruct s; reflexivity.
  - now rewrite IH.
Qed.

Lemma consumed_app (pre s : string) : consumed (pre ++ s) s = pre.
Proof.
  unfold consumed. rewrite slength_app.
  replace (String.length pre + String.length s - String.length s)%nat
    with (String.length pre) by lia.
  apply substring_prefix.
Qed.

Lemma drop_prefix_sound (p s s' : string) :
  drop_prefix p s = Some s' -> s = p ++ s'.
Proof.
  revert s. induction p as [| a p IH]; intros s; simpl.
  - intros H. now inversion H.
  - destruct s as [| b s]; [discriminate |].
    destruct (Ascii.eqb_spec a b) as [-> | _]; [| discriminate].
    intros H. now rewrite (IH s H).
Qed.

Lemma drop_prefix_app (p s : string) : drop_prefix p (p ++ s) = Some s.
Proof.
  induction p as [| a p IH]; simpl; [reflexivity |].
  now rewrite Ascii.eqb_refl.
Qed.

Section Sound.
Context {R : Type}.

Lemma star_greedy_sound (cls : ascii -> bool) (s : string)
      (k : string -> option R) (x : R) :
  star_greedy cls s k = Some x ->
  exists pre s',
    s = pre ++ s' /\ every cls pre = true /\ k s' = Some x.
Proof.
  induction s as [| c s IH]; simpl.
  - intros H. exists EmptyString, EmptyString. auto.
  - destruct (cls c) eqn:Hc.
    + destruct (star_greedy cls s k) as [y |] eqn:Hrec.
      * intros H. inversion H; subst y.
        destruct (IH eq_refl) as (pre & s' & -> & Hpre & Hk).
        exists (String c pre), s'. simpl. rewrite Hc, Hpre. auto.
      * intros H. exists EmptyString, (String c s). auto.
    + intros H. exists EmptyString, (String c s). auto.
Qed.

Lemma star_lazy_sound (cls : ascii -> bool) (s : string)
      (k : string -> option R) (x : R) :
  star_lazy cls s k = Some x ->
  exists pre s',
    s = pre ++ s' /\ every cls pre = true /\ k s' = Some x.
Proof.
  induction s as [| c s IH]; simpl.
  - destruct (k EmptyString) eqn:Hk; [| discriminate].
    intros H. inversion H; subst. exists EmptyString, EmptyString. auto.
  - destruct (k (String c s)) eqn:Hk.
    + intros H. inversion H; subst.
      exists EmptyString, (String c s). auto.
    + destruct (cls c) eqn:Hc; [| discriminate].
      intros H. destruct (IH H) as (pre & s' & -> & Hpre & Hk').
      exists (String c pre), s'. simpl. rewrite Hc, Hpre. auto.
Qed.

Lemma rep_sound (cls : ascii -> bool) (min : nat) (greedy : bool) :
  forall (s : string) (k : string -> option R) (x : R),
    rep cls min greedy s k = Some x ->
    exists pre s',
      s = pre ++ s' /\ every cls pre = true
      /\ (min <= String.length pre)%nat /\ k s' = Some x.
Proof.
  induction min as [| min IH]; intros s k x; simpl.
  - destruct greedy; intros H;
      [apply star_greedy_sound in H | apply star_lazy_sound in H];
      destruct H as (pre & s' & -> & Hpre & Hk);
      exists pre, s'; repeat split; auto; lia.
  - destruct s as [| c s]; [discriminate |].
    destruct (cls c) eqn:Hc; [| discriminate].
    intros H. destruct (IH s k x H) as (pre & s' & -> & Hpre & Hlen & Hk).
    exists (String c pre), s'. simpl. rewrite Hc, Hpre.
    repeat split; auto; lia.
Qed.

(** Whatever the matcher accepts is in the language of the pattern. *)
Lemma run_sound (r : regex) :
  forall (s : string) (cs : captures)
         (k : string -> captures -> option R) (x : R),
    run r s cs k = Some x ->
    exists pre s' cs',
      s = pre ++ s' /\ den r pre cs cs' /\ k s' cs' = Some x.
Proof.
  induction r as [p | cls min greedy | n r IH | r1 IH1 r2 IH2
                  | r1 IH1 r2 IH2 | r IH];
    intros s cs k x; simpl.
  - destruct (drop_prefix p s) as [s' |] eqn:Hp; [| discriminate].
    intros H. exists p, s', cs. rewrite (drop_prefix_sound p s s' Hp). auto.
  - intros H. apply rep_sound in H.
    destruct H as (pre & s' & -> & Hpre & Hlen & Hk).
    exists pre, s', cs. auto.
  - intros H. apply IH in H.
    destruct H as (pre & s' & cs1 & -> & Hden & Hk).
    rewrite consumed_app in Hk. exists pre, s', ((n, pre) :: cs1).
    repeat split; eauto.
  - intros H. apply IH1 in H.
    destruct H as (p1 & s1 & cs1 & -> & Hd1 & H).
    apply IH2 in H. destruct H as (p2 & s2 & cs2 & -> & Hd2 & Hk).
    exists (p1 ++ p2), s2, cs2. rewrite sapp_assoc.
    repeat split; auto. exists p1, p2, cs1. auto.
  - destruct (run r1 s cs k) as [y |] eqn:H1.
    + intros H. inversion H; subst y. apply IH1 in H1.
      destruct H1 as (pre & s' & cs' & -> & Hd & Hk).
      exists pre, s', cs'. auto.
    + intros H. apply IH2 in H.
      destruct H as (pre & s' & cs' & -> & Hd & Hk).
      exists pre, s', cs'. auto.
  - destruct (run r s cs k) as [y |] eqn:H1.
    + intros H. inversion H; subst y. apply IH in H1.
      destruct H1 as (pre & s' & cs' & -> & Hd & Hk).
      exists pre, s', cs'. auto.
    + intros H. exists EmptyString, s, cs. auto.
Qed.
End Sound.

Lemma rmatch_sound (r : regex) (s : string) (cs : captures) :
  rmatch r s = Some cs -> exists pre s', s = pre ++ s' /\ den r pre [] cs.
Proof.
  unfold rmatch. intros H. apply run_sound in H.
  destruct H as (pre & s' & cs' & -> & Hden & Hk). inversion Hk; subst.
  eauto.
Qed.

Lemma search_sound (r : regex) (s : string) (cs : captures) :
  search r s = Some cs ->
  exists before pre s', s = before ++ pre ++ s' /\ den r pre [] cs.
Proof.
  induction s as [| c s IH]; simpl.
  - destruct (rmatch r EmptyString) as [y |] eqn:Hm; [| discriminate].
    intros H. inversion H; subst. apply rmatch_sound in Hm.
    destruct Hm as (pre & s' & Heq & Hden). exists EmptyString, pre, s'. auto.
  - destruct (rmatch r (String c s)) as [y |] eqn:Hm.
    + intros H. inversion H; subst. apply rmatch_sound in Hm.
      destruct Hm as (pre & s' & Heq & Hden).
      exists EmptyString, pre, s'. auto.
    + intros H. destruct (IH H) as (before & pre & s' & -> & Hden).
      exists (String c before), pre, s'. auto.
Qed.

End StringFacts.

Section ParserShape.
Import Notions ReSpec Re.

Ltac break_den :=
  repeat match goal with
         | H : exists _, _ |- _ => destruct H
         | H : _ /\ _ |- _ => destruct H
         end.

Lemma startswith_self_app (p s : string) : startswith p (p ++ s) = true.
Proof.
  induction p as [| a p IH]; simpl; [reflexivity |].
  now rewrite Ascii.eqb_refl.
Qed.

(** The shape of a line [LOG_PATTERN] matches, with its groups. *)
Lemma log_pattern_shape (line : string) (cs : captures) :
  rmatch LOG_PATTERN line = Some cs ->
  exists g2 g3 rest,
    line = grp 1 cs ++ " " ++ g2 ++ " " ++ g3 ++ " [" ++ grp 4 cs ++ "] "
           ++ dquote ++ grp 5 cs ++ dquote ++ " " ++ grp 6 cs ++ " "
           ++ grp 7 cs ++ " " ++ dquote ++ grp 8 cs ++ dquote ++ " "
           ++ dquote ++ grp 9 cs ++ dquote ++ rest
    /\ every nonspace (grp 1 cs) = true /\ grp 1 cs <> EmptyString
    /\ every nonspace g2 = true /\ every nonspace g3 = true
    /\ every dot (grp 4 cs) = true /\ every dot (grp 5 cs) = true
    /\ every digit (grp 6 cs) = true /\ grp 6 cs <> EmptyString
    /\ every digit (grp 7 cs) = true /\ grp 7 cs <> EmptyString
    /\ every dot (grp 8 cs) = true /\ every dot (grp 9 cs) = true
    /\ every dot (grp 10 cs) = true
    /\ grp 2 cs = g2 /\ grp 3 cs = g3
    /\ startswith (grp 10 cs) rest = true.
Proof.
  intros H. apply rmatch_sound in H. destruct H as (pre & rest & -> & Hden).
  unfold LOG_PATTERN, seq in Hden. cbn [den fold_right] in Hden.
  break_den. subst.
  assert (Hne : forall t, (1 <= String.length t)%nat -> t <> EmptyString).
  { intros t Ht ->. simpl in Ht. lia. }
  match goal with
  | H : _ \/ _ |- _ =>
      destruct H as [(cs1 & (Hd & _ & ->) & ->) | [-> ->]]
  end;
    match goal with
    | |- context [(2%nat, ?a) :: (1%nat, _) :: nil] =>
        match goal with
        | |- context [(3%nat, ?b) :: (2%nat, _) :: _] =>
            match goal with
            | |- context [dquote ++ ?t ++ EmptyString] =>
                exists a, b, (t ++ rest)
            end
        end
    end;
    cbn [grp group Nat.eqb]; unfold dquote;
    repeat rewrite sapp_assoc; cbn [append];
    repeat split; auto using startswith_self_app.
Qed.

End ParserShape.

Section ParserExtras.
Import Notions ReSpec Re.

Lemma digit_value (c : ascii) : is_digit c = true -> 0 <= code c - 48 <= 9.
Proof.
  unfold is_digit. rewrite andb_true_iff, !Z.leb_le. lia.
Qed.

Lemma int_acc_nonneg (s : string) :
  forall acc, every digit s = true -> 0 <= acc -> 0 <= int_acc acc s.
Proof.
  induction s as [| c s IH]; intros acc; cbn [int_acc every]; [auto |].
  rewrite andb_true_iff. intros [Hc Hs] Hacc. apply IH; [exact Hs |].
  pose proof (digit_value c Hc). lia.
Qed.

Lemma digit_not_blank (c : ascii) : is_digit c = true -> int_blank c = false.
Proof.
  unfold is_digit, int_blank. rewrite andb_true_iff, !Z.leb_le.
  intros [H1 H2].
  repeat match goal with
         | |- context [?a <=? ?b] => destruct (Z.leb_spec a b); try lia
         | |- context [?a =? ?b] => destruct (Z.eqb_spec a b); try lia
         end; reflexivity.
Qed.

Lemma drop_last_blanks_digits (s : string) :
  every digit s = true -> drop_last_blanks s = s.
Proof.
  induction s as [| c s IH]; cbn [drop_last_blanks every]; [reflexivity |].
  rewrite andb_true_iff. intros [Hc Hs]. rewrite (IH Hs).
  destruct s; [| reflexivity].
  now rewrite (digit_not_blank c Hc).
Qed.

Lemma literal_digits_digits (s : string) :
  forall b,
    every digit s = true -> s <> EmptyString \/ b = true ->
    literal_digits s b = Some s.
Proof.
  induction s as [| c s IH]; intros b; cbn [literal_digits every].
  - intros _ [H | ->]; [congruence | reflexivity].
  - rewrite andb_true_iff. intros [Hc Hs] _.
    change (digit c) with (is_digit c) in Hc. rewrite Hc.
    now rewrite (IH true Hs (or_intror eq_refl)).
Qed.

(** [int] on a non-empty string of decimal digits. *)
Lemma int_digits (s : string) :
  every digit s = true -> s <> EmptyString ->
  int s = if (max_str_digits <? String.length s)%nat then Raise ValueError
          else Ret (int_acc 0 s).
Proof.
  intros Hd Hne. unfold int.
  destruct s as [| c s]; [congruence |].
  assert (Hc : is_digit c = true).
  { cbn [every] in Hd. apply andb_true_iff in Hd. exact (proj1 Hd). }
  cbn [skip_blanks]. rewrite (digit_not_blank c Hc).
  rewrite (drop_last_blanks_digits _ Hd).
  assert (Hsign : match String c s with
                  | String "+" r => (1, r)
                  | String "-" r => (-1, r)
                  | _ => (1, String c s)
                  end = (1, String c s)).
  { destruct c as [[] [] [] [] [] [] [] []]; try discriminate; reflexivity. }
  rewrite Hsign.
  rewrite (literal_digits_digits _ false Hd (or_introl Hne)).
  destruct (max_str_digits <? String.length (String c s))%nat;
    [reflexivity |].
  now rewrite Z.mul_1_l.
Qed.

Lemma split_by_pieces (sep : ascii -> bool) (s : string) :
  Forall (fun w => every (fun c => negb (sep c)) w = true) (split_by sep s).
Proof.
  induction s as [| c s IH]; simpl.
  - repeat constructor.
  - destruct (sep c) eqn:Hc.
    + constructor; [reflexivity | exact IH].
    + destruct (split_by sep s) as [| h t]; inversion IH; subst;
        constructor; simpl; try rewrite Hc; auto.
Qed.

(** The words [s.split()] returns are not empty and hold no whitespace. *)
Lemma split_words (s : string) :
  Forall (fun w => w <> EmptyString /\ every nonspace w = true) (split s).
Proof.
  unfold split. apply Forall_forall. intros w Hw.
  apply filter_In in Hw. destruct Hw as [Hin Hne]. split.
  - intros ->. discriminate.
  - pose proof (split_by_pieces is_space s) as Hall.
    rewrite Forall_forall in Hall. exact (Hall w Hin).
Qed.

(** X17: the record [parse_log_line] returns is read off the line: the line
    is the client address, two more fields, the bracketed timestamp, the
    quoted request, the two numbers, the quoted referer and the quoted user
    agent, in this order and with single spaces, followed by anything; the
    address is not empty and holds no whitespace; status and byte count are
    the values of two non-empty digit strings, so never negative; no field
    holds a line break; and either method and URL are the first two words of
    the request, or the request has fewer than two words, the method is
    [UNKNOWN] and the URL is the whole request. *)
Theorem parsed_record_is_read_off_the_line (line : string) (p : Parsed) :
  parse_log_line line = Ret (Some p) ->
  exists ident auth request status_text bytes_text rest,
    line = ip p ++ " " ++ ident ++ " " ++ auth ++ " [" ++ Preprocess.timestamp p
           ++ "] " ++ dquote ++ request ++ dquote ++ " " ++ status_text
           ++ " " ++ bytes_text ++ " " ++ dquote ++ referer p ++ dquote
           ++ " " ++ dquote ++ Preprocess.user_agent p ++ dquote ++ rest
    /\ ip p <> EmptyString /\ every nonspace (ip p) = true
    /\ every digit status_text = true /\ status_text <> EmptyString
    /\ int status_text = Ret (Preprocess.status p)
    /\ 0 <= Preprocess.status p
    /\ every digit bytes_text = true /\ bytes_text <> EmptyString
    /\ int bytes_text = Ret (bytes p) /\ 0 <= bytes p
    /\ every dot (Preprocess.timestamp p) = true /\ every dot request = true
    /\ every dot (referer p) = true /\ every dot (Preprocess.user_agent p) = true
    /\ ((exists more, split request = method p :: url p :: more
                      /\ method p <> EmptyString /\ url p <> EmptyString
                      /\ every nonspace (method p) = true
                      /\ every nonspace (url p) = true)
        \/ ((List.length (split request) < 2)%nat
            /\ method p = "UNKNOWN" /\ url p = request)).
Proof.
  unfold parse_log_line.
  destruct (rmatch LOG_PATTERN line) as [cs |] eqn:Hm; [| discriminate].
  destruct (log_pattern_shape line cs Hm)
    as (g2 & g3 & rest & Hline & H1 & H1ne & _ & _ & H4 & H5 & H6 & H6ne
        & H7 & H7ne & H8 & H9 & _).
  intros Hp.
  exists g2, g3, (grp 5 cs), (grp 6 cs), (grp 7 cs), rest.
  pose proof (split_words (grp 5 cs)) as Hwords.
  pose proof (int_digits (grp 6 cs) H6 H6ne) as Hi6.
  pose proof (int_digits (grp 7 cs) H7 H7ne) as Hi7.
  destruct (max_str_digits <? String.length (grp 6 cs))%nat;
    [rewrite Hi6 in Hp;
     destruct (split (grp 5 cs)) as [| ? [| ? ?]]; discriminate |].
  destruct (max_str_digits <? String.length (grp 7 cs))%nat;
    [rewrite Hi6, Hi7 in Hp;
     destruct (split (grp 5 cs)) as [| ? [| ? ?]]; discriminate |].
  rewrite Hi6, Hi7 in Hp.
  destruct (split (grp 5 cs)) as [| m [| u more]] eqn:Hsplit;
    inversion Hp; subst p; cbn [ip Preprocess.timestamp method url Preprocess.status bytes
                                 referer Preprocess.user_agent];
    (split; [exact Hline |]);
    repeat (split; [first [ assumption | reflexivity
                          | apply int_acc_nonneg; [assumption | lia] ] |]).
  - right. simpl. repeat split; lia || reflexivity.
  - right. simpl. repeat split; lia || reflexivity.
  - left. exists more. inversion Hwords as [| ? ? [Hm1 Hm2] Hrest]; subst.
    inversion Hrest as [| ? ? [Hu1 Hu2] _]; subst.
    repeat split; assumption.
Qed.

(** X17 on the path-traversal request of the test scripts. *)
Lemma parsed_record_is_read_off_the_line_witness :
  exists p ident auth request status_text bytes_text rest,
    parse_log_line Samples.etc_passwd = Ret (Some p)
    /\ Samples.etc_passwd
       = ip p ++ " " ++ ident ++ " " ++ auth ++ " [" ++ Preprocess.timestamp p
         ++ "] " ++ dquote ++ request ++ dquote ++ " " ++ status_text
         ++ " " ++ bytes_text ++ " " ++ dquote ++ referer p ++ dquote
         ++ " " ++ dquote ++ Preprocess.user_agent p ++ dquote ++ rest
    /\ int status_text = Ret (Preprocess.status p)
    /\ 0 <= Preprocess.status p.
Proof.
  destruct (parsed_record_is_read_off_the_line
              Samples.etc_passwd
              {| ip := "10.0.0.3";
                 Preprocess.timestamp := "27/Nov/2024:10:30:04 +0000";
                 method := "GET";
                 url := "/../../etc/passwd";
                 Preprocess.status := 403;
                 bytes := 256;
                 referer := "-";
                 Preprocess.user_agent := "Mozilla/5.0" |})
    as (ident & auth & request & st & by_ & rest & Hline & _ & _ & _ & _
        & Hst & Hnn & _).
  - vm_compute. reflexivity.
  - eexists. exists ident, auth, request, st, by_, rest.
    split; [vm_compute; reflexivity |]. repeat split; assumption.
Defined.

End ParserExtras.

Section StripFacts.
Import Notions ReSpec Re.

Lemma rstrip_length (s : string) :
  (String.length (rstrip s) <= String.length s)%nat.
Proof.
  induction s as [| c s IH]; simpl; [lia |].
  destruct (rstrip s); [destruct (is_space c) |]; simpl in *; lia.
Qed.

Lemma rstrip_spaces (s : string) :
  every is_space s = true -> rstrip s = EmptyString.
Proof.
  induction s as [| c s IH]; simpl; [reflexivity |].
  rewrite andb_true_iff. intros [Hc Hs]. now rewrite (IH Hs), Hc.
Qed.

Lemma rstrip_app_spaces (a b : string) :
  every is_space b = true -> rstrip (a ++ b) = rstrip a.
Proof.
  intros Hb. induction a as [| c a IH]; simpl.
  - now apply rstrip_spaces.
  - now rewrite IH.
Qed.

Lemma rstrip_idem (s : string) : rstrip (rstrip s) = rstrip s.
Proof.
  induction s as [| c s IH]; simpl; [reflexivity |].
  destruct (rstrip s) as [| d r] eqn:Hr.
  - destruct (is_space c) eqn:Hc; simpl; [reflexivity | now rewrite Hc].
  - simpl in IH |- *. now rewrite IH.
Qed.

(** What [rstrip] returns has no trailing whitespace. *)
Lemma rstrip_ends (s a b : string) :
  rstrip s = a ++ b -> every is_space b = true -> b = EmptyString.
Proof.
  intros Heq Hb.
  assert (Hlen : String.length (a ++ b) = String.length (rstrip a)).
  { rewrite <- (rstrip_app_spaces a b Hb), <- Heq, rstrip_idem.
    reflexivity. }
  pose proof (rstrip_length a). rewrite slength_app in Hlen.
  destruct b; [reflexivity | simpl in Hlen; lia].
Qed.

Lemma rstrip_keeps_head (c : ascii) (s : string) :
  is_space c = false -> exists r, rstrip (String c s) = String c r.
Proof.
  intros Hc. simpl. destruct (rstrip s); [rewrite Hc |]; eauto.
Qed.

Lemma lstrip_head (s : string) :
  lstrip s = EmptyString
  \/ exists c r, lstrip s = String c r /\ is_space c = false.
Proof.
  induction s as [| c s IH]; simpl; [now left |].
  destruct (is_space c) eqn:Hc; [exact IH | right; eauto].
Qed.

Lemma lstrip_fixed (c : ascii) (r : string) :
  is_space c = false -> lstrip (String c r) = String c r.
Proof. intros Hc. simpl. now rewrite Hc. Qed.

(** [strip] removes everything it would remove again. *)
Lemma strip_idem (s : string) : strip (strip s) = strip s.
Proof.
  unfold strip.
  destruct (lstrip_head s) as [-> | (c & r & -> & Hc)]; [reflexivity |].
  destruct (rstrip_keeps_head c r Hc) as [r' Hr]. rewrite Hr.
  rewrite (lstrip_fixed c r' Hc), <- Hr. apply rstrip_idem.
Qed.

Lemma strip_head (s : string) :
  strip s = EmptyString
  \/ exists c r, strip s = String c r /\ is_space c = false.
Proof.
  unfold strip.
  destruct (lstrip_head s) as [-> | (c & r & -> & Hc)]; [now left |].
  destruct (rstrip_keeps_head c r Hc) as [r' Hr]. right. eauto.
Qed.

Lemma lstrip_suffix (s : string) : exists a, s = a ++ lstrip s.
Proof.
  induction s as [| c s [a IH]]; simpl; [now exists EmptyString |].
  destruct (is_space c).
  - exists (String c a). simpl. now rewrite <- IH.
  - now exists EmptyString.
Qed.

Lemma rstrip_prefix (s : string) : exists b, s = rstrip s ++ b.
Proof.
  induction s as [| c s [b IH]]; simpl; [now exists EmptyString |].
  destruct (rstrip s) as [| d r] eqn:Hr.
  - destruct (is_space c).
    + exists (String c s). reflexivity.
    + exists b. simpl in IH. simpl. now rewrite <- IH.
  - exists b. simpl in IH |- *. now rewrite <- IH.
Qed.

Lemma strip_infix (s : string) : exists a b, s = a ++ strip s ++ b.
Proof.
  destruct (lstrip_suffix s) as [a Ha].
  destruct (rstrip_prefix (lstrip s)) as [b Hb].
  exists a, b. unfold strip. now rewrite <- Hb.
Qed.

Lemma every_lstrip (cls : ascii -> bool) (s : string) :
  every cls s = true -> every cls (lstrip s) = true.
Proof.
  destruct (lstrip_suffix s) as [a Ha]. rewrite Ha at 1.
  rewrite every_app, andb_true_iff. now intros [_ H].
Qed.

Lemma every_rstrip (cls : ascii -> bool) (s : string) :
  every cls s = true -> every cls (rstrip s) = true.
Proof.
  destruct (rstrip_prefix s) as [b Hb]. rewrite Hb at 1.
  rewrite every_app, andb_true_iff. now intros [H _].
Qed.

Lemma every_strip (cls : ascii -> bool) (s : string) :
  every cls s = true -> every cls (strip s) = true.
Proof. intros H. unfold strip. now apply every_rstrip, every_lstrip. Qed.

Lemma startswith_spec (p s : string) :
  startswith p s = true <-> exists b, s = p ++ b.
Proof.
  split.
  - revert s. induction p as [| a p IH]; intros s; simpl; [eauto |].
    destruct s as [| c s]; [discriminate |].
    rewrite andb_true_iff. intros [Hac Hp].
    apply Ascii.eqb_eq in Hac. subst c.
    destruct (IH s Hp) as [b ->]. eauto.
  - intros [b ->]. apply startswith_self_app.
Qed.

(** [p in s] holds exactly when [s] is some text, [p], and some text. *)
Lemma str_in_spec (p s : string) :
  str_in p s = true <-> exists a b, s = a ++ p ++ b.
Proof.
  split.
  - induction s as [| c s IH]; simpl; rewrite orb_true_iff.
    + intros [H | H]; [| discriminate].
      apply startswith_spec in H. destruct H as [b ->].
      now exists EmptyString, b.
    + intros [H | H].
      * apply startswith_spec in H. destruct H as [b ->].
        now exists EmptyString, b.
      * destruct (IH H) as (a & b & ->). now exists (String c a), b.
  - intros (a & b & ->). induction a as [| c a IH].
    + simpl. destruct (p ++ b) eqn:E; simpl; rewrite <- ?E;
        rewrite startswith_self_app; reflexivity.
    + simpl. rewrite IH. apply orb_true_r.
Qed.

Lemma str_in_infix (p a s b : string) :
  str_in p s = true -> str_in p (a ++ s ++ b) = true.
Proof.
  rewrite !str_in_spec. intros (x & y & ->).
  exists (a ++ x), (y ++ b). now rewrite !sapp_assoc.
Qed.

Lemma str_in_strip (p s : string) :
  str_in p (strip s) = true -> str_in p s = true.
Proof.
  intros H. destruct (strip_infix s) as (a & b & Hs). rewrite Hs.
  now apply str_in_infix.
Qed.

End StripFacts.

Section DbParser.
Import Notions ReSpec Re.

Lemma take_drop_while (cls : ascii -> bool) (s : string) :
  take_while cls s ++ drop_while cls s = s.
Proof.
  induction s as [| c s IH]; simpl; [reflexivity |].
  destruct (cls c); simpl; [now rewrite IH | reflexivity].
Qed.

Lemma drop_while_head (cls : ascii -> bool) (s : string) :
  (drop_while cls s = EmptyString /\ every cls s = true)
  \/ exists c t, drop_while cls s = String c t /\ cls c = false.
Proof.
  induction s as [| c s IH]; simpl; [now left |].
  destruct (cls c) eqn:Hc; [| right; eauto].
  destruct IH as [[H1 H2] | H]; [left | right]; auto.
Qed.

Lemma drop_while_suffix (cls : ascii -> bool) (s : string) :
  exists a, s = a ++ drop_while cls s.
Proof. exists (take_while cls s). symmetry. apply take_drop_while. Qed.

Lemma star_greedy_total {R} (cls : ascii -> bool) (s : string)
      (k : string -> option R) :
  (forall t, k t <> None) -> star_greedy cls s k = k (drop_while cls s).
Proof.
  intros Hk. induction s as [| c s IH]; simpl; [reflexivity |].
  destruct (cls c); [| reflexivity].
  rewrite IH. destruct (k (drop_while cls s)) eqn:E; [reflexivity |].
  now destruct (Hk (drop_while cls s)).
Qed.

(** The end of the pattern of [parse_db_log]: whitespace, then group 2. *)
Lemma db_pattern_tail (s : string) (cs : captures) :
  run (Seq (Rep space 1 true) (Seq (Group 2 (Rep dot 0 true))
                                   (Lit EmptyString)))
      s cs (fun _ cs' => Some cs')
  = match s with
    | EmptyString => None
    | String c s' =>
        if space c
        then Some ((2%nat, take_while dot (drop_while space s')) :: cs)
        else None
    end.
Proof.
  destruct s as [| c s']; [reflexivity |]. cbn [run rep].
  destruct (space c); [| reflexivity].
  rewrite star_greedy_total.
  - cbn [star_greedy]. rewrite star_greedy_total by discriminate.
    cbn [drop_prefix]. do 3 f_equal.
    rewrite <- (take_drop_while dot (drop_while space s')) at 1.
    apply consumed_app.
  - intros t. cbn [star_greedy]. rewrite star_greedy_total by discriminate.
    discriminate.
Qed.

Lemma nonspace_is_dot (c : ascii) : is_space c = false -> dot c = true.
Proof.
  intros Hc. unfold dot. destruct (Ascii.eqb_spec c "010"%char) as [-> |];
    [discriminate | reflexivity].
Qed.

(** When the pattern is found in a stripped line, group 2 holds text. *)
Lemma db_group_not_blank (l : string) (cs : captures) :
  search DB_PATTERN (strip l) = Some cs ->
  strip (grp 2 cs) <> EmptyString
  /\ (str_in "Query" l = true \/ str_in "Execute" l = true).
Proof.
  intros Hs.
  assert (Hfound : exists before b, strip l = before ++ b
                                    /\ rmatch DB_PATTERN b = Some cs).
  { clear - Hs. induction (strip l) as [| c s IH]; simpl in Hs.
    - destruct (rmatch DB_PATTERN EmptyString) eqn:E; [| discriminate].
      now exists EmptyString, EmptyString.
    - destruct (rmatch DB_PATTERN (String c s)) as [y |] eqn:E.
      + exists EmptyString, (String c s). now inversion Hs; subst.
      + destruct (IH Hs) as (before & b & -> & Hb).
        now exists (String c before), b. }
  destruct Hfound as (before & b & Hl & Hb).
  unfold rmatch, DB_PATTERN, seq in Hb. cbn [fold_right] in Hb.
  cbn [run] in Hb.
  change (fun (s' : string) (cs' : captures) =>
            run (Seq (Rep space 1 true)
                     (Seq (Group 2 (Rep dot 0 true)) (Lit EmptyString)))
                s' cs' (fun (_ : string) (cs0 : captures) => Some cs0))
    with (fun (s' : string) (cs' : captures) =>
            run (Seq (Rep space 1 true)
                     (Seq (Group 2 (Rep dot 0 true)) (Lit EmptyString)))
                s' cs' (fun _ cs0 => Some cs0)) in Hb.
  apply rep_sound in Hb. destruct Hb as (ws & s1 & -> & _ & _ & Hb).
  change (run (Group 1 (Alt (Lit "Query") (Lit "Execute"))) s1 []
              (fun s2 cs2 =>
                 run (Seq (Rep space 1 true)
                          (Seq (Group 2 (Rep dot 0 true)) (Lit EmptyString)))
                     s2 cs2 (fun _ cs0 => Some cs0)) = Some cs) in Hb.
  apply run_sound in Hb.
  destruct Hb as (word & s2 & cs2 & -> & Hword & Htail).
  rewrite db_pattern_tail in Htail.
  destruct s2 as [| c s2']; [discriminate |].
  destruct (space c) eqn:Hc; [| discriminate].
  inversion Htail; subst cs. cbn [grp group Nat.eqb].
  split.
  - destruct (drop_while_head space s2')
      as [[Hnil Hall] | (d & t & Hd & Hdc)].
    + exfalso.
      assert (Hends : String c s2' = EmptyString).
      { apply (rstrip_ends (lstrip l) (before ++ ws ++ word)).
        - fold (strip l). rewrite Hl, !sapp_assoc. reflexivity.
        - simpl. unfold space in Hc. now rewrite Hc. }
      discriminate.
    + rewrite Hd. cbn [take_while]. rewrite (nonspace_is_dot d Hdc).
      unfold strip. rewrite (lstrip_fixed d _ Hdc).
      destruct (rstrip_keeps_head d (take_while dot t) Hdc) as [r ->].
      discriminate.
  - cbn [den] in Hword. destruct Hword as (cs1 & [[-> _] | [-> _]] & _).
    + left. apply str_in_strip. rewrite Hl. apply str_in_spec.
      exists (before ++ ws), (String c s2'). now rewrite !sapp_assoc.
    + right. apply str_in_strip. rewrite Hl. apply str_in_spec.
      exists (before ++ ws), (String c s2'). now rewrite !sapp_assoc.
Qed.

(** X18: [parse_db_log] returns text without whitespace at either end; it
    returns the empty string exactly for a blank line; and a line that names
    neither [Query] nor [Execute] comes back as it is, stripped. *)
Theorem parse_db_log_contract (line : string) :
  strip (parse_db_log line) = parse_db_log line
  /\ (parse_db_log line = EmptyString <-> strip line = EmptyString)
  /\ (str_in "Query" line = false -> str_in "Execute" line = false ->
      parse_db_log line = strip line).
Proof.
  unfold parse_db_log.
  destruct (search DB_PATTERN (strip line)) as [cs |] eqn:Hs.
  - destruct (db_group_not_blank line cs Hs) as [Hne Hmark].
    split; [apply strip_idem |]. split.
    + split; [intros H; contradiction |].
      intros Hblank. rewrite Hblank in Hs. discriminate.
    + intros Hq He. destruct Hmark; congruence.
  - split; [apply strip_idem |]. split; [tauto | reflexivity].
Qed.

End DbParser.

(* ------------------------------------------------------------------ *)
(** ** The match is decided before the rest of the line *)

Section Priority.
Import Re Preprocess Notions ReSpec Stable.

Lemma star_lazy_complete {R} (cls : ascii -> bool) (a s : string)
      (k : string -> option R) :
  every cls a = true -> k s <> None -> star_lazy cls (a ++ s) k <> None.
Proof.
  intros Ha Hk. induction a as [| c a IH]; simpl in *.
  - destruct s; simpl; destruct (k _); congruence.
  - apply andb_true_iff in Ha. destruct Ha as [Hc Ha].
    destruct (k (String c (a ++ s))); [discriminate |].
    rewrite Hc. auto.
Qed.

Lemma star_greedy_complete {R} (cls : ascii -> bool) (a s : string)
      (k : string -> option R) :
  every cls a = true -> k s <> None -> star_greedy cls (a ++ s) k <> None.
Proof.
  intros Ha Hk. induction a as [| c a IH]; simpl in *.
  - destruct s as [| c s]; simpl; [assumption |].
    destruct (cls c); [| assumption].
    destruct (star_greedy cls s k); [discriminate | assumption].
  - apply andb_true_iff in Ha. destruct Ha as [Hc Ha]. rewrite Hc.
    specialize (IH Ha). destruct (star_greedy cls (a ++ s) k);
      [discriminate | contradiction].
Qed.

Lemma rep_complete {R} (cls : ascii -> bool) (min : nat) (greedy : bool) :
  forall (a s : string) (k : string -> option R),
    every cls a = true -> (min <= String.length a)%nat -> k s <> None ->
    rep cls min greedy (a ++ s) k <> None.
Proof.
  induction min as [| min IH]; intros a s k Ha Hlen Hk; simpl.
  - destruct greedy;
      [now apply star_greedy_complete | now apply star_lazy_complete].
  - destruct a as [| c a]; simpl in *; [lia |].
    apply andb_true_iff in Ha. destruct Ha as [Hc Ha]. rewrite Hc.
    apply IH; auto. lia.
Qed.

(** Text a pattern accepts is matched by the matcher, whatever comes after
    it, as long as the continuation goes on from there. *)
Lemma run_complete {R} (r : regex) :
  forall (w s' : string) (k : string -> captures -> option R)
         (cs : captures),
    accepts r w -> (forall cs', k s' cs' <> None) ->
    run r (w ++ s') cs k <> None.
Proof.
  induction r as [p | cls min greedy | n r IH | r1 IH1 r2 IH2
                  | r1 IH1 r2 IH2 | r IH];
    intros w s' k cs Hacc Hk; simpl in *.
  - subst w. rewrite drop_prefix_app. apply Hk.
  - destruct Hacc as [Hcls Hlen]. apply rep_complete; auto.
  - apply IH; auto.
  - destruct Hacc as (p1 & p2 & -> & H1 & H2). rewrite sapp_assoc.
    apply IH1; auto.
  - destruct Hacc as [H1 | H2].
    + specialize (IH1 w s' k cs H1 Hk).
      destruct (run r1 (w ++ s') cs k); [discriminate | contradiction].
    + destruct (run r1 (w ++ s') cs k); [discriminate |]. apply IH2; auto.
  - destruct Hacc as [H1 | ->].
    + specialize (IH w s' k cs H1 Hk).
      destruct (run r (w ++ s') cs k); [discriminate | contradiction].
    + simpl. destruct (run r s' cs k); [discriminate | apply Hk].
Qed.

(** The lazy star stops at the first split its continuation accepts. *)
Lemma star_lazy_first {R} (cls : ascii -> bool) (s : string)
      (k : string -> option R) (x : R) :
  star_lazy cls s k = Some x ->
  exists a v,
    s = a ++ v /\ every cls a = true /\ k v = Some x
    /\ forall a1 a2, a = a1 ++ a2 -> a2 <> EmptyString ->
                     k (a2 ++ v) = None.
Proof.
  induction s as [| c s IH]; simpl.
  - destruct (k EmptyString) eqn:Hk; [| discriminate].
    intros H. inversion H; subst. exists EmptyString, EmptyString.
    repeat split; auto. intros a1 a2 Heq Hne.
    destruct a1, a2; simpl in Heq; congruence.
  - destruct (k (String c s)) eqn:Hk.
    + intros H. inversion H; subst. exists EmptyString, (String c s).
      repeat split; auto. intros a1 a2 Heq Hne.
      destruct a1, a2; simpl in Heq; congruence.
    + destruct (cls c) eqn:Hc; [| discriminate].
      intros H. destruct (IH H) as (a & v & -> & Ha & Hv & Hmin).
      exists (String c a), v. simpl. rewrite Hc, Ha.
      repeat split; auto. intros a1 a2 Heq Hne.
      destruct a1 as [| c1 a1]; simpl in Heq.
      * subst a2. simpl. exact Hk.
      * inversion Heq; subst. eapply Hmin; eauto.
Qed.

Lemma star_lazy_build {R} (cls : ascii -> bool) (a v : string)
      (k : string -> option R) (x : R) :
  every cls a = true -> k v = Some x ->
  (forall a1 a2, a = a1 ++ a2 -> a2 <> EmptyString -> k (a2 ++ v) = None) ->
  star_lazy cls (a ++ v) k = Some x.
Proof.
  intros Ha Hv. induction a as [| c a IH]; intros Hmin; simpl in *.
  - destruct v; simpl; rewrite Hv; reflexivity.
  - apply andb_true_iff in Ha. destruct Ha as [Hc Ha].
    assert (H0 : k (String c (a ++ v)) = None)
      by (apply (Hmin EmptyString (String c a) eq_refl); discriminate).
    rewrite H0, Hc. apply IH; auto.
    intros a1 a2 Heq Hne. apply (Hmin (String c a1) a2); auto.
    simpl. now rewrite Heq.
Qed.

(** The greedy star before a character outside its class stops there, when
    the continuation accepts that split. *)
Lemma star_greedy_build {R} (cls : ascii -> bool) (a : string) (c0 : ascii)
      (v : string) (k : string -> option R) (x : R) :
  every cls a = true -> cls c0 = false -> k (String c0 v) = Some x ->
  star_greedy cls (a ++ String c0 v) k = Some x.
Proof.
  intros Ha Hc0 Hk. induction a as [| c a IH]; simpl in *.
  - now rewrite Hc0.
  - apply andb_true_iff in Ha. destruct Ha as [Hc Ha].
    rewrite Hc, (IH Ha). reflexivity.
Qed.

Lemma rep_greedy_build {R} (cls : ascii -> bool) (a : string) (c0 : ascii)
      (v : string) (k : string -> option R) (x : R) :
  every cls a = true -> (1 <= String.length a)%nat -> cls c0 = false ->
  k (String c0 v) = Some x ->
  rep cls 1 true (a ++ String c0 v) k = Some x.
Proof.
  intros Ha Hlen Hc0 Hk. destruct a as [| c a]; simpl in *; [lia |].
  apply andb_true_iff in Ha. destruct Ha as [Hc Ha]. rewrite Hc.
  now apply star_greedy_build.
Qed.

(** A continuation that fails on every character of the class leaves the
    greedy star one split only. *)
Lemma star_greedy_det {R} (cls : ascii -> bool) (s : string)
      (k : string -> option R) :
  (forall c s', cls c = true -> k (String c s') = None) ->
  star_greedy cls s k = k (drop_while cls s).
Proof.
  intros Hk. induction s as [| c s IH]; simpl; [reflexivity |].
  destruct (cls c) eqn:Hc; [| reflexivity].
  rewrite IH. destruct (k (drop_while cls s)) eqn:E; [reflexivity |].
  now apply Hk.
Qed.

Lemma drop_while_stops (cls : ascii -> bool) (u : string) (c0 : ascii)
      (w : string) :
  cls c0 = false ->
  drop_while cls (u ++ String c0 w) = drop_while cls u ++ String c0 w.
Proof.
  intros Hc0. induction u as [| c u IH]; simpl.
  - now rewrite Hc0.
  - destruct (cls c); [exact IH | reflexivity].
Qed.

Lemma every_drop_while (cls' cls : ascii -> bool) (u : string) :
  every cls' u = true -> every cls' (drop_while cls u) = true.
Proof.
  induction u as [| c u IH]; simpl; [reflexivity |].
  intros H. destruct (cls c); [| exact H].
  apply andb_true_iff in H. now apply IH.
Qed.

Lemma drop_prefix_window (l y z : string) :
  (String.length l <= String.length y)%nat ->
  drop_prefix l (y ++ z)
  = match drop_prefix l y with
    | Some y' => Some (y' ++ z)
    | None => None
    end.
Proof.
  revert y. induction l as [| a l IH]; intros y Hlen; simpl.
  - reflexivity.
  - destruct y as [| b y]; simpl in *; [lia |].
    destruct (Ascii.eqb a b); [| reflexivity]. apply IH. lia.
Qed.

Lemma group_app_in (n : nat) (b x : captures) :
  In n (map fst b) -> group n (b ++ x)%list = group n b.
Proof.
  induction b as [| [m t] b IH]; simpl; [contradiction |].
  intros [-> | Hin].
  - now rewrite Nat.eqb_refl.
  - destruct (Nat.eqb n m); [reflexivity | auto].
Qed.

Lemma group_app_notin (n : nat) (b x : captures) :
  ~ In n (map fst b) -> group n (b ++ x)%list = group n x.
Proof.
  induction b as [| [m t] b IH]; simpl; [reflexivity |].
  intros Hnot. destruct (Nat.eqb_spec n m) as [-> | _].
  - exfalso. apply Hnot. now left.
  - apply IH. intros Hin. apply Hnot. now right.
Qed.

Lemma fill_app (T : regex) (b x : captures) :
  (forall n, In n (groups T) -> In n (map fst b)) ->
  fill T (b ++ x)%list = fill T b.
Proof.
  induction T as [p | cls min greedy | n r IH | r1 IH1 r2 IH2
                  | r1 IH1 r2 IH2 | r IH]; simpl; intros Hin;
    try reflexivity.
  - unfold grp. rewrite group_app_in; [reflexivity |]. apply Hin. now left.
  - rewrite IH1, IH2; [reflexivity | |];
      intros n Hn; apply Hin; apply in_or_app; auto.
Qed.

Lemma det_result (T : regex) (s : string) (cs r : captures) :
  Det T -> run T s cs kf = Some r ->
  exists body rest,
    s = fill T body ++ rest
    /\ every dot (fill T body) = true
    /\ accepts T (fill T body)
    /\ map fst body = groups T
    /\ r = ((10%nat, take_while dot rest) :: body ++ cs)%list
    /\ forall t cs',
        run T (fill T body ++ t) cs' kf
        = Some ((10%nat, take_while dot t) :: body ++ cs')%list.
Proof.
  intros HT Hrun. destruct (HT s cs r Hrun)
    as (body & rest & Hs & Hdot & Hacc & Hkeys & Hall).
  exists body, rest. repeat split; auto.
  rewrite Hs, Hall in Hrun. now inversion Hrun.
Qed.

(** *** The rest of the line *)

Lemma run_rest_of_line (s : string) (cs : captures) :
  run rest_of_line s cs kf = Some ((10%nat, take_while dot s) :: cs).
Proof.
  unfold rest_of_line. cbn [run rep].
  rewrite star_greedy_total by discriminate. cbn [drop_prefix]. unfold kf.
  rewrite <- (take_drop_while dot s) at 1. now rewrite consumed_app.
Qed.

Lemma det_rest_of_line : Det rest_of_line.
Proof.
  intros s cs r _. exists [], s. simpl.
  repeat split; auto.
  - exists EmptyString, EmptyString. auto.
  - intros t cs'. apply run_rest_of_line.
Qed.

Lemma robust_rest_of_line : Robust rest_of_line.
Proof.
  intros a w t1 t2 cs1 cs2 _ _ _ H. rewrite run_rest_of_line in H.
  discriminate.
Qed.

(** *** A literal *)

Lemma det_lit (l : string) (T : regex) :
  every dot l = true -> Det T -> Det (Seq (Lit l) T).
Proof.
  intros Hl HT s cs r. cbn [run].
  destruct (drop_prefix l s) as [s' |] eqn:Hp; [| discriminate].
  intros Hrun. apply drop_prefix_sound in Hp. subst s.
  destruct (HT s' cs r Hrun) as (body & rest & -> & Hdot & Hacc & Hk & Hall).
  exists body, rest. cbn [fill accepts groups]. rewrite sapp_assoc.
  repeat split; auto.
  - rewrite every_app, Hl, Hdot. reflexivity.
  - eauto.
  - now rewrite app_nil_r.
  - intros t cs'. cbn [run]. rewrite sapp_assoc, drop_prefix_app.
    apply Hall.
Qed.

Lemma robust_lit (l : string) (T : regex) :
  Robust T -> Robust (Seq (Lit l) T).
Proof.
  intros HT a w t1 t2 cs1 cs2 Hacc Ha Hw. cbn [accepts] in Hacc.
  destruct Hacc as (p1 & w' & -> & -> & Hacc).
  rewrite every_app in Hw. apply andb_true_iff in Hw. destruct Hw as [Hl Hw].
  cbn [run]. rewrite !sapp_assoc.
  rewrite <- !(sapp_assoc a l).
  rewrite !(drop_prefix_window l (a ++ l))
    by (rewrite slength_app; lia).
  destruct (drop_prefix l (a ++ l)) as [y |] eqn:Hp; [| reflexivity].
  apply drop_prefix_sound in Hp.
  assert (Hy : every dot y = true).
  { assert (H : every dot (a ++ l) = true)
      by (rewrite every_app, Ha, Hl; reflexivity).
    rewrite Hp, every_app in H. apply andb_true_iff in H. tauto. }
  apply HT; auto.
Qed.

(** *** A lazy group *)

Lemma robust_lazy (n : nat) (T : regex) :
  Robust (Seq (Group n (Rep dot 0 false)) T).
Proof.
  intros a w t1 t2 cs1 cs2 Hacc Ha Hw Hnone. exfalso.
  rewrite <- sapp_assoc in Hnone.
  revert Hnone. apply run_complete; [| discriminate].
  cbn [accepts] in *. destruct Hacc as (g & w' & -> & [Hg _] & Hacc).
  exists (a ++ g), w'. rewrite sapp_assoc. repeat split; auto.
  - rewrite every_app, Ha, Hg. reflexivity.
  - lia.
Qed.

Lemma det_lazy (n : nat) (T : regex) :
  ~ In n (groups T) -> Det T -> Robust T ->
  Det (Seq (Group n (Rep dot 0 false)) T).
Proof.
  intros Hn HT HR s cs r. cbn [run rep]. intros Hrun.
  apply star_lazy_first in Hrun.
  destruct Hrun as (a & v & -> & Ha & Hv & Hmin).
  destruct (det_result T _ _ _ HT Hv)
    as (body & rest & -> & Hdot & Hacc & Hkeys & -> & Hall).
  assert (Hgrp : grp n (body ++ [(n, a)])%list = a).
  { unfold grp. rewrite group_app_notin by now rewrite Hkeys.
    simpl. now rewrite Nat.eqb_refl. }
  assert (Hfill : fill T (body ++ [(n, a)])%list = fill T body).
  { apply fill_app. intros m Hm. now rewrite Hkeys. }
  exists (body ++ [(n, a)])%list, rest.
  cbn [fill accepts groups]. rewrite Hgrp, Hfill, sapp_assoc.
  repeat split; auto.
  - rewrite every_app, Ha, Hdot. reflexivity.
  - exists a, (fill T body). repeat split; auto. lia.
  - rewrite map_app, Hkeys. reflexivity.
  - intros t cs'. cbn [run rep]. rewrite sapp_assoc.
    apply star_lazy_build; auto.
    + rewrite consumed_app, Hall, <- app_assoc. reflexivity.
    + intros a1 a2 Heq Hne.
      specialize (Hmin a1 a2 Heq Hne).
      assert (Ha2 : every dot a2 = true).
      { rewrite Heq, every_app in Ha. apply andb_true_iff in Ha. tauto. }
      exact (HR a2 (fill T body) rest t _ _ Hacc Ha2 Hdot Hmin).
Qed.

(** *** A greedy group before a literal *)

Lemma lit_fails_on (cls : ascii -> bool) (c0 c : ascii) (l s : string)
      (T : regex) (cs : captures) :
  cls c0 = false -> cls c = true ->
  run (Seq (Lit (String c0 l)) T) (String c s) cs kf = None.
Proof.
  intros H0 Hc. cbn [run drop_prefix].
  destruct (Ascii.eqb_spec c0 c) as [-> | _]; [congruence | reflexivity].
Qed.

Lemma det_greedy (n : nat) (cls : ascii -> bool) (c0 : ascii) (l : string)
      (T : regex) :
  ~ In n (groups T) -> cls c0 = false ->
  (forall c, cls c = true -> dot c = true) ->
  Det (Seq (Lit (String c0 l)) T) ->
  Det (Seq (Group n (Rep cls 1 true)) (Seq (Lit (String c0 l)) T)).
Proof.
  intros Hn Hc0 Hcls HT s cs r.
  set (T2 := Seq (Lit (String c0 l)) T) in *.
  cbn [run]. intros Hrun. apply rep_sound in Hrun.
  destruct Hrun as (a & v & -> & Ha & Hlen & Hv).
  destruct (det_result T2 _ _ _ HT Hv)
    as (body & rest & -> & Hdot & Hacc & Hkeys & -> & Hall).
  assert (Hkeys' : map fst body = groups T)
    by (rewrite Hkeys; unfold T2; cbn [groups]; now rewrite app_nil_r).
  assert (Hgrp : grp n (body ++ [(n, a)])%list = a).
  { unfold grp. rewrite group_app_notin by now rewrite Hkeys'.
    simpl. now rewrite Nat.eqb_refl. }
  assert (Hfill : fill T2 (body ++ [(n, a)])%list = fill T2 body).
  { apply fill_app. intros m Hm. now rewrite Hkeys. }
  exists (body ++ [(n, a)])%list, rest.
  cbn [fill accepts groups]. fold T2. rewrite Hgrp, Hfill, sapp_assoc.
  repeat split; auto.
  - rewrite every_app, Hdot, (every_impl cls dot a Hcls Ha). reflexivity.
  - exists a, (fill T2 body). repeat split; auto.
  - rewrite map_app, Hkeys. reflexivity.
  - intros t cs'. cbn [run]. rewrite sapp_assoc.
    assert (Hshape : fill T2 body ++ t = String c0 (l ++ fill T body ++ t))
      by (unfold T2; cbn [fill]; simpl; now rewrite sapp_assoc).
    rewrite Hshape. apply rep_greedy_build; auto.
    rewrite <- Hshape, consumed_app, Hall, <- app_assoc. reflexivity.
Qed.

Lemma robust_greedy (n : nat) (cls : ascii -> bool) (c0 : ascii)
      (l : string) (T : regex) :
  cls c0 = false ->
  Robust (Seq (Lit (String c0 l)) T) ->
  Robust (Seq (Group n (Rep cls 1 true)) (Seq (Lit (String c0 l)) T)).
Proof.
  intros Hc0 HT a w t1 t2 cs1 cs2 Hacc Ha Hw.
  set (T2 := Seq (Lit (String c0 l)) T) in *.
  cbn [accepts] in Hacc. destruct Hacc as (d & w' & -> & [Hd Hlen] & Hacc).
  assert (Hw' : exists w2, w' = String c0 w2).
  { unfold T2 in Hacc. cbn [accepts] in Hacc.
    destruct Hacc as (p1 & p2 & -> & -> & _). simpl. eauto. }
  destruct Hw' as (w2 & Hw2).
  rewrite every_app in Hw. apply andb_true_iff in Hw. destruct Hw as [Hdd Hw].
  cbn [run].
  assert (Hne : exists c u, a ++ d = String c u).
  { destruct a as [| c a]; simpl; [| eauto].
    destruct d as [| c d]; simpl in *; [lia | eauto]. }
  destruct Hne as (c & u & Hcu).
  assert (Hu : every dot u = true).
  { assert (H : every dot (a ++ d) = true)
      by (rewrite every_app, Ha, Hdd; reflexivity).
    rewrite Hcu in H. simpl in H. apply andb_true_iff in H. tauto. }
  rewrite !sapp_assoc, <- !(sapp_assoc a d), Hcu.
  cbn [append rep]. destruct (cls c) eqn:Hc; [| reflexivity].
  rewrite !star_greedy_det
    by (intros c1 s1 Hc1; now apply (lit_fails_on cls)).
  assert (Hdw : forall t : string,
             drop_while cls (u ++ w' ++ t) = drop_while cls u ++ w' ++ t).
  { intros t. rewrite Hw2. simpl. now apply drop_while_stops. }
  rewrite !Hdw. apply HT; auto. now apply every_drop_while.
Qed.

End Priority.

Section LogPattern.
Import Re Preprocess Notions ReSpec Stable Collector.

Lemma digit_is_dot (c : ascii) : digit c = true -> dot c = true.
Proof.
  unfold dot. destruct (Ascii.eqb_spec c "010"%char) as [-> |];
    [discriminate | reflexivity].
Qed.

Lemma nonspace_dot (c : ascii) : nonspace c = true -> dot c = true.
Proof.
  unfold dot, nonspace. destruct (Ascii.eqb_spec c "010"%char) as [-> |];
    [discriminate | reflexivity].
Qed.

Ltac robust_step :=
  first [ apply robust_rest_of_line
        | apply robust_lazy
        | apply robust_greedy; [reflexivity |]
        | apply robust_lit ].

Ltac det_step :=
  first [ apply det_rest_of_line
        | apply det_greedy;
          [simpl; lia | reflexivity
           | first [exact nonspace_dot | exact digit_is_dot] |]
        | apply det_lazy; [simpl; lia | | repeat robust_step]
        | apply det_lit; [reflexivity |] ].

(** [LOG_PATTERN] is decided by the line up to the quote that closes the
    user agent. *)
Lemma log_pattern_det : Det LOG_PATTERN.
Proof.
  unfold LOG_PATTERN, seq, dquote. cbn [fold_right append].
  change (Seq (Opt (Group 10 (Rep dot 0 true))) (Lit EmptyString))
    with rest_of_line.
  repeat det_step.
Qed.

Lemma fill_cons_notin (T : regex) (m : nat) (x : string) (b : captures) :
  ~ In m (groups T) -> fill T ((m, x) :: b) = fill T b.
Proof.
  induction T as [p | cls min greedy | n r IH | r1 IH1 r2 IH2
                  | r1 IH1 r2 IH2 | r IH]; simpl; intros Hnot;
    try reflexivity.
  - unfold grp. simpl. destruct (Nat.eqb_spec n m) as [-> | _];
      [exfalso; apply Hnot; now left | reflexivity].
  - rewrite IH1, IH2; [reflexivity | |];
      intros Hin; apply Hnot; apply in_or_app; auto.
Qed.

Lemma every_take_while (cls : ascii -> bool) (s : string) :
  every cls (take_while cls s) = true.
Proof.
  induction s as [| c s IH]; simpl; [reflexivity |].
  destruct (cls c) eqn:Hc; simpl; [now rewrite Hc | reflexivity].
Qed.

(** The groups 1 to 9 of a match, and the line they are found in. *)
Lemma log_pattern_stable (line : string) (cs : captures) :
  rmatch LOG_PATTERN line = Some cs ->
  exists rest,
    line = fill LOG_PATTERN cs ++ rest
    /\ every dot (fill LOG_PATTERN cs) = true
    /\ grp 10 cs = take_while dot rest
    /\ forall t, exists cs',
        rmatch LOG_PATTERN (fill LOG_PATTERN cs ++ t) = Some cs'
        /\ grp 10 cs' = take_while dot t
        /\ forall n, n <> 10%nat -> grp n cs' = grp n cs.
Proof.
  intros Hm. unfold rmatch in Hm.
  destruct (det_result _ _ _ _ log_pattern_det Hm)
    as (body & rest & Hline & Hdot & _ & Hkeys & -> & Hall).
  assert (Hfill : fill LOG_PATTERN
                       ((10%nat, take_while dot rest) :: body ++ [])%list
                  = fill LOG_PATTERN body).
  { rewrite fill_cons_notin by (simpl; lia).
    apply fill_app. intros n Hn. now rewrite Hkeys. }
  rewrite Hfill. exists rest. repeat split; auto.
  intros t. exists ((10%nat, take_while dot t) :: body ++ [])%list.
  repeat split.
  - apply Hall.
  - intros n Hn. unfold grp. simpl.
    destruct (Nat.eqb_spec n 10); [contradiction | reflexivity].
Qed.

Lemma rstrip_fixed_end (x : string) (c : ascii) :
  is_space c = false ->
  rstrip (x ++ String c EmptyString) = x ++ String c EmptyString.
Proof.
  intros Hc. induction x as [| a x IH]; simpl.
  - now rewrite Hc.
  - rewrite IH. destruct x; reflexivity.
Qed.

Lemma every_remove_char (cls : ascii -> bool) (c : ascii) (s : string) :
  every cls s = true -> every cls (remove_char c s) = true.
Proof.
  induction s as [| a s IH]; simpl; [reflexivity |].
  intros H. apply andb_true_iff in H. destruct H as [Ha Hs].
  destruct (Ascii.eqb a c); simpl; [auto | now rewrite Ha, IH].
Qed.

(** The record read off a line whose match is known. *)
Lemma parse_log_line_of (line : string) (cs : captures) :
  rmatch LOG_PATTERN line = Some cs ->
  parse_log_line line
  = match int (grp 6 cs) with
    | Raise e => Raise e
    | Ret status =>
        match int (grp 7 cs) with
        | Raise e => Raise e
        | Ret bytes =>
            Ret (Some {| ip := grp 1 cs;
                         Preprocess.timestamp := grp 4 cs;
                         method := match split (grp 5 cs) with
                                   | m :: _ :: _ => m
                                   | _ => "UNKNOWN"
                                   end;
                         url := match split (grp 5 cs) with
                                | _ :: u :: _ => u
                                | _ => grp 5 cs
                                end;
                         Preprocess.status := status;
                         bytes := bytes;
                         referer := grp 8 cs;
                         Preprocess.user_agent := grp 9 cs |})
        end
    end.
Proof.
  intros Hm. unfold parse_log_line. rewrite Hm.
  destruct (split (grp 5 cs)) as [| m [| u l]]; reflexivity.
Qed.

(** A line that does not match gives no record, and no exception. *)
Lemma parse_log_line_none (line : string) :
  rmatch LOG_PATTERN line = None -> parse_log_line line = Ret None.
Proof. intros Hm. unfold parse_log_line. now rewrite Hm. Qed.

(** What the two conversions of a matching line give. *)
Lemma parsed_numbers (line : string) (cs : captures) (p : Parsed) :
  rmatch LOG_PATTERN line = Some cs ->
  parse_log_line line = Ret (Some p) ->
  Preprocess.user_agent p = grp 9 cs
  /\ int (grp 6 cs) = Ret (Preprocess.status p)
  /\ int (grp 7 cs) = Ret (bytes p)
  /\ 0 <= Preprocess.status p /\ 0 <= bytes p.
Proof.
  intros Hm Hp. rewrite (parse_log_line_of line cs Hm) in Hp.
  destruct (log_pattern_shape line cs Hm)
    as (g2 & g3 & rest & _ & _ & _ & _ & _ & _ & _ & H6 & H6ne & H7 & H7ne
        & _).
  pose proof (int_digits (grp 6 cs) H6 H6ne) as Hi6.
  pose proof (int_digits (grp 7 cs) H7 H7ne) as Hi7.
  destruct (max_str_digits <? String.length (grp 6 cs))%nat;
    [rewrite Hi6 in Hp; discriminate |].
  destruct (max_str_digits <? String.length (grp 7 cs))%nat;
    [rewrite Hi6, Hi7 in Hp; discriminate |].
  rewrite Hi6, Hi7 in Hp |- *. inversion Hp; subst p.
  cbn [Preprocess.user_agent Preprocess.status bytes].
  repeat split; apply int_acc_nonneg; (assumption || lia).
Qed.

(** The parser raises nothing but [ValueError]. *)
Lemma parser_raises_value_error (line : string) (e : exn) :
  parse_log_line line = Raise e -> e = ValueError.
Proof.
  destruct (rmatch LOG_PATTERN line) as [cs |] eqn:Hm;
    [| rewrite (parse_log_line_none line Hm); discriminate].
  rewrite (parse_log_line_of line cs Hm).
  destruct (log_pattern_shape line cs Hm)
    as (g2 & g3 & rest & _ & _ & _ & _ & _ & _ & _ & H6 & H6ne & H7 & H7ne
        & _).
  rewrite (int_digits (grp 6 cs) H6 H6ne), (int_digits (grp 7 cs) H7 H7ne).
  destruct (max_str_digits <? String.length (grp 6 cs))%nat;
    [intros H; now inversion H |].
  destruct (max_str_digits <? String.length (grp 7 cs))%nat;
    [intros H; now inversion H | discriminate].
Qed.

Lemma parse_same_groups (l1 l2 : string) (c1 c2 : captures) :
  rmatch LOG_PATTERN l1 = Some c1 -> rmatch LOG_PATTERN l2 = Some c2 ->
  (forall n, n <> 10%nat -> grp n c2 = grp n c1) ->
  parse_log_line l2 = parse_log_line l1.
Proof.
  intros H1 H2 Hsame.
  rewrite (parse_log_line_of l1 c1 H1), (parse_log_line_of l2 c2 H2).
  rewrite !Hsame by discriminate. reflexivity.
Qed.

(** X19: the record [parse_log_line] reads is decided by the line up to the
    quote that closes the user agent: a parsed line ends its head there, and
    whatever text replaces the rest, the same record is read. *)
Theorem record_is_decided_before_the_rest (line : string) (p : Parsed) :
  parse_log_line line = Ret (Some p) ->
  exists before rest,
    line = before ++ dquote ++ Preprocess.user_agent p ++ dquote ++ rest
    /\ forall t,
        parse_log_line
          (before ++ dquote ++ Preprocess.user_agent p ++ dquote ++ t)
        = Ret (Some p).
Proof.
  intros Hp.
  destruct (rmatch LOG_PATTERN line) as [cs |] eqn:Hm;
    [| unfold parse_log_line in Hp; rewrite Hm in Hp; discriminate].
  destruct (log_pattern_stable line cs Hm)
    as (rest & Hline & _ & _ & Hall).
  assert (Hua : Preprocess.user_agent p = grp 9 cs)
    by apply (parsed_numbers line cs p Hm Hp).
  exists (grp 1 cs ++ " " ++ grp 2 cs ++ " " ++ grp 3 cs ++ " ["
          ++ grp 4 cs ++ "] " ++ dquote ++ grp 5 cs ++ dquote ++ " "
          ++ grp 6 cs ++ " " ++ grp 7 cs ++ " " ++ dquote ++ grp 8 cs
          ++ dquote ++ " "), rest.
  assert (Hhead : forall t : string,
             (grp 1 cs ++ " " ++ grp 2 cs ++ " " ++ grp 3 cs ++ " ["
              ++ grp 4 cs ++ "] " ++ dquote ++ grp 5 cs ++ dquote ++ " "
              ++ grp 6 cs ++ " " ++ grp 7 cs ++ " " ++ dquote ++ grp 8 cs
              ++ dquote ++ " ")
             ++ dquote ++ Preprocess.user_agent p ++ dquote ++ t
             = fill LOG_PATTERN cs ++ t).
  { intros t. rewrite Hua. unfold LOG_PATTERN, seq, dquote.
    cbn [fold_right fill]. repeat rewrite sapp_assoc. reflexivity. }
  split; [rewrite (Hhead rest); exact Hline |].
  intros t. rewrite (Hhead t).
  destruct (Hall t) as (cs' & Hm' & _ & Hsame).
  rewrite <- Hp. exact (parse_same_groups _ _ _ _ Hm Hm' Hsame).
Qed.

(** X20: the line the collector writes ends with a line feed and holds no
    other, and the record [parse_log_line] reads off it once stripped, as the
    monitor strips it, is the record of the raw line: rewriting the rest of
    the line changes nothing that is parsed. *)
Theorem collected_line_gives_the_same_record (raw_line out : string) :
  format_to_kagggle_style raw_line = Some out ->
  (exists text, out = text ++ newline /\ every dot text = true)
  /\ parse_log_line (strip out) = parse_log_line raw_line.
Proof.
  unfold format_to_kagggle_style, NGINX_PATTERN.
  destruct (rmatch LOG_PATTERN raw_line) as [cs |] eqn:Hm; [| discriminate].
  cbv zeta.
  set (extra := if truthy
                     (if truthy (grp 10 cs)
                      then remove_char "034" (strip (grp 10 cs)) else "-")
                then if truthy (grp 10 cs)
                     then remove_char "034" (strip (grp 10 cs)) else "-"
                else "-").
  intros H.
  assert (Hshape : out = (fill LOG_PATTERN cs ++ " " ++ dquote ++ extra)
                         ++ dquote ++ newline).
  { injection H as <-. unfold LOG_PATTERN, seq, dquote.
    cbn [fold_right fill]. repeat rewrite sapp_assoc. reflexivity. }
  clear H.
  destruct (log_pattern_stable raw_line cs Hm)
    as (rest & Hline & Hdot & H10 & Hall).
  assert (Hextra : every dot extra = true).
  { assert (H : every dot (remove_char "034" (strip (grp 10 cs))) = true).
    { apply every_remove_char, every_strip. rewrite H10.
      apply every_take_while. }
    unfold extra. destruct (truthy (grp 10 cs)); [| reflexivity].
    destruct (truthy _); [exact H | reflexivity]. }
  rewrite Hshape.
  set (text := fill LOG_PATTERN cs ++ " " ++ dquote ++ extra).
  split.
  - exists (text ++ dquote). split; [now rewrite sapp_assoc |].
    unfold text. rewrite !every_app, Hdot, Hextra. reflexivity.
  - destruct (log_pattern_shape raw_line cs Hm)
      as (g2 & g3 & rest' & _ & Hg1 & Hne & _).
    assert (Hstrip : strip (text ++ dquote ++ newline) = text ++ dquote).
    { unfold strip.
      assert (Hl : lstrip (text ++ dquote ++ newline)
                   = text ++ dquote ++ newline).
      { unfold text, LOG_PATTERN, seq. cbn [fold_right fill].
        destruct (grp 1 cs) as [| c g1]; [contradiction |].
        simpl in Hg1. apply andb_true_iff in Hg1. destruct Hg1 as [Hc _].
        unfold nonspace in Hc. apply negb_true_iff in Hc.
        rewrite !sapp_assoc. cbn [append]. now apply lstrip_fixed. }
      rewrite Hl, <- sapp_assoc.
      rewrite rstrip_app_spaces by reflexivity.
      now apply rstrip_fixed_end. }
    rewrite Hstrip. unfold text.
    replace ((fill LOG_PATTERN cs ++ " " ++ dquote ++ extra) ++ dquote)
      with (fill LOG_PATTERN cs ++ " " ++ dquote ++ extra ++ dquote)
      by (now rewrite !sapp_assoc).
    destruct (Hall (" " ++ dquote ++ extra ++ dquote))
      as (cs' & Hm' & _ & Hsame).
    exact (parse_same_groups _ _ _ _ Hm Hm' Hsame).
Qed.

End LogPattern.

Section CollectorExtras.
Import Re Preprocess Notions ReSpec Stable Collector Loader.

(** X19 on the request for the admin page, which ends with the user agent:
    any text after it leaves the record as it is. *)
Lemma record_is_decided_before_the_rest_witness :
  exists before rest,
    Samples.admin_by_sqlmap
    = before ++ dquote ++ "sqlmap/1.0" ++ dquote ++ rest
    /\ forall t,
        parse_log_line (before ++ dquote ++ "sqlmap/1.0" ++ dquote ++ t)
        = parse_log_line Samples.admin_by_sqlmap.
Proof.
  destruct (record_is_decided_before_the_rest
              Samples.admin_by_sqlmap
              {| ip := "10.0.0.9";
                 Preprocess.timestamp := "27/Nov/2024:10:30:10 +0000";
                 method := "GET";
                 url := "/admin";
                 Preprocess.status := 200;
                 bytes := 512;
                 referer := "-";
                 Preprocess.user_agent := "sqlmap/1.0" |})
    as (before & rest & Hline & Hall).
  - vm_compute. reflexivity.
  - exists before, rest. split; [exact Hline |].
    intros t. etransitivity; [exact (Hall t) | vm_compute; reflexivity].
Defined.

(** X20 on a line of the web container that ends with a forwarded
    address. *)
Lemma collected_line_gives_the_same_record_witness :
  exists out,
    format_to_kagggle_style Cases.forwarded = Some out
    /\ parse_log_line (strip out) = parse_log_line Cases.forwarded.
Proof.
  eexists. split; [vm_compute; reflexivity |].
  apply (collected_line_gives_the_same_record Cases.forwarded).
  vm_compute. reflexivity.
Defined.

Lemma count_from_nonneg (sub s : string) :
  forall skip, 0 <= count_from sub s skip.
Proof.
  induction s as [| c s IH]; intros skip; cbn [count_from]; [lia |].
  destruct skip; [| apply IH].
  destruct (startswith sub (String c s)); [| apply IH].
  specialize (IH (String.length sub - 1)%nat). revert IH.
  generalize (count_from sub s (String.length sub - 1)). intros z Hz. lia.
Qed.

Lemma sum_counts_nonneg (ks : list string) (s : string) :
  0 <= sum_counts ks s.
Proof.
  induction ks as [| k ks IH]; [unfold sum_counts; simpl; lia |].
  change (0 <= count k s + sum_counts ks s).
  pose proof (count_from_nonneg k s 0) as Hk. fold (count k s) in Hk.
  revert Hk IH. generalize (count k s), (sum_counts ks s). intros; lia.
Qed.

(** A row of [extract_features] on a record read off a line. *)
Lemma feature_row (line : string) (p : Parsed) :
  parse_log_line line = Ret (Some p) ->
  List.length (extract_features p) = 6%nat
  /\ Forall (fun x => 0 <= x) (extract_features p).
Proof.
  intros Hp. split; [reflexivity |].
  assert (Hbytes : 0 <= bytes p).
  { destruct (rmatch LOG_PATTERN line) as [cs |] eqn:Hm;
      [| unfold parse_log_line in Hp; rewrite Hm in Hp; discriminate].
    apply (parsed_numbers line cs p Hm Hp). }
  unfold extract_features, count_specials, len.
  repeat constructor; try lia.
  - apply sum_counts_nonneg.
  - destruct (_ >=? 400); lia.
  - destruct (String.eqb _ _); lia.
Qed.

(** The records of the lines that give one, in order. *)
Lemma read_lines_cases (lines : list string) :
  forall data,
    (exists e line,
        read_lines lines data = Raise e
        /\ In line lines /\ parse_log_line (strip line) = Raise e)
    \/ (read_lines lines data
        = Ret (data ++ flat_map (fun line =>
                                   match parse_log_line (strip line) with
                                   | Ret (Some parsed) => [parsed]
                                   | _ => []
                                   end) lines)%list
        /\ forall line, In line lines ->
                        exists r, parse_log_line (strip line) = Ret r).
Proof.
  induction lines as [| line lines IH]; intros data;
    cbn [read_lines flat_map].
  - right. split; [now rewrite app_nil_r | intros line []].
  - destruct (parse_log_line (strip line)) as [[p |] | e] eqn:Hp.
    + destruct (IH (data ++ [p])%list)
        as [(e & l & Hr & Hl & He) | [Hr Hall]].
      * left. exists e, l. repeat split; auto. now right.
      * right. split; [rewrite Hr; now rewrite <- app_assoc |].
        intros l [<- | Hl]; [eauto | now apply Hall].
    + destruct (IH data) as [(e & l & Hr & Hl & He) | [Hr Hall]].
      * left. exists e, l. repeat split; auto. now right.
      * right. split; [exact Hr |].
        intros l [<- | Hl]; [eauto | now apply Hall].
    + left. exists e, line. repeat split; auto. now left.
Qed.

(** X21: what [load_and_process_logs] hands to the training.  On a
    standard output without pictographs it raises at its first message.
    Otherwise: nothing when the file is missing or no line of it gives a
    record; an exception, which is a [ValueError], exactly when the parser
    raises on some line once stripped (a status or a byte count of more
    than 4300 digits); else one row for each line that parses once stripped,
    the rows in the order of the lines, each of six entries none of which is
    negative. *)
Theorem training_rows_follow_the_lines (lines : list string) :
  let parsed :=
    flat_map (fun line =>
                match parse_log_line (strip line) with
                | Ret (Some p) => [p]
                | _ => []
                end) lines in
  (forall file, load_and_process_logs false file = Raise UnicodeEncodeError)
  /\ load_and_process_logs true None = Ret None
  /\ ((exists e, load_and_process_logs true (Some lines) = Raise e)
      <-> exists line e,
            In line lines /\ parse_log_line (strip line) = Raise e)
  /\ (forall e,
         load_and_process_logs true (Some lines) = Raise e -> e = ValueError)
  /\ (load_and_process_logs true (Some lines) = Ret None
      <-> forall line,
            In line lines -> parse_log_line (strip line) = Ret None)
  /\ forall rows,
      load_and_process_logs true (Some lines) = Ret (Some rows) ->
      rows = map extract_features parsed
      /\ rows <> []
      /\ (List.length rows <= List.length lines)%nat
      /\ Forall (fun row => List.length row = 6%nat
                            /\ Forall (fun x => 0 <= x) row) rows.
Proof.
  intros parsed.
  split; [reflexivity |]. split; [reflexivity |].
  assert (Hin : forall p, In p parsed ->
                          exists line,
                            In line lines
                            /\ parse_log_line (strip line) = Ret (Some p)).
  { intros p Hp. unfold parsed in Hp. apply in_flat_map in Hp.
    destruct Hp as (line & Hline & Hp). exists line. split; [exact Hline |].
    destruct (parse_log_line (strip line)) as [[q |] | e]; simpl in Hp;
      try contradiction.
    destruct Hp as [-> | []]. reflexivity. }
  assert (Hlen : (List.length parsed <= List.length lines)%nat).
  { unfold parsed. clear. induction lines as [| line lines IH]; simpl;
      [lia |].
    rewrite length_app.
    destruct (parse_log_line (strip line)) as [[q |] | e]; simpl; lia. }
  assert (Hfrom : forall line p,
             parse_log_line (strip line) = Ret (Some p) ->
             In line lines -> parsed <> []).
  { intros line p E Hline Hnil.
    assert (Hp' : In p parsed).
    { unfold parsed. apply in_flat_map. exists line.
      split; [exact Hline |]. rewrite E. now left. }
    rewrite Hnil in Hp'. contradiction. }
  unfold load_and_process_logs. cbn [negb].
  destruct (read_lines_cases lines [])
    as [(e & bad & Hr & Hbad & He) | [Hr Hall]];
    rewrite Hr; cbn [app]; fold parsed; clearbody parsed.
  - split; [split; eauto |].
    split; [intros e' H; inversion H; subst e';
            exact (parser_raises_value_error _ _ He) |].
    split; [| discriminate].
    split; [discriminate |].
    intros Hnone. rewrite (Hnone bad Hbad) in He. discriminate.
  - split.
    { split.
      - intros [e H]. destruct parsed; discriminate.
      - intros (line & e & Hline & He).
        destruct (Hall line Hline) as [r Hret]. congruence. }
    split; [intros e H; destruct parsed; discriminate |].
    split.
    + split.
      * intros Hnone line Hline.
        destruct (Hall line Hline) as [[p |] Hp]; [| exact Hp].
        destruct parsed; [| discriminate].
        exfalso. exact (Hfrom line p Hp Hline eq_refl).
      * intros Hnone. destruct parsed as [| p rest]; [reflexivity |].
        destruct (Hin p (or_introl eq_refl)) as (line & Hline & Hp).
        rewrite (Hnone line Hline) in Hp. discriminate.
    + intros rows Hrows.
      assert (Hrows' : rows = map extract_features parsed /\ parsed <> []).
      { destruct parsed; [discriminate |]. injection Hrows as <-.
        split; [reflexivity | discriminate]. }
      destruct Hrows' as [-> Hne]. split; [reflexivity |].
      split; [destruct parsed; [contradiction | discriminate] |].
      split; [rewrite length_map; exact Hlen |].
      apply Forall_map. apply Forall_forall. intros q Hq.
      destruct (Hin q Hq) as (line & _ & Hparse).
      exact (feature_row (strip line) q Hparse).
Qed.

End CollectorExtras.

(* ------------------------------------------------------------------ *)
(** ** Lines in the combined shape are read back *)

Section Reading.
Import Re Preprocess Notions ReSpec Stable.

Lemma reads_rest_of_line : Reads rest_of_line [].
Proof. split; [reflexivity |]. intros t cs. apply run_rest_of_line. Qed.

Lemma reads_lit (l : string) (T : regex) (b : captures) :
  Reads T b -> Reads (Seq (Lit l) T) b.
Proof.
  intros [Hkeys Hall]. split.
  - cbn [groups]. now rewrite app_nil_r.
  - intros t cs. cbn [run fill]. rewrite sapp_assoc, drop_prefix_app.
    apply Hall.
Qed.

Lemma reads_group_fill (n : nat) (a : string) (T : regex) (b : captures) :
  map fst b = groups T -> ~ In n (groups T) ->
  grp n (b ++ [(n, a)])%list = a
  /\ fill T (b ++ [(n, a)])%list = fill T b.
Proof.
  intros Hkeys Hn. split.
  - unfold grp. rewrite group_app_notin by now rewrite Hkeys.
    simpl. now rewrite Nat.eqb_refl.
  - apply fill_app. intros m Hm. now rewrite Hkeys.
Qed.

Lemma reads_greedy (n : nat) (cls : ascii -> bool) (a : string)
      (c0 : ascii) (l : string) (T : regex) (b : captures) :
  Reads (Seq (Lit (String c0 l)) T) b ->
  ~ In n (groups T) -> cls c0 = false ->
  every cls a = true -> a <> EmptyString ->
  Reads (Seq (Group n (Rep cls 1 true)) (Seq (Lit (String c0 l)) T))
        (b ++ [(n, a)])%list.
Proof.
  set (T2 := Seq (Lit (String c0 l)) T).
  intros [Hkeys Hall] Hn Hc0 Ha Hne.
  assert (Hn2 : ~ In n (groups T2))
    by (unfold T2; cbn [groups]; now rewrite app_nil_r).
  destruct (reads_group_fill n a T2 b Hkeys Hn2) as [Hgrp Hfill].
  split.
  - cbn [groups]. fold T2. now rewrite map_app, Hkeys.
  - intros t cs. cbn [run fill]. fold T2. rewrite Hgrp, Hfill, sapp_assoc.
    assert (Hshape : fill T2 b ++ t = String c0 (l ++ fill T b ++ t))
      by (unfold T2; cbn [fill]; simpl; now rewrite sapp_assoc).
    rewrite Hshape. apply rep_greedy_build; auto.
    + destruct a; [contradiction | simpl; lia].
    + rewrite <- Hshape, consumed_app, Hall, <- app_assoc. reflexivity.
Qed.

Lemma reads_lazy (n : nat) (a : string) (c0 : ascii) (l : string)
      (T : regex) (b : captures) :
  Reads (Seq (Lit (String c0 l)) T) b ->
  ~ In n (groups T) ->
  every dot a = true -> every (other_than c0) a = true ->
  Reads (Seq (Group n (Rep dot 0 false)) (Seq (Lit (String c0 l)) T))
        (b ++ [(n, a)])%list.
Proof.
  set (T2 := Seq (Lit (String c0 l)) T).
  intros [Hkeys Hall] Hn Ha Hfree.
  assert (Hn2 : ~ In n (groups T2))
    by (unfold T2; cbn [groups]; now rewrite app_nil_r).
  destruct (reads_group_fill n a T2 b Hkeys Hn2) as [Hgrp Hfill].
  split.
  - cbn [groups]. fold T2. now rewrite map_app, Hkeys.
  - intros t cs. cbn [run fill rep]. fold T2.
    rewrite Hgrp, Hfill, sapp_assoc.
    apply star_lazy_build; auto.
    + rewrite consumed_app, Hall, <- app_assoc. reflexivity.
    + intros a1 a2 Heq Hne.
      destruct a2 as [| c a2]; [contradiction |].
      rewrite Heq, every_app in Hfree. apply andb_true_iff in Hfree.
      destruct Hfree as [_ Hc]. simpl in Hc. apply andb_true_iff in Hc.
      destruct Hc as [Hc _]. unfold other_than in Hc.
      apply negb_true_iff in Hc.
      unfold T2. cbn [run append drop_prefix].
      rewrite Ascii.eqb_sym, Hc. reflexivity.
Qed.

(** The groups [LOG_PATTERN] reads off a line in its own shape, when the
    bracketed and the quoted fields do not hold the character that closes
    them. *)
Lemma log_pattern_reads
      (ip ident auth ts request status_text bytes_text ref ua : string) :
  every nonspace ip = true -> ip <> EmptyString ->
  every nonspace ident = true -> ident <> EmptyString ->
  every nonspace auth = true -> auth <> EmptyString ->
  every dot ts = true -> every (other_than "]") ts = true ->
  every dot request = true -> every (other_than "034") request = true ->
  every digit status_text = true -> status_text <> EmptyString ->
  every digit bytes_text = true -> bytes_text <> EmptyString ->
  every dot ref = true -> every (other_than "034") ref = true ->
  every dot ua = true -> every (other_than "034") ua = true ->
  Reads LOG_PATTERN
        ((((((((([] ++ [(9%nat, ua)]) ++ [(8%nat, ref)])
               ++ [(7%nat, bytes_text)]) ++ [(6%nat, status_text)])
             ++ [(5%nat, request)]) ++ [(4%nat, ts)]) ++ [(3%nat, auth)])
          ++ [(2%nat, ident)]) ++ [(1%nat, ip)])%list.
Proof.
  intros. unfold LOG_PATTERN, seq, dquote. cbn [fold_right append].
  change (Seq (Opt (Group 10 (Rep dot 0 true))) (Lit EmptyString))
    with rest_of_line.
  repeat first
         [ apply reads_rest_of_line
         | apply reads_greedy;
           [| simpl; lia | reflexivity | assumption | assumption]
         | apply reads_lazy; [| simpl; lia | assumption | assumption]
         | apply reads_lit ].
Qed.

(** X22: a line in the combined shape is read back field by field: when the
    address and the two fields after it are non-empty and free of
    whitespace, status and byte count are non-empty digit strings, and the
    timestamp holds no closing bracket and the request, the referer and the
    user agent no double quote (nor any of them a line feed), the parser
    raises [ValueError] if the status or the byte count has more than 4300
    digits, and otherwise returns these very fields, the numbers by value,
    the method and the URL as the first two words of the request, whatever
    text follows the user agent. *)
Theorem shaped_line_is_read_back
        (ip ident auth ts request status_text bytes_text ref ua rest
         : string) :
  every nonspace ip = true -> ip <> EmptyString ->
  every nonspace ident = true -> ident <> EmptyString ->
  every nonspace auth = true -> auth <> EmptyString ->
  every dot ts = true -> every (other_than "]") ts = true ->
  every dot request = true -> every (other_than "034") request = true ->
  every digit status_text = true -> status_text <> EmptyString ->
  every digit bytes_text = true -> bytes_text <> EmptyString ->
  every dot ref = true -> every (other_than "034") ref = true ->
  every dot ua = true -> every (other_than "034") ua = true ->
  parse_log_line
    (ip ++ " " ++ ident ++ " " ++ auth ++ " [" ++ ts ++ "] " ++ dquote
        ++ request ++ dquote ++ " " ++ status_text ++ " " ++ bytes_text
        ++ " " ++ dquote ++ ref ++ dquote ++ " " ++ dquote ++ ua ++ dquote
        ++ rest)
  = if ((max_str_digits <? String.length status_text)
        || (max_str_digits <? String.length bytes_text))%nat
    then Raise ValueError
    else Ret (Some {| Preprocess.ip := ip;
                      Preprocess.timestamp := ts;
                      method := match split request with
                                | m :: _ :: _ => m
                                | _ => "UNKNOWN"
                                end;
                      url := match split request with
                             | _ :: u :: _ => u
                             | _ => request
                             end;
                      Preprocess.status := int_acc 0 status_text;
                      bytes := int_acc 0 bytes_text;
                      referer := ref;
                      Preprocess.user_agent := ua |}).
Proof.
  intros Hip Hipn Hid Hidn Hau Haun Hts Htsf Hrq Hrqf Hst Hstn Hby Hbyn
         Hrf Hrff Hua Huaf.
  destruct (log_pattern_reads ip ident auth ts request status_text
              bytes_text ref ua)
    as [_ Hall]; auto.
  specialize (Hall rest []). cbn [app] in Hall.
  assert (Hline :
            ip ++ " " ++ ident ++ " " ++ auth ++ " [" ++ ts ++ "] "
               ++ dquote ++ request ++ dquote ++ " " ++ status_text ++ " "
               ++ bytes_text ++ " " ++ dquote ++ ref ++ dquote ++ " "
               ++ dquote ++ ua ++ dquote ++ rest
            = fill LOG_PATTERN
                   [(9%nat, ua); (8%nat, ref); (7%nat, bytes_text);
                    (6%nat, status_text); (5%nat, request); (4%nat, ts);
                    (3%nat, auth); (2%nat, ident); (1%nat, ip)]
              ++ rest).
  { unfold LOG_PATTERN, seq, dquote. cbn [fold_right fill].
    unfold grp. cbn [group Nat.eqb]. repeat rewrite sapp_assoc.
    reflexivity. }
  rewrite Hline, (parse_log_line_of _ _ Hall).
  unfold grp. cbn [group Nat.eqb].
  rewrite (int_digits status_text Hst Hstn), (int_digits bytes_text Hby Hbyn).
  destruct (max_str_digits <? String.length status_text)%nat;
    [reflexivity |].
  destruct (max_str_digits <? String.length bytes_text)%nat; reflexivity.
Qed.

(** X22 on a login request, and on the same request with a byte count of
    4301 digits. *)
Lemma shaped_line_is_read_back_witness :
  parse_log_line
    ("198.51.100.4" ++ " " ++ "-" ++ " " ++ "alice" ++ " ["
       ++ "27/Nov/2024:10:31:00 +0000" ++ "] " ++ dquote
       ++ "POST /login HTTP/1.1" ++ dquote ++ " " ++ "401" ++ " " ++ "97"
       ++ " " ++ dquote ++ "https://shop.example/" ++ dquote ++ " " ++ dquote
       ++ "Mozilla/5.0 (X11)" ++ dquote ++ " trailing")
  = Ret (Some {| Preprocess.ip := "198.51.100.4";
                 Preprocess.timestamp := "27/Nov/2024:10:31:00 +0000";
                 method := "POST";
                 url := "/login";
                 Preprocess.status := 401;
                 bytes := 97;
                 referer := "https://shop.example/";
                 Preprocess.user_agent := "Mozilla/5.0 (X11)" |})
  /\ parse_log_line
       ("198.51.100.4" ++ " " ++ "-" ++ " " ++ "alice" ++ " ["
          ++ "27/Nov/2024:10:31:00 +0000" ++ "] " ++ dquote
          ++ "POST /login HTTP/1.1" ++ dquote ++ " " ++ "401" ++ " "
          ++ Cases.ones 4301 ++ " " ++ dquote ++ "https://shop.example/"
          ++ dquote ++ " " ++ dquote ++ "Mozilla/5.0 (X11)" ++ dquote
          ++ " trailing")
     = Raise ValueError.
Proof.
  split.
  - apply (shaped_line_is_read_back
             "198.51.100.4" "-" "alice" "27/Nov/2024:10:31:00 +0000"
             "POST /login HTTP/1.1" "401" "97" "https://shop.example/"
             "Mozilla/5.0 (X11)" " trailing");
      first [reflexivity | discriminate].
  - rewrite (shaped_line_is_read_back
               "198.51.100.4" "-" "alice" "27/Nov/2024:10:31:00 +0000"
               "POST /login HTTP/1.1" "401" (Cases.ones 4301)
               "https://shop.example/" "Mozilla/5.0 (X11)" " trailing");
      first [vm_compute; reflexivity | discriminate].
Defined.

End Reading.

(* ------------------------------------------------------------------ *)
(** ** Lines of the general log give their query *)

Section GeneralLog.
Import Re Preprocess Notions ReSpec Stable.

Lemma take_while_all (cls : ascii -> bool) (s : string) :
  every cls s = true -> take_while cls s = s.
Proof.
  induction s as [| c s IH]; simpl; [reflexivity |].
  intros H. apply andb_true_iff in H. destruct H as [Hc Hs].
  now rewrite Hc, IH.
Qed.

Lemma drop_while_all (cls : ascii -> bool) (a s : string) :
  every cls a = true -> drop_while cls (a ++ s) = drop_while cls s.
Proof.
  induction a as [| c a IH]; simpl; [reflexivity |].
  intros H. apply andb_true_iff in H. destruct H as [Hc Ha].
  rewrite Hc. auto.
Qed.

Lemma lstrip_app_spaces (a s : string) :
  every is_space a = true -> lstrip (a ++ s) = lstrip s.
Proof.
  induction a as [| c a IH]; simpl; [reflexivity |].
  intros H. apply andb_true_iff in H. destruct H as [Hc Ha].
  rewrite Hc. auto.
Qed.

Lemma rstrip_app_fixed (a q : string) :
  rstrip q = q -> q <> EmptyString -> rstrip (a ++ q) = a ++ q.
Proof.
  intros Hq Hne. induction a as [| c a IH]; simpl; [exact Hq |].
  rewrite IH. destruct (a ++ q) eqn:E; [| reflexivity].
  destruct a; simpl in E; [contradiction | discriminate].
Qed.

(** A stripped text that is not empty begins and ends with a character
    that is not whitespace. *)
Lemma stripped_text (q : string) :
  strip q = q -> q <> EmptyString ->
  rstrip q = q /\ exists c r, q = String c r /\ is_space c = false.
Proof.
  intros Hq Hne.
  destruct (strip_head q) as [H | (c & r & H & Hc)];
    rewrite Hq in H; [contradiction |].
  split; [| eauto].
  rewrite <- Hq at 1. unfold strip. rewrite H at 1.
  rewrite (lstrip_fixed c r Hc), <- H. rewrite rstrip_idem.
  unfold strip in Hq. rewrite H in Hq at 1.
  rewrite (lstrip_fixed c r Hc), <- H in Hq. exact Hq.
Qed.

Lemma run_seq_eq {R} (r1 r2 : regex) (s : string) (cs : captures)
      (k : string -> captures -> option R) :
  run (Seq r1 r2) s cs k = run r1 s cs (fun s' cs' => run r2 s' cs' k).
Proof. reflexivity. Qed.

Lemma run_rep_eq {R} (cls : ascii -> bool) (min : nat) (greedy : bool)
      (s : string) (cs : captures) (k : string -> captures -> option R) :
  run (Rep cls min greedy) s cs k = rep cls min greedy s (fun s' => k s' cs).
Proof. reflexivity. Qed.

(** The keyword group of the pattern of [parse_db_log]. *)
Lemma db_keyword_step {R} (kw rest : string) (cs : captures)
      (k : string -> captures -> option R) (x : R) :
  kw = "Query" \/ kw = "Execute" ->
  k rest ((1%nat, kw) :: cs) = Some x ->
  run (Group 1 (Alt (Lit "Query") (Lit "Execute"))) (kw ++ rest) cs k
  = Some x.
Proof.
  intros [-> | ->] Hk; cbn [run].
  - now rewrite drop_prefix_app, consumed_app, Hk.
  - change (drop_prefix "Query" ("Execute" ++ rest)) with (@None string).
    now rewrite drop_prefix_app, consumed_app, Hk.
Qed.

(** The pattern of [parse_db_log] on whitespace, a keyword, whitespace and
    a query. *)
Lemma db_pattern_at_keyword (ws kw ws2 query : string) :
  every space ws = true -> ws <> EmptyString ->
  kw = "Query" \/ kw = "Execute" ->
  every space ws2 = true -> ws2 <> EmptyString ->
  every dot query = true ->
  (exists c r, query = String c r /\ is_space c = false) ->
  rmatch DB_PATTERN (ws ++ kw ++ ws2 ++ query)
  = Some [(2%nat, query); (1%nat, kw)].
Proof.
  intros Hws Hwsn Hkw Hws2 Hws2n Hq (c & r & Hqc & Hc).
  unfold rmatch, DB_PATTERN, seq. cbn [fold_right].
  rewrite run_seq_eq, run_rep_eq.
  assert (Hlen : (1 <= String.length ws)%nat)
    by (destruct ws; [contradiction | simpl; lia]).
  assert (Htail :
            forall cs,
              run (Seq (Rep space 1 true)
                       (Seq (Group 2 (Rep dot 0 true)) (Lit EmptyString)))
                  (ws2 ++ query) cs (fun _ cs' => Some cs')
              = Some ((2%nat, query) :: cs)).
  { intros cs. rewrite db_pattern_tail.
    destruct ws2 as [| c2 ws2']; [contradiction |]. simpl in Hws2.
    apply andb_true_iff in Hws2. destruct Hws2 as [Hc2 Hws2].
    cbn [append]. rewrite Hc2, (drop_while_all space ws2' query Hws2).
    rewrite Hqc. cbn [drop_while]. unfold space at 1. rewrite Hc.
    rewrite <- Hqc, (take_while_all dot query Hq). reflexivity. }
  assert (Hstart : exists c0 v, kw ++ ws2 ++ query = String c0 v
                                /\ space c0 = false).
  { destruct Hkw as [-> | ->]; simpl; eauto. }
  destruct Hstart as (c0 & v & Hv & Hc0).
  rewrite Hv. apply rep_greedy_build; auto.
  rewrite <- Hv, run_seq_eq. apply db_keyword_step; [exact Hkw |].
  apply Htail.
Qed.

Lemma db_pattern_not_at (c d : ascii) (u t : string) :
  space c = true -> every space u = true -> space d = false ->
  d <> "Q"%char -> d <> "E"%char ->
  rmatch DB_PATTERN (String c (u ++ String d t)) = None.
Proof.
  intros Hc Hu Hd HQ HE.
  unfold rmatch, DB_PATTERN, seq. cbn [fold_right].
  rewrite run_seq_eq, run_rep_eq. cbn [rep]. rewrite Hc.
  rewrite star_greedy_det.
  - rewrite (drop_while_all space u (String d t) Hu).
    cbn [drop_while]. rewrite Hd. cbn [run drop_prefix].
    destruct (Ascii.eqb_spec "Q" d) as [E | _]; [now subst |].
    destruct (Ascii.eqb_spec "E" d) as [E | _]; [now subst |].
    reflexivity.
  - intros c1 s1 Hc1. cbn [run drop_prefix].
    destruct (Ascii.eqb_spec "Q" c1) as [E | _];
      [subst; discriminate |].
    destruct (Ascii.eqb_spec "E" c1) as [E | _];
      [subst; discriminate |].
    reflexivity.
Qed.

(** [re.search] walks over a head without the two capitals to the
    keyword. *)
Lemma db_search_finds_keyword (head : string) :
  forall ws kw ws2 query,
    every (other_than "Q") head = true ->
    every (other_than "E") head = true ->
    every space ws = true -> ws <> EmptyString ->
    kw = "Query" \/ kw = "Execute" ->
    every space ws2 = true -> ws2 <> EmptyString ->
    every dot query = true ->
    (exists c r, query = String c r /\ is_space c = false) ->
    search DB_PATTERN (head ++ ws ++ kw ++ ws2 ++ query)
    = Some [(2%nat, query); (1%nat, kw)].
Proof.
  induction head as [| c head IH];
    intros ws kw ws2 query HQ HE Hws Hwsn Hkw Hws2 Hws2n Hq Hqc.
  - cbn [append].
    assert (Hm := db_pattern_at_keyword ws kw ws2 query
                    Hws Hwsn Hkw Hws2 Hws2n Hq Hqc).
    destruct (ws ++ kw ++ ws2 ++ query); cbn [search]; now rewrite Hm.
  - simpl in HQ, HE. apply andb_true_iff in HQ, HE.
    destruct HQ as [HcQ HQ], HE as [HcE HE].
    cbn [append search].
    specialize (IH ws kw ws2 query HQ HE Hws Hwsn Hkw Hws2 Hws2n Hq Hqc).
    destruct (space c) eqn:Hc.
    + destruct (drop_while_head space head)
        as [[_ Hall] | (d & t & Hd & Hdc)].
      * assert (Hm := db_pattern_at_keyword (String c head ++ ws) kw ws2
                        query).
        rewrite sapp_assoc in Hm. cbn [append] in Hm.
        rewrite Hm; auto.
        -- simpl. rewrite Hc. rewrite every_app, Hall, Hws. reflexivity.
        -- discriminate.
      * assert (Hspaces : every space (take_while space head) = true
                          /\ head = take_while space head ++ String d t).
        { split; [apply every_take_while |].
          rewrite <- Hd. symmetry. apply take_drop_while. }
        set (sp := take_while space head) in *.
        destruct Hspaces as [Hsp1 Hhead].
        assert (Hd_in : other_than "Q" d = true /\ other_than "E" d = true).
        { rewrite Hhead, every_app in HQ, HE.
          apply andb_true_iff in HQ, HE. simpl in HQ, HE.
          destruct HQ as [_ HQ], HE as [_ HE].
          apply andb_true_iff in HQ, HE. tauto. }
        destruct Hd_in as [HdQ HdE]. unfold other_than in HdQ, HdE.
        apply negb_true_iff in HdQ, HdE.
        rewrite Hhead at 1. rewrite sapp_assoc. cbn [append].
        rewrite db_pattern_not_at; auto.
        -- intros ->. discriminate.
        -- intros ->. discriminate.
    + unfold rmatch at 1. unfold DB_PATTERN, seq. cbn [fold_right].
      cbn [run rep]. rewrite Hc. exact IH.
Qed.

(** X23: a line of the general log gives its query.  When the line, within
    any whitespace around it, is a head (timestamp and thread number, say)
    that does not begin with whitespace and holds neither [Q] nor [E], then
    whitespace, [Query] or [Execute], whitespace, and a query on one line
    that is stripped and not empty, [parse_db_log] returns the query. *)
Theorem general_log_line_gives_its_query
        (lead head ws kw ws2 query trail : string) :
  every is_space lead = true -> every is_space trail = true ->
  head <> EmptyString -> lstrip head = head ->
  every (other_than "Q") head = true ->
  every (other_than "E") head = true ->
  every space ws = true -> ws <> EmptyString ->
  kw = "Query" \/ kw = "Execute" ->
  every space ws2 = true -> ws2 <> EmptyString ->
  every dot query = true -> strip query = query -> query <> EmptyString ->
  parse_db_log (lead ++ head ++ ws ++ kw ++ ws2 ++ query ++ trail) = query.
Proof.
  intros Hlead Htrail Hhn Hhead HQ HE Hws Hwsn Hkw Hws2 Hws2n Hq Hqs Hqn.
  destruct (stripped_text query Hqs Hqn) as [Hrq Hqc].
  assert (Hstrip : strip (lead ++ head ++ ws ++ kw ++ ws2 ++ query ++ trail)
                   = head ++ ws ++ kw ++ ws2 ++ query).
  { unfold strip. rewrite (lstrip_app_spaces lead _ Hlead).
    assert (Hl : lstrip (head ++ ws ++ kw ++ ws2 ++ query ++ trail)
                 = head ++ ws ++ kw ++ ws2 ++ query ++ trail).
    { destruct head as [| c head']; [contradiction |].
      simpl in Hhead. cbn [append lstrip].
      destruct (is_space c) eqn:Hc; [| reflexivity].
      exfalso. destruct (lstrip_head head') as [E | (c1 & r1 & E & Hc1)];
        rewrite Hhead in E; [discriminate |].
      inversion E; subst. congruence. }
    rewrite Hl.
    replace (head ++ ws ++ kw ++ ws2 ++ query ++ trail)
      with ((head ++ ws ++ kw ++ ws2 ++ query) ++ trail)
      by (now rewrite !sapp_assoc).
    rewrite (rstrip_app_spaces _ trail Htrail).
    replace (head ++ ws ++ kw ++ ws2 ++ query)
      with ((head ++ ws ++ kw ++ ws2) ++ query)
      by (now rewrite !sapp_assoc).
    now apply rstrip_app_fixed. }
  unfold parse_db_log. rewrite Hstrip.
  rewrite (db_search_finds_keyword head ws kw ws2 query); auto.
Qed.

(** X23 on the line the source gives as the format of the general log. *)
Lemma general_log_line_gives_its_query_witness :
  parse_db_log
    (EmptyString ++ "2025-11-19T10:00:00.123456Z   3" ++ " " ++ "Query"
       ++ "   " ++ "SELECT * FROM users" ++ Collector.newline)
  = "SELECT * FROM users".
Proof.
  apply (general_log_line_gives_its_query
           EmptyString "2025-11-19T10:00:00.123456Z   3" " " "Query" "   "
           "SELECT * FROM users" Collector.newline);
    first [reflexivity | discriminate | now left].
Defined.

End GeneralLog.
